(** * worker/games.py: match execution and pentanomial statistics

    A shallow embedding of the statistics and control code of
    [worker/games.py]: the time-control scaler [adjust_tc], the bench
    verifier [verify_signature], the paired-game accumulator
    [update_pentanomial] / [validate_pentanomial], the supervising loop
    [run_game] with its reporter, [launch_cutechess] and the batch loop
    of [run_games]; then of the rest of the worker: [github_api],
    [kill_process], [setup], [setup_engine], and of [run_games] its
    [parse_options], the clean-up of old engines and the command of a
    batch.

    Conventions of the embedding.
    - Python [int] is [Z].  In [adjust_tc] and [verify_signature] a
      Python [float] is an IEEE 754 binary64: [float()] gives the
      float nearest to the literal, every product, sum and quotient is
      rounded to the nearest float, ties to even, by the operations of
      the Standard Library's [SpecFloat], with the two zeros, the
      infinities and NaN, and ['%.3f'] is taken of the exact value of
      the float.  The scores of [validate_pentanomial], which are
      halves of game counts, the tuning parameters and the numbers of
      games on the command line are exact rationals [Q], which is
      what the floats hold as long as the counts stay below 2^50.
    - [int()] and [float()] read plain decimal literals; [round] is
      Python 3's rounding to even.
    - Spawning a process always succeeds; the assembly of the match
      command and the deadline of a batch belong to the environment.
    - Python [str] is [string] (ASCII).
    - A function that mutates its arguments and may raise is a state
      transformer [S -> S * res A]: the state reached is kept when an
      exception is raised, as in Python.
    - The environment (lines read from the match runner, replies of the
      coordinator, the bench output) is an explicit input.
    - The calls of [setup], [setup_engine], [kill_process] and of the
      clean-up to the operating system and to the network are recorded
      in a trace; whether a call raises, and what it returns, is for the
      host to say, which is an explicit input too. *)

From Stdlib Require Import ZArith QArith Qabs Qround List String Ascii Bool Lia DecimalString.
From Stdlib Require SpecFloat.
From stdpp Require Import gmap strings list.

Local Open Scope string_scope.
Local Open Scope Z_scope.

(** ** Python values and built-ins *)

Module Py.

(** [str.isspace] on the ASCII range. *)
Definition is_space (c : ascii) : bool :=
  let n := nat_of_ascii c in
  ((9 <=? n)%nat && (n <=? 13)%nat) || ((28 <=? n)%nat && (n <=? 32)%nat).

Definition snoc (s : string) (c : ascii) : string := s ++ String c "".

(** [s.split()]: maximal runs of non-blank characters. *)
Fixpoint split_ws_aux (cur : string) (s : string) : list string :=
  match s with
  | EmptyString => if String.eqb cur "" then [] else [cur]
  | String c s' =>
      if is_space c
      then (if String.eqb cur "" then split_ws_aux "" s'
            else cur :: split_ws_aux "" s')
      else split_ws_aux (snoc cur c) s'
  end.

Definition split_ws (s : string) : list string := split_ws_aux "" s.

(** [s.split(sep)] for a non-empty separator: [skip] counts the characters
    of a separator that was just recognised and is still to be dropped. *)
Fixpoint split_aux (sep : string) (skip : nat) (cur : string) (s : string)
  : list string :=
  match s with
  | EmptyString => [cur]
  | String c s' =>
      match skip with
      | S k => split_aux sep k cur s'
      | O =>
          if String.prefix sep s
          then cur :: split_aux sep (String.length sep - 1) "" s'
          else split_aux sep 0 (snoc cur c) s'
      end
  end.

Definition split (sep s : string) : list string := split_aux sep 0 "" s.

(** [sub in s]. *)
Fixpoint contains (sub s : string) : bool :=
  String.prefix sub s ||
  match s with
  | EmptyString => false
  | String _ s' => contains sub s'
  end.

Fixpoint lstrip (s : string) : string :=
  match s with
  | EmptyString => ""
  | String c s' => if is_space c then lstrip s' else s
  end.

Fixpoint rstrip (s : string) : string :=
  match s with
  | EmptyString => ""
  | String c s' =>
      let r := rstrip s' in
      if is_space c && String.eqb r "" then "" else String c r
  end.

(** [s.strip()]. *)
Definition strip (s : string) : string := rstrip (lstrip s).

(** [s[1:]], [s[:-2]], [s[0:3]]. *)
Definition drop_first (s : string) : string :=
  match s with EmptyString => "" | String _ r => r end.
Definition drop_last2 (s : string) : string :=
  String.substring 0 (String.length s - 2) s.
Definition take (n : nat) (s : string) : string := String.substring 0 n s.

Definition digit_of (c : ascii) : option Z :=
  let n := nat_of_ascii c in
  if ((48 <=? n)%nat && (n <=? 57)%nat) then Some (Z.of_nat n - 48) else None.

Fixpoint digits_val (acc : Z) (s : string) : option Z :=
  match s with
  | EmptyString => Some acc
  | String c s' =>
      match digit_of c with
      | Some d => digits_val (10 * acc + d) s'
      | None => None
      end
  end.

Definition unsigned_val (s : string) : option Z :=
  if String.eqb s "" then None else digits_val 0 s.

(** [int(s)] on decimal literals: blanks around, an optional sign, one or
    more digits. [None] stands for [ValueError]. *)
Definition int (s : string) : option Z :=
  match strip s with
  | String "-" r => Z.opp <$> unsigned_val r
  | String "+" r => unsigned_val r
  | t => unsigned_val t
  end.

(** A Python [float] is an IEEE 754 binary64: the operations are those
    of [SpecFloat] at precision 53, which round to the nearest float,
    ties to even, and know the two zeros, the infinities and NaN. *)
Definition binary64 : Type := SpecFloat.spec_float.

Definition prec : Z := 53.
Definition emax : Z := 1024.

Definition fadd : binary64 -> binary64 -> binary64 := SpecFloat.SFadd prec emax.
Definition fmul : binary64 -> binary64 -> binary64 := SpecFloat.SFmul prec emax.
Definition fdiv : binary64 -> binary64 -> binary64 := SpecFloat.SFdiv prec emax.
Definition flt : binary64 -> binary64 -> bool := SpecFloat.SFltb.
Definition fle : binary64 -> binary64 -> bool := SpecFloat.SFleb.

Definition is_zero (x : binary64) : bool :=
  match x with SpecFloat.S754_zero _ => true | _ => false end.

Definition is_infinity (x : binary64) : bool :=
  match x with SpecFloat.S754_infinity _ => true | _ => false end.

(** [x / y] on floats: [None] stands for [ZeroDivisionError], which
    Python raises for a divisor that is [0.0] or [-0.0]. *)
Definition truediv (x y : binary64) : option binary64 :=
  if is_zero y then None else Some (fdiv x y).

(** The float nearest to [n / d], with the sign [neg]: the quotient is
    cut at the precision of the format and then rounded on what was cut
    off, as a division of floats is. *)
Definition of_ratio (neg : bool) (n : Z) (d : positive) : binary64 :=
  match n with
  | Zpos _ =>
      let '(mz, ez, lz) := SpecFloat.SFdiv_core_binary prec emax n 0 (Zpos d) 0 in
      SpecFloat.binary_round_aux prec emax neg mz ez lz
  | _ => SpecFloat.S754_zero neg
  end.

(** The float nearest to an integer: the value of a float literal such
    as [1600000.0], and of an [int] that meets a float in [*] or [+]. *)
Definition of_Z (n : Z) : binary64 := SpecFloat.binary_normalize prec emax n 0 false.

(** The conversion of an [int] operand to a float; [None] stands for
    [OverflowError] (int too large to convert to float). *)
Definition to_float (n : Z) : option binary64 :=
  if is_infinity (of_Z n) then None else Some (of_Z n).

(** [float(s)] on plain decimal literals [d+], [d+.d*], [.d+] with an
    optional sign: [unsigned_float] is the exact value of the literal,
    [float] the binary64 nearest to it ([-0] gives [-0.0], and a
    literal beyond the largest float gives an infinity). *)
Definition unsigned_float (s : string) : option Q :=
  match split "." s with
  | [i] => (fun n => inject_Z n) <$> unsigned_val i
  | [i; f] =>
      if String.eqb i "" && String.eqb f "" then None
      else
        match digits_val 0 i, digits_val 0 f with
        | Some a, Some b =>
            let k := Z.pow 10 (Z.of_nat (String.length f)) in
            Some (Qred (Qmake (a * k + b) (Z.to_pos k)))
        | _, _ => None
        end
  | _ => None
  end.

Definition float (s : string) : option binary64 :=
  match strip s with
  | String "-" r => (fun q => of_ratio true (Qnum q) (Qden q)) <$> unsigned_float r
  | String "+" r => (fun q => of_ratio false (Qnum q) (Qden q)) <$> unsigned_float r
  | t => (fun q => of_ratio false (Qnum q) (Qden q)) <$> unsigned_float t
  end.

(** ['%d' % n]. *)
Definition fmt_d (n : Z) : string := NilZero.string_of_int (Z.to_int n).

(** Rounding of a non-negative rational to the nearest integer, ties to
    even, as [round] does and as the conversion ['%.3f'] does on the
    exact value of a float. *)
Definition round_half_even (q : Q) : Z :=
  let n := Qnum q in
  let d := Zpos (Qden q) in
  let f := n / d in
  let r := n mod d in
  match Z.compare (2 * r) d with
  | Lt => f
  | Gt => f + 1
  | Eq => if Z.even f then f else f + 1
  end.

Definition pad3 (n : Z) : string :=
  let s := fmt_d n in
  match String.length s with
  | 1%nat => "00" ++ s
  | 2%nat => "0" ++ s
  | _ => s
  end.

(** The exact value [m * 2^e] of a finite float, sign apart. *)
Definition magnitude (m : positive) (e : Z) : Q :=
  if 0 <=? e then inject_Z (Zpos m * 2 ^ e)
  else Qmake (Zpos m) (Z.to_pos (2 ^ (- e))).

(** A non-negative rational, rounded to three decimals. *)
Definition decimals3 (q : Q) : string :=
  let m := round_half_even (q * 1000) in
  fmt_d (m / 1000) ++ "." ++ pad3 (m mod 1000).

Definition sign_of (s : bool) : string := if s then "-" else "".

(** ['%.3f' % x]: the exact value of the float is rounded to three
    decimals. *)
Definition fmt_3f (x : binary64) : string :=
  match x with
  | SpecFloat.S754_nan => "nan"
  | SpecFloat.S754_infinity s => sign_of s ++ "inf"
  | SpecFloat.S754_zero s => sign_of s ++ "0.000"
  | SpecFloat.S754_finite s m e => sign_of s ++ decimals3 (magnitude m e)
  end.

(** [l[k]] with Python's negative indices; [None] stands for
    [IndexError]. *)
Definition index {A} (l : list A) (k : Z) : option A :=
  let n := Z.of_nat (length l) in
  if (0 <=? k) && (k <? n) then l !! Z.to_nat k
  else if (- n <=? k) && (k <? 0) then l !! Z.to_nat (n + k)
  else None.

(** [l[k] += d]. *)
Definition index_add (l : list Z) (k d : Z) : option (list Z) :=
  let n := Z.of_nat (length l) in
  let i := if k <? 0 then n + k else k in
  match index l k with
  | Some v => Some (<[Z.to_nat i := v + d]> l)
  | None => None
  end.

(** [sum(l)]. *)
Definition sum (l : list Z) : Z := fold_right Z.add 0 l.

End Py.

(** ** Exceptions and the state-and-exception monad *)

Inductive exn : Type :=
| AssertionError
| KeyError (key : string)
| IndexError
| ValueError
| ZeroDivisionError
| OverflowError
| UnboundLocalError (name : string)
| RequestException
| Exception_ (message : string)
| SystemExit (code : Z).

(** [except Exception] catches everything here but [SystemExit]. *)
Definition is_Exception (e : exn) : bool :=
  match e with SystemExit _ => false | _ => true end.

Inductive res (A : Type) : Type :=
| Ret (a : A)
| Raise (e : exn).
Arguments Ret {A} a.
Arguments Raise {A} e.

Definition St (S A : Type) : Type := S -> S * res A.

Definition ret {S A} (a : A) : St S A := fun s => (s, Ret a).
Definition raise {S A} (e : exn) : St S A := fun s => (s, Raise e).
Definition bind {S A B} (m : St S A) (k : A -> St S B) : St S B :=
  fun s =>
    match m s with
    | (s', Ret a) => k a s'
    | (s', Raise e) => (s', Raise e)
    end.
Definition get {S} : St S S := fun s => (s, Ret s).
Definition modify {S} (f : S -> S) : St S unit := fun s => (f s, Ret tt).

(** A computation that touches no state. *)
Definition pure {S A} (r : res A) : St S A := fun s => (s, r).

(** An operation of the runtime that fails with [e] when it is [None]. *)
Definition or_raise {S A} (e : exn) (o : option A) : St S A :=
  match o with Some a => ret a | None => raise e end.

(** [assert(b)]. *)
Definition assert {S} (b : bool) : St S unit :=
  if b then ret tt else raise AssertionError.

(** [try: m finally: fin]. *)
Definition try_finally {S A} (m : St S A) (fin : St S unit) : St S A :=
  fun s =>
    match m s with
    | (s', r) =>
        match fin s' with
        | (s'', Ret _) => (s'', r)
        | (s'', Raise e) => (s'', Raise e)
        end
    end.

(** [try: m except Exception: h]. *)
Definition try_except {S A} (m : St S A) (h : exn -> St S A) : St S A :=
  fun s =>
    match m s with
    | (s', Ret a) => (s', Ret a)
    | (s', Raise e) => if is_Exception e then h e s' else (s', Raise e)
    end.

Declare Scope py_scope.
Delimit Scope py_scope with py.
Notation "x <- m ;; k" := (bind m (fun x => k))
  (at level 100, m at next level, right associativity) : py_scope.
Notation "m ;; k" := (bind m (fun _ => k))
  (at level 100, right associativity) : py_scope.
Local Open Scope py_scope.

(** [for x in l: body] without [break]. *)
Fixpoint for_each {S A} (l : list A) (body : A -> St S unit) : St S unit :=
  match l with
  | [] => ret tt
  | x :: l' => body x ;; for_each l' body
  end.

(** A list comprehension whose element expression may raise. *)
Fixpoint comprehension {S A B} (l : list A) (f : A -> St S B) : St S (list B) :=
  match l with
  | [] => ret []
  | x :: l' => y <- f x ;; ys <- comprehension l' f ;; ret (y :: ys)
  end.

(** ** Statistics records *)

(** The [stats] dictionary of a task and of a report. *)
Record stats : Type := {
  wins : Z;
  losses : Z;
  draws : Z;
  crashes : Z;
  time_losses : Z;
  stats_pentanomial : list Z
}.

(** One entry [rounds[round_]]. *)
Record RoundRecord : Type := {
  white : string;
  black : string;
  result : Z
}.

(** The dictionary [rounds] of one batch: the two string keys
    ['pentanomial'] and ['trinomial'] (absent until the first call of
    [update_pentanomial]) and the integer keys of the open rounds. *)
Record rounds_t : Type := {
  pentanomial : option (list Z);
  trinomial : option (list Z);
  games : gmap Z RoundRecord
}.

(** [rounds = {}]. *)
Definition empty_rounds : rounds_t :=
  {| pentanomial := None; trinomial := None; games := ∅ |}.

Definition set_pentanomial (p : list Z) (rs : rounds_t) : rounds_t :=
  {| pentanomial := Some p; trinomial := trinomial rs; games := games rs |}.
Definition set_trinomial (t : list Z) (rs : rounds_t) : rounds_t :=
  {| pentanomial := pentanomial rs; trinomial := Some t; games := games rs |}.
Definition set_games (g : gmap Z RoundRecord) (rs : rounds_t) : rounds_t :=
  {| pentanomial := pentanomial rs; trinomial := trinomial rs; games := g |}.

(** [rounds['pentanomial']], [rounds['trinomial']], [rounds[r]]. *)
Definition get_pentanomial : St rounds_t (list Z) :=
  rs <- get ;; or_raise (KeyError "pentanomial") (pentanomial rs).
Definition get_trinomial : St rounds_t (list Z) :=
  rs <- get ;; or_raise (KeyError "trinomial") (trinomial rs).
Definition get_round (r : Z) : St rounds_t RoundRecord :=
  rs <- get ;; or_raise (KeyError (Py.fmt_d r)) (games rs !! r).

(** [rounds['pentanomial'][k] += d], [rounds['trinomial'][k] += d]. *)
Definition pentanomial_add (k d : Z) : St rounds_t unit :=
  p <- get_pentanomial ;;
  p' <- or_raise IndexError (Py.index_add p k d) ;;
  modify (set_pentanomial p').
Definition trinomial_add (k d : Z) : St rounds_t unit :=
  t <- get_trinomial ;;
  t' <- or_raise IndexError (Py.index_add t k d) ;;
  modify (set_trinomial t').

(** ** [update_pentanomial] and [validate_pentanomial] *)

Definition result_to_score (_result : string) : Z :=
  if String.eqb _result "1-0" then 2
  else if String.eqb _result "0-1" then 0
  else if String.eqb _result "1/2-1/2" then 1
  else -1.

(** [line[k]] on the split line. *)
Definition token {S} (line : list string) (k : Z) : St S string :=
  or_raise IndexError (Py.index line k).

(** [line[0]=='Finished' and line[1]=='game' and len(line)>=7]. *)
Definition is_finished_game {S} (line : list string) : St S bool :=
  t0 <- token line 0 ;;
  if String.eqb t0 "Finished" then
    t1 <- token line 1 ;;
    ret (String.eqb t1 "game" && (7 <=? Z.of_nat (length line)))
  else ret false.

(** Lines 232-247: the record of the round is stored, its score is folded
    into [trinomial], and the odd and even rounds of its pair are
    returned. *)
Definition store_game (line : list string) : St rounds_t (Z * Z) :=
  t2 <- token line 2 ;;
  round_ <- or_raise ValueError (Py.int t2) ;;
  t3 <- token line 3 ;;
  t5 <- token line 5 ;;
  t6 <- token line 6 ;;
  let current :=
    {| white := Py.drop_first t3; black := Py.drop_last2 t5;
       result := result_to_score t6 |} in
  modify (fun rs => set_games (<[round_ := current]> (games rs)) rs) ;;
  let i := result current in
  if round_ mod 2 =? 0 then
    (if negb (i =? -1) then trinomial_add (2 - i) 1 else ret tt) ;;
    ret (round_ - 1, round_)
  else
    (if negb (i =? -1) then trinomial_add i 1 else ret tt) ;;
    ret (round_, round_ + 1).

(** Lines 248-261: the pairing of an odd round with its replay. *)
Definition pair_games (odd even : Z) : St rounds_t unit :=
  rs <- get ;;
  if bool_decide (is_Some (games rs !! odd)) && bool_decide (is_Some (games rs !! even))
  then
    o <- get_round odd ;;
    e <- get_round even ;;
    assert (String.eqb (Py.take 3 (white o)) "New") ;;
    assert (String.eqb (white o) (black e)) ;;
    assert (String.eqb (black o) (white e)) ;;
    let i := result o in
    let j := result e in
    if negb (i =? -1) && negb (j =? -1) then
      pentanomial_add (i + 2 - j) 1 ;;
      modify (fun rs => set_games (delete odd (games rs)) rs) ;;
      modify (fun rs => set_games (delete even (games rs)) rs) ;;
      trinomial_add i (-1) ;;
      trinomial_add (2 - j) (-1) ;;
      t <- get_trinomial ;;
      ti <- or_raise IndexError (Py.index t i) ;;
      assert (0 <=? ti) ;;
      t <- get_trinomial ;;
      tj <- or_raise IndexError (Py.index t (2 - j)) ;;
      assert (0 <=? tj)
    else ret tt
  else ret tt.

(** Lines 224-227: the two counters are created on the first call. *)
Definition init_rounds : St rounds_t unit :=
  rs <- get ;;
  (if pentanomial rs is None then modify (set_pentanomial (replicate 5 0)) else ret tt) ;;
  rs <- get ;;
  (if trinomial rs is None then modify (set_trinomial (replicate 3 0)) else ret tt).

(** Line 262: [[rounds['pentanomial'][i]+old_stats['pentanomial'][i] for i in range(0,5)]]. *)
Definition cumulative_pentanomial (old_pentanomial : list Z) : St rounds_t (list Z) :=
  comprehension [0; 1; 2; 3; 4]
    (fun i =>
       p <- get_pentanomial ;;
       a <- or_raise IndexError (Py.index p i) ;;
       b <- or_raise IndexError (Py.index old_pentanomial i) ;;
       ret (a + b)).

(** [update_pentanomial(line, rounds)]; [old_pentanomial] is
    [old_stats['pentanomial']]. *)
Definition update_pentanomial (old_pentanomial : list Z) (line : string)
  : St rounds_t (list Z) :=
  init_rounds ;;
  let line := Py.split_ws line in
  b <- is_finished_game line ;;
  (if b then
     oe <- store_game line ;;
     pair_games (fst oe) (snd oe)
   else ret tt) ;;
  cumulative_pentanomial old_pentanomial.

(** The accumulator over the lines of one batch, as [run_game] drives it:
    the first exception ends the batch and leaves [rounds] as it is. *)
Definition feed (old_pentanomial : list Z) (lines : list string) : St rounds_t unit :=
  for_each lines (fun l => _ <- update_pentanomial old_pentanomial l ;; ret tt).

(** A line whose game is folded into the counters: a [Finished game] line
    with a round number and a known result. *)
Definition scored_game (line : string) : bool :=
  match Py.split_ws line with
  | t0 :: t1 :: t2 :: _ :: _ :: _ :: t6 :: _ =>
      String.eqb t0 "Finished" && String.eqb t1 "game" &&
      bool_decide (is_Some (Py.int t2)) && negb (result_to_score t6 =? -1)
  | _ => false
  end.

(** The number of games folded in while [feed] runs over [lines]; the
    line that raises, if any, is the last one counted. *)
Fixpoint folded_games (old_pentanomial : list Z) (lines : list string)
  (rs : rounds_t) : Z :=
  match lines with
  | [] => 0
  | l :: ls =>
      (if scored_game l then 1 else 0) +
      match update_pentanomial old_pentanomial l rs with
      | (rs', Ret _) => folded_games old_pentanomial ls rs'
      | (_, Raise _) => 0
      end
  end.

(** The entry of [trinomial] in which a stored record is counted. *)
Definition bucket (r : Z) (g : RoundRecord) : option Z :=
  if result g =? -1 then None
  else Some (if r mod 2 =? 0 then 2 - result g else result g).

(** The number of stored records counted in entry [k]. *)
Definition load (k : Z) (g : gmap Z RoundRecord) : nat :=
  size (filter (fun p : Z * RoundRecord => bucket p.1 p.2 = Some k) g).

Definition known_results (g : gmap Z RoundRecord) : Prop :=
  forall r rec, g !! r = Some rec -> -1 <= result rec <= 2.

(** The invariant of the accumulator after [n] folded games. *)
Definition consistent (rs : rounds_t) (n : Z) : Prop :=
  exists p t,
    pentanomial rs = Some p /\ trinomial rs = Some t /\
    length p = 5%nat /\ length t = 3%nat /\
    known_results (games rs) /\
    (forall k v, t !! k = Some v -> Z.of_nat (load (Z.of_nat k) (games rs)) <= v) /\
    Py.sum t + 2 * Py.sum p = n.

Definition with_defaults (rs : rounds_t) : rounds_t :=
  {| pentanomial := Some (default (replicate 5 0) (pentanomial rs));
     trinomial := Some (default (replicate 3 0) (trinomial rs));
     games := games rs |}.

Definition indicator (o : option Z) (k : Z) : nat :=
  if decide (o = Some k) then 1%nat else 0%nat.

(** [i / 2.0] for an index [i]. *)
Definition half (i : nat) : Q := (Z.of_nat i # 2)%Q.

(** [sum([results[i] * (i / 2.0) for i in range(0, len(results))])],
    the list being read from index [i] on. *)
Fixpoint results_to_score_from (i : nat) (results : list Z) : Q :=
  match results with
  | [] => 0%Q
  | r :: rest => (inject_Z r * half i + results_to_score_from (S i) rest)%Q
  end.

Definition results_to_score (results : list Z) : Q :=
  results_to_score_from 0 results.

Definition epsilon : Q := (1 # 10000)%Q.

Definition Qltb (x y : Q) : bool := negb (Qle_bool y x).

(** [validate_pentanomial(wld, rounds)] with [wld = [W, L, D]]. *)
Definition validate_pentanomial (wld : Z * Z * Z) : St rounds_t unit :=
  let '(W, L, D) := wld in
  let LDW := [L; D; W] in
  let s3 := results_to_score LDW in
  p <- get_pentanomial ;;
  t <- get_trinomial ;;
  let s5 := (results_to_score p + results_to_score t)%Q in
  p <- get_pentanomial ;;
  t <- get_trinomial ;;
  assert (Py.sum LDW =? 2 * Py.sum p + Py.sum t) ;;
  assert (Qltb (Qabs (s5 - s3)) epsilon).

(** [l[k] += d] for an index in range. *)
Definition entry_add (k d : Z) (l : list Z) : list Z :=
  <[Z.to_nat k := l !!! Z.to_nat k + d]> l.

(** The record that a [Finished game] line stores. *)
Definition record_of (t3 t5 t6 : string) : RoundRecord :=
  {| white := Py.drop_first t3; black := Py.drop_last2 t5;
     result := result_to_score t6 |}.

(** [rounds] after lines 232-247 for round [r] and record [cur]. *)
Definition stored (r : Z) (cur : RoundRecord) (rs : rounds_t) : rounds_t :=
  {| pentanomial := pentanomial rs;
     trinomial :=
       match bucket r cur with
       | Some k => entry_add k 1 <$> trinomial rs
       | None => trinomial rs
       end;
     games := <[r := cur]> (games rs) |}.

(** The three assertions of lines 249-251. *)
Definition pairing_identity (o e : RoundRecord) : bool :=
  String.eqb (Py.take 3 (white o)) "New" &&
  String.eqb (white o) (black e) && String.eqb (black o) (white e).

(** [rounds] after lines 255-259 for the pair [o], [e]. *)
Definition paired (odd even : Z) (o e : RoundRecord) (rs : rounds_t) : rounds_t :=
  {| pentanomial := entry_add (result o + 2 - result e) 1 <$> pentanomial rs;
     trinomial :=
       (fun t => entry_add (2 - result e) (-1) (entry_add (result o) (-1) t))
         <$> trinomial rs;
     games := delete even (delete odd (games rs)) |}.

(** The odd and the even round of the pair of round [r] (lines 238-247). *)
Definition pair_of (r : Z) : Z * Z :=
  if r mod 2 =? 0 then (r - 1, r) else (r, r + 1).

(** ** [adjust_tc] *)

(** Lines 171-187: the time control in cutechess format, parsed to
    [increment], [num_moves] and [time_tc]. *)
Definition parse_tc {S} (tc : string) : St S (Py.binary64 * Z * Py.binary64) :=
  let chunks := Py.split "+" tc in
  increment <- (if (length chunks =? 2)%nat
                then c <- token chunks 1 ;; or_raise ValueError (Py.float c)
                else ret (Py.of_Z 0)) ;;
  c0 <- token chunks 0 ;;
  let chunks := Py.split "/" c0 in
  num_moves <- (if (length chunks =? 2)%nat
                then c <- token chunks 0 ;; or_raise ValueError (Py.int c)
                else ret 0) ;;
  time_tc <- token chunks (-1) ;;
  let chunks := Py.split ":" time_tc in
  time_tc <- (if (length chunks =? 2)%nat
              then c <- token chunks 0 ;;
                   minutes <- or_raise ValueError (Py.float c) ;;
                   c <- token chunks 1 ;;
                   seconds <- or_raise ValueError (Py.float c) ;;
                   ret (Py.fadd (Py.fmul minutes (Py.of_Z 60)) seconds)
              else c <- token chunks 0 ;; or_raise ValueError (Py.float c)) ;;
  ret (increment, num_moves, time_tc).

(** Lines 189-197: the scaled time control and the limit.  Every
    product and sum is rounded to a float as it is formed; the [int]
    operands 3 and 200 are converted exactly, and [num_moves] is
    converted for [100.0 / num_moves], which fails for an [int] beyond
    the floats. *)
Definition rebuild_tc {S} (factor increment : Py.binary64) (num_moves : Z)
  (time_tc : Py.binary64) : St S (string * Py.binary64) :=
  let scaled_tc := Py.fmt_3f (Py.fmul time_tc factor) in
  let tc_limit := Py.fmul (Py.fmul time_tc factor) (Py.of_Z 3) in
  let '(scaled_tc, tc_limit) :=
    if Py.flt (Py.of_Z 0) increment
    then (scaled_tc ++ "+" ++ Py.fmt_3f (Py.fmul increment factor),
          Py.fadd tc_limit (Py.fmul (Py.fmul increment factor) (Py.of_Z 200)))
    else (scaled_tc, tc_limit) in
  if 0 <? num_moves
  then
    let scaled_tc := Py.fmt_d num_moves ++ "/" ++ scaled_tc in
    moves <- or_raise OverflowError (Py.to_float num_moves) ;;
    ret (scaled_tc, Py.fmul tc_limit (Py.fdiv (Py.of_Z 100) moves))
  else ret (scaled_tc, tc_limit).

(** [adjust_tc(tc, base_nps, concurrency)]; the two prints are left out.
    The quotient [1600000.0 / base_nps] is formed before the speed test,
    as in the source. *)
Definition adjust_tc {S} (tc : string) (base_nps : Py.binary64) (concurrency : Z)
  : St S (string * Py.binary64) :=
  factor <- or_raise ZeroDivisionError (Py.truediv (Py.of_Z 1600000) base_nps) ;;
  (if Py.flt base_nps (Py.of_Z 700000) then raise (SystemExit 1) else ret tt) ;;
  parsed <- parse_tc tc ;;
  let '(increment, num_moves, time_tc) := parsed in
  rebuild_tc factor increment num_moves time_tc.

(** ** Effects on the outside world *)

(** What the worker does to the engines, the match runner and the
    coordinator, in the order in which it does it. *)
Inductive action : Type :=
| SpawnBusy (threads : Z)
| QuitBusy
| RunBench (engine : string)
| PostStopRun (message : string)
| PostRequestSpsa
| PostUpdateTask (s : stats)
| Spawn (cmd : list string)
| KillProcess
| Sleep (seconds : Q).

(** ** [verify_signature] *)

(** One run of [engine bench]: the lines of its standard error, its
    return code, and the exception, if any, with which the request to
    [/api/stop_run] fails. *)
Record bench_run : Type := {
  bench_stderr : list string;
  bench_returncode : Z;
  stop_run_failure : option exn
}.

(** [os.path.basename] for [/]-separated paths. *)
Definition basename (path : string) : string :=
  List.last (Py.split "/" path) "".

(** [line.split(': ')[1].strip()]. *)
Definition field_value (line : string) : res string :=
  match Py.index (Py.split ": " line) 1 with
  | Some v => Ret (Py.strip v)
  | None => Raise IndexError
  end.

(** Lines 78-82: the loop over the lines of the bench; it touches no
    state, and [bench_nps] is unbound until a line sets it. *)
Fixpoint scan_bench (lines : list string) (bench_sig : string)
  (bench_nps : option Py.binary64) : res (string * option Py.binary64) :=
  match lines with
  | [] => Ret (bench_sig, bench_nps)
  | line :: rest =>
      match (if Py.contains "Nodes searched" line
             then field_value line else Ret bench_sig) with
      | Raise e => Raise e
      | Ret bench_sig =>
          match (if Py.contains "Nodes/second" line
                 then match field_value line with
                      | Ret v =>
                          match Py.float v with
                          | Some x => Ret (Some x)
                          | None => Raise ValueError
                          end
                      | Raise e => Raise e
                      end
                 else Ret bench_nps) with
          | Raise e => Raise e
          | Ret bench_nps => scan_bench rest bench_sig bench_nps
          end
      end
  end.

Definition emit (a : action) : St (list action) unit :=
  modify (fun tr => (tr ++ [a])%list).

Definition wrong_bench (engine signature bench_sig : string) : string :=
  "Wrong bench in " ++ basename engine ++ " Expected: " ++ signature
  ++ " Got: " ++ bench_sig.

(** [verify_signature(engine, signature, remote, payload, concurrency)]. *)
Definition verify_signature (engine signature : string) (concurrency : Z)
  (b : bench_run) : St (list action) Py.binary64 :=
  (if 1 <? concurrency then emit (SpawnBusy (concurrency - 1)) else ret tt) ;;
  bench_nps <-
    try_finally
      (emit (RunBench engine) ;;
       vars <- pure (scan_bench (bench_stderr b) "" None) ;;
       (if negb (bench_returncode b =? 0)
        then raise (Exception_ ("Bench exited with non-zero code "
                                ++ Py.fmt_d (bench_returncode b)))
        else ret tt) ;;
       got <- or_raise ValueError (Py.int (fst vars)) ;;
       expected <- or_raise ValueError (Py.int signature) ;;
       (if negb (got =? expected)
        then
          let message := wrong_bench engine signature (fst vars) in
          emit (PostStopRun message) ;;
          (match stop_run_failure b with
           | Some e => raise e
           | None => ret tt
           end) ;;
          raise (Exception_ message)
        else ret tt) ;;
       ret (snd vars))
      (if 1 <? concurrency then emit QuitBusy else ret tt) ;;
  or_raise (UnboundLocalError "bench_nps") bench_nps.

(** ** [run_game], [launch_cutechess] and the loop of [run_games] *)

(** The [spsa] dictionary of one batch; the three counts are absent
    until a [Score] line sets them. *)
Record spsa_t : Type := {
  num_games : Z;
  spsa_wld : option (Z * Z * Z)
}.

(** The reply to [/api/update_task], and the result of a batch. *)
Record status : Type := { task_alive : bool }.

(** The state of the worker while [run_games] loops: the dictionary
    [rounds] and the counter [num_game_pairs_updated] of the running
    batch, [result['stats']], the [spsa] dictionary, the global
    [old_stats], the variable [games_remaining], the number of requests
    to [/api/update_task] of the running batch, and what was done to the
    outside so far. *)
Record world : Type := {
  rounds : rounds_t;
  result_stats : stats;
  spsa : spsa_t;
  num_game_pairs_updated : Z;
  old_stats : stats;
  games_remaining : Z;
  posts : nat;
  trace : list action
}.

Definition set_rounds (x : rounds_t) (w : world) : world :=
  {| rounds := x; result_stats := result_stats w; spsa := spsa w;
     num_game_pairs_updated := num_game_pairs_updated w;
     old_stats := old_stats w; games_remaining := games_remaining w;
     posts := posts w; trace := trace w |}.
Definition set_result_stats (x : stats) (w : world) : world :=
  {| rounds := rounds w; result_stats := x; spsa := spsa w;
     num_game_pairs_updated := num_game_pairs_updated w;
     old_stats := old_stats w; games_remaining := games_remaining w;
     posts := posts w; trace := trace w |}.
Definition set_spsa (x : spsa_t) (w : world) : world :=
  {| rounds := rounds w; result_stats := result_stats w; spsa := x;
     num_game_pairs_updated := num_game_pairs_updated w;
     old_stats := old_stats w; games_remaining := games_remaining w;
     posts := posts w; trace := trace w |}.
Definition set_num_game_pairs_updated (x : Z) (w : world) : world :=
  {| rounds := rounds w; result_stats := result_stats w; spsa := spsa w;
     num_game_pairs_updated := x;
     old_stats := old_stats w; games_remaining := games_remaining w;
     posts := posts w; trace := trace w |}.
Definition set_old_stats (x : stats) (w : world) : world :=
  {| rounds := rounds w; result_stats := result_stats w; spsa := spsa w;
     num_game_pairs_updated := num_game_pairs_updated w;
     old_stats := x; games_remaining := games_remaining w;
     posts := posts w; trace := trace w |}.
Definition set_games_remaining (x : Z) (w : world) : world :=
  {| rounds := rounds w; result_stats := result_stats w; spsa := spsa w;
     num_game_pairs_updated := num_game_pairs_updated w;
     old_stats := old_stats w; games_remaining := x;
     posts := posts w; trace := trace w |}.
Definition set_posts (x : nat) (w : world) : world :=
  {| rounds := rounds w; result_stats := result_stats w; spsa := spsa w;
     num_game_pairs_updated := num_game_pairs_updated w;
     old_stats := old_stats w; games_remaining := games_remaining w;
     posts := x; trace := trace w |}.
Definition set_trace (x : list action) (w : world) : world :=
  {| rounds := rounds w; result_stats := result_stats w; spsa := spsa w;
     num_game_pairs_updated := num_game_pairs_updated w;
     old_stats := old_stats w; games_remaining := games_remaining w;
     posts := posts w; trace := x |}.

Definition set_wld (w l d : Z) (s : stats) : stats :=
  {| wins := w; losses := l; draws := d; crashes := crashes s;
     time_losses := time_losses s; stats_pentanomial := stats_pentanomial s |}.
Definition set_crashes (x : Z) (s : stats) : stats :=
  {| wins := wins s; losses := losses s; draws := draws s; crashes := x;
     time_losses := time_losses s; stats_pentanomial := stats_pentanomial s |}.
Definition set_time_losses (x : Z) (s : stats) : stats :=
  {| wins := wins s; losses := losses s; draws := draws s; crashes := crashes s;
     time_losses := x; stats_pentanomial := stats_pentanomial s |}.
Definition set_stats_pentanomial (x : list Z) (s : stats) : stats :=
  {| wins := wins s; losses := losses s; draws := draws s; crashes := crashes s;
     time_losses := time_losses s; stats_pentanomial := x |}.

(** A computation on [rounds] run inside the worker. *)
Definition on_rounds {A} (m : St rounds_t A) : St world A :=
  fun w => match m (rounds w) with (rs, r) => (set_rounds rs w, r) end.

Definition perform (a : action) : St world unit :=
  modify (fun w => set_trace (trace w ++ [a])%list w).

(** [kill_process(p)]: failures are printed, never raised. *)
Definition kill_process : St world unit := perform KillProcess.

Definition HTTP_TIMEOUT : Q := 15.

(** What one request to [/api/update_task] comes to: a decoded reply, or
    an exception (of the request, of the decoding, or of the lookup of
    ['task_alive']). *)
Inductive reply : Type :=
| Reply (response : status)
| Failed (e : exn).

(** What one turn of the loop of [run_game] finds: a line of the match
    runner, or an empty queue together with [p.poll()]. *)
Inductive tick : Type :=
| Line (line : string)
| Empty (poll : option Z).

(** The outside of one batch: the turns of the loop that begin before
    [end_time], the reply to the n-th request to [/api/update_task], the
    reply to [/api/request_spsa], and the command assembled for the
    batch (lines 566-574). *)
Record batch_env : Type := {
  ticks : list tick;
  replies : nat -> reply;
  request_spsa : res (list (string * Q) * list (string * Q));
  command : list string
}.

Inductive flow : Type :=
| Next
| Break
| Return (s : status).

Inductive attempt_end : Type :=
| Succeeded
| Cancelled (response : status)
| Exhausted.

(** [send_api_post_request(remote + '/api/update_task', result).json()]. *)
Definition post_update_task (replies : nat -> reply) : St world reply :=
  w <- get ;;
  perform (PostUpdateTask (result_stats w)) ;;
  modify (fun w => set_posts (S (posts w)) w) ;;
  ret (replies (posts w)).

(** Lines 341-357: [for _ in range(0, n)]. *)
Fixpoint update_attempts (replies : nat -> reply) (n : nat) : St world attempt_end :=
  match n with
  | O => ret Exhausted
  | S n' =>
      r <- post_update_task replies ;;
      match r with
      | Reply response =>
          if negb (task_alive response)
          then kill_process ;; ret (Cancelled response)
          else ret Succeeded
      | Failed e =>
          if is_Exception e
          then perform (Sleep HTTP_TIMEOUT) ;; update_attempts replies n'
          else raise e
      end
  end.

(** Lines 336-362: the report after a game pair has finished. *)
Definition report (replies : nat -> reply) : St world flow :=
  p <- on_rounds get_pentanomial ;;
  let num_game_pairs_finished := Py.sum p in
  w <- get ;;
  if num_game_pairs_updated w <? num_game_pairs_finished then
    r <- update_attempts replies 5 ;;
    match r with
    | Cancelled response => ret (Return response)
    | Exhausted => kill_process ;; ret Break
    | Succeeded =>
        modify (set_num_game_pairs_updated num_game_pairs_finished) ;; ret Next
    end
  else ret Next.

(** Lines 318-320: the three counts of a [Score] line; no state is
    touched. *)
Definition parse_score (line : string) : res (Z * Z * Z) :=
  match Py.index (Py.split ":" line) 1 with
  | None => Raise IndexError
  | Some c =>
      let chunks := Py.split_ws c in
      match Py.index chunks 0 with
      | None => Raise IndexError
      | Some c0 =>
          match Py.int c0 with
          | None => Raise ValueError
          | Some W =>
              match Py.index chunks 2 with
              | None => Raise IndexError
              | Some c2 =>
                  match Py.int c2 with
                  | None => Raise ValueError
                  | Some L =>
                      match Py.index chunks 4 with
                      | None => Raise IndexError
                      | Some c4 =>
                          match Py.int c4 with
                          | None => Raise ValueError
                          | Some D => Ret (W, L, D)
                          end
                      end
                  end
              end
          end
      end
  end.

(** Lines 324-334: the counts of the report. *)
Definition record_score (spsa_tuning : bool) (wld : Z * Z * Z) : St world unit :=
  let '(W, L, D) := wld in
  if negb spsa_tuning then
    t <- on_rounds get_trinomial ;;
    t2 <- or_raise IndexError (Py.index t 2) ;;
    t0 <- or_raise IndexError (Py.index t 0) ;;
    t1 <- or_raise IndexError (Py.index t 1) ;;
    modify (fun w =>
      set_result_stats
        (set_wld (W - t2 + wins (old_stats w)) (L - t0 + losses (old_stats w))
                 (D - t1 + draws (old_stats w)) (result_stats w)) w)
  else
    modify (fun w =>
      set_result_stats
        (set_wld (W + wins (old_stats w)) (L + losses (old_stats w))
                 (D + draws (old_stats w)) (result_stats w)) w) ;;
    modify (fun w =>
      set_spsa {| num_games := num_games (spsa w); spsa_wld := Some (W, L, D) |} w).

(** Lines 317-362. *)
Definition score_block (spsa_tuning : bool) (replies : nat -> reply)
  (line : string) : St world flow :=
  wld <- pure (parse_score line) ;;
  on_rounds (validate_pentanomial wld) ;;
  record_score spsa_tuning wld ;;
  report replies.

(** Lines 309-313: crashes and time losses. *)
Definition count_faults (line : string) : St world unit :=
  (if Py.contains "disconnects" line || Py.contains "connection stalls" line
   then modify (fun w =>
          set_result_stats (set_crashes (crashes (result_stats w) + 1) (result_stats w)) w)
   else ret tt) ;;
  (if Py.contains "on time" line
   then modify (fun w =>
          set_result_stats
            (set_time_losses (time_losses (result_stats w) + 1) (result_stats w)) w)
   else ret tt).

(** Lines 298-365: the body of the loop for a line taken from the queue. *)
Definition handle_line (spsa_tuning : bool) (replies : nat -> reply)
  (line : string) : St world flow :=
  if Py.contains "Finished match" line then
    kill_process ;; ret (Return {| task_alive := true |})
  else
    count_faults line ;;
    f <- (if Py.contains "Score" line
          then score_block spsa_tuning replies line else ret Next) ;;
    match f with
    | Next =>
        w <- get ;;
        pentanomial <-
          on_rounds (update_pentanomial (stats_pentanomial (old_stats w)) line) ;;
        modify (fun w =>
          set_result_stats (set_stats_pentanomial pentanomial (result_stats w)) w) ;;
        ret Next
    | _ => ret f
    end.

(** [if p.poll(): break]. *)
Definition truthy (poll : option Z) : bool :=
  match poll with
  | Some rc => negb (rc =? 0)
  | None => false
  end.

(** One turn of the loop of [run_game]. *)
Definition tick_step (spsa_tuning : bool) (replies : nat -> reply) (t : tick)
  : St world flow :=
  match t with
  | Line line => handle_line spsa_tuning replies line
  | Empty poll =>
      if truthy poll then ret Break else perform (Sleep 1) ;; ret Next
  end.

(** Lines 367-371: after the loop. *)
Definition after_loop : St world status :=
  kill_process ;; ret {| task_alive := true |}.

(** Lines 289-371: the loop; when the turns are used up the deadline has
    passed. *)
Fixpoint run_loop (spsa_tuning : bool) (replies : nat -> reply)
  (ts : list tick) : St world status :=
  match ts with
  | [] => after_loop
  | t :: ts' =>
      f <- tick_step spsa_tuning replies t ;;
      match f with
      | Next => run_loop spsa_tuning replies ts'
      | Break => after_loop
      | Return s => ret s
      end
  end.

(** Lines 278 and 288: the variables of a fresh batch. *)
Definition start_batch (w : world) : world :=
  set_posts 0 (set_num_game_pairs_updated 0 (set_rounds empty_rounds w)).

(** [run_game(p, remote, result, spsa, spsa_tuning, tc_limit)]. *)
Definition run_game (spsa_tuning : bool) (env : batch_env) : St world status :=
  modify start_batch ;;
  run_loop spsa_tuning (replies env) (ticks env).

(** [cmd[:idx] + opts + cmd[idx+1:]] with [idx = cmd.index('_spsa_')];
    [None] stands for the [ValueError] of [index]. *)
Fixpoint substitute (cmd opts : list string) : option (list string) :=
  match cmd with
  | [] => None
  | c :: rest =>
      if String.eqb c "_spsa_" then Some (opts ++ rest)%list
      else (fun r => c :: r) <$> substitute rest opts
  end.

(** ['option.%s=%d' % (x['name'], round(x['value']))], with the rounding
    of Python 3. *)
Definition spsa_option (x : string * Q) : string :=
  "option." ++ fst x ++ "=" ++ Py.fmt_d (Py.round_half_even (snd x)).

(** Lines 374-402: the parameters are fetched and substituted, and the
    match runner is started. *)
Definition launch_preamble (cmd : list string) (spsa_tuning : bool)
  (games_to_play : Z) (env : batch_env) : St world unit :=
  modify (set_spsa {| num_games := games_to_play; spsa_wld := None |}) ;;
  params <- (if spsa_tuning
             then perform PostRequestSpsa ;; pure (request_spsa env)
             else ret ([], [])) ;;
  cmd <- or_raise ValueError (substitute cmd (map spsa_option (fst params))) ;;
  cmd <- or_raise ValueError (substitute cmd (map spsa_option (snd params))) ;;
  perform (Spawn cmd).

(** [launch_cutechess(cmd, remote, result, spsa_tuning, games_to_play, tc_limit)]. *)
Definition launch_cutechess (cmd : list string) (spsa_tuning : bool)
  (games_to_play : Z) (env : batch_env) : St world status :=
  launch_preamble cmd spsa_tuning games_to_play env ;;
  try_except (run_game spsa_tuning env)
    (fun _ => kill_process ;; ret {| task_alive := false |}).

Inductive loop_end : Type :=
| Finished
| Starved.

(** Lines 564-582: the loop of [run_games]; [Starved] tells that the
    list of batches ended before the loop did. *)
Fixpoint run_batches (spsa_tuning : bool) (games_to_play : Z)
  (envs : list batch_env) (w : world) : world * res loop_end :=
  if 0 <? games_remaining w then
    match envs with
    | [] => (w, Ret Starved)
    | env :: envs' =>
        match launch_cutechess (command env) spsa_tuning games_to_play env w with
        | (w', Ret task_status) =>
            if negb (task_alive task_status) then (w', Ret Finished)
            else
              run_batches spsa_tuning games_to_play envs'
                (set_games_remaining (games_remaining w' - games_to_play)
                   (set_old_stats (result_stats w') w'))
        | (w', Raise e) => (w', Raise e)
        end
    end
  else (w, Ret Finished).

Definition zero_stats : stats :=
  {| wins := 0; losses := 0; draws := 0; crashes := 0; time_losses := 0;
     stats_pentanomial := replicate 5 0 |}.

(** Lines 418-433: the state that [run_games] sets up, for the stats of
    the task and its number of games. *)
Definition initial_world (task_stats : stats) (task_num_games : Z) : world :=
  {| rounds := empty_rounds;
     result_stats := set_time_losses (time_losses task_stats)
                       (set_crashes (crashes task_stats) zero_stats);
     spsa := {| num_games := 0; spsa_wld := None |};
     num_game_pairs_updated := 0;
     old_stats := task_stats;
     games_remaining :=
       task_num_games - (wins task_stats + losses task_stats + draws task_stats);
     posts := 0;
     trace := [] |}.

(** Lines 418-435: [run_games] begins in that state, and refuses a task
    that has no game left. *)
Definition begin_run_games (task_stats : stats) (task_num_games : Z) : res world :=
  let w := initial_world task_stats task_num_games in
  if games_remaining w <=? 0 then Raise (Exception_ "No games remaining")
  else Ret w.

(** The state in which the report for a [Score] line with the counts
    [wld] is sent, when the line is taken in the state [w]. *)
Definition before_report (spsa_tuning : bool) (wld : Z * Z * Z) (line : string)
  (w : world) : world :=
  fst (record_score spsa_tuning wld (fst (count_faults line w))).

(** The turns [ts] all pass and leave the loop running in the state
    returned. *)
Fixpoint advance (spsa_tuning : bool) (replies : nat -> reply)
  (ts : list tick) (w : world) : option world :=
  match ts with
  | [] => Some w
  | t :: ts' =>
      match tick_step spsa_tuning replies t w with
      | (w', Ret Next) => advance spsa_tuning replies ts' w'
      | _ => None
      end
  end.

(** What [n] failed attempts to send the stats [s] leave in the trace. *)
Definition failed_attempts (n : nat) (s : stats) : list action :=
  concat (replicate n [PostUpdateTask s; Sleep HTTP_TIMEOUT]).

(** A turn that finds the queue empty and the match runner alive (or
    ended with code 0). *)
Definition idle (t : tick) : bool :=
  match t with
  | Empty poll => negb (truthy poll)
  | Line _ => false
  end.

(** The batch has processed no line yet: only the two counters may be
    missing from [rounds]. *)
Definition rounds_ok (rs : rounds_t) : Prop :=
  rs = empty_rounds \/ exists n, consistent rs n.

(** ** Well-formed time controls *)

(** The forms ["moves/time+increment"], ["moves/time"],
    ["time+increment"] and ["time"] of the specification, [time] being
    seconds or [mm:ss]. *)
Record tc_form : Type := {
  tc_moves : option string;
  tc_minutes : option string;
  tc_seconds : string;
  tc_increment : option string
}.

Definition render_tc (f : tc_form) : string :=
  match tc_moves f with Some m => m ++ "/" | None => "" end ++
  match tc_minutes f with Some mm => mm ++ ":" | None => "" end ++
  tc_seconds f ++
  match tc_increment f with Some i => "+" ++ i | None => "" end.

(** [c not in s]. *)
Fixpoint lacks (c : ascii) (s : string) : bool :=
  match s with
  | EmptyString => true
  | String x s' => if ascii_dec c x then false else lacks c s'
  end.

Definition separator_free (s : string) : bool :=
  lacks "+" s && lacks "/" s && lacks ":" s.

Definition parts_separator_free (f : tc_form) : bool :=
  from_option separator_free true (tc_moves f) &&
  from_option separator_free true (tc_minutes f) &&
  separator_free (tc_seconds f) &&
  from_option separator_free true (tc_increment f).

(** The numbers a form denotes: the moves count (0 when absent), the
    time in seconds and the increment (0 when absent). *)
Definition tc_values (f : tc_form) : option (Z * Py.binary64 * Py.binary64) :=
  match
    match tc_moves f with Some m => Py.int m | None => Some 0 end,
    match tc_minutes f with
    | Some mm =>
        match Py.float mm, Py.float (tc_seconds f) with
        | Some a, Some b => Some (Py.fadd (Py.fmul a (Py.of_Z 60)) b)
        | _, _ => None
        end
    | None => Py.float (tc_seconds f)
    end,
    match tc_increment f with Some i => Py.float i | None => Some (Py.of_Z 0) end
  with
  | Some mv, Some t, Some inc => Some (mv, t, inc)
  | _, _, _ => None
  end.

(** The part of a rendered form before the increment, and its time. *)
Definition time_part (f : tc_form) : string :=
  match tc_minutes f with Some mm => mm ++ ":" | None => "" end ++ tc_seconds f.

Definition head_part (f : tc_form) : string :=
  match tc_moves f with Some m => m ++ "/" | None => "" end ++ time_part f.

(** ** Sample runs of the bench *)

Definition bench_ok : bench_run :=
  {| bench_stderr :=
       ["==========================="; "Total time (ms) : 2270";
        "Nodes searched  : 5290994"; "Nodes/second    : 2330834"];
     bench_returncode := 0;
     stop_run_failure := None |}.

Definition bench_crashed : bench_run :=
  {| bench_stderr := bench_stderr bench_ok;
     bench_returncode := 1;
     stop_run_failure := None |}.

(** ** Sample lines of the match runner *)

Definition game1_line : string :=
  "Finished game 1 (New-abc vs Base-xyz): 1/2-1/2 {Draw by adjudication}".
Definition game2_line : string :=
  "Finished game 2 (Base-xyz vs New-abc): 1-0 {White mates}".
Definition after_game1 : rounds_t :=
  {| pentanomial := Some [0; 0; 0; 0; 0];
     trinomial := Some [0; 1; 0];
     games := {[ 1 := {| white := "New-abc"; black := "Base-xyz"; result := 1 |} ]} |}.
Definition swapped1_line : string :=
  "Finished game 1 (Base-xyz vs New-abc): 1/2-1/2 {Draw by adjudication}".
Definition swapped2_line : string :=
  "Finished game 2 (New-abc vs Base-xyz): 1-0 {White mates}".

(** ** The two scores as the specification words them *)

(** The sum of [results[k] * (k / den)] over the indices [k] of
    [results], counted from [i]. *)
Fixpoint weighted_from (den : positive) (i : nat) (results : list Z) : Q :=
  match results with
  | [] => 0%Q
  | r :: rest =>
      (inject_Z r * (Z.of_nat i # den) + weighted_from den (S i) rest)%Q
  end.

Definition weighted (den : positive) (results : list Z) : Q :=
  weighted_from den 0 results.

(** [score3] of the specification: the sum of [LDW[k] * (k/2)]. *)
Definition spec_score3 (W L D : Z) : Q := weighted 2 [L; D; W].

(** [score5] of the specification: the sum of [pentanomial[k] * (k/4)]
    plus the sum of [trinomial[k] * (k/2)]. *)
Definition spec_score5 (p t : list Z) : Q := (weighted 4 p + weighted 2 t)%Q.

(** What the source computes for [s5]: both lists are weighted by
    [k/2]. *)
Definition code_score5 (p t : list Z) : Q := (weighted 2 p + weighted 2 t)%Q.

Definition counters (p t : list Z) (g : gmap Z RoundRecord) : rounds_t :=
  {| pentanomial := Some p; trinomial := Some t; games := g |}.

(** ** Predicates and samples for the batch loop *)

Definition all_fail (replies : nat -> reply) (from n : nat) : Prop :=
  forall k, (k < n)%nat ->
    exists e, replies (from + k)%nat = Failed e /\ is_Exception e = true.

(** Computations of the worker that leave a component of the state as
    it is. *)
Definition keeps {X A} (proj : world -> X) (m : St world A) : Prop :=
  forall w, proj (fst (m w)) = proj w.

(** [old_stats] and [games_remaining], which only [run_games] assigns. *)
Definition baseline (w : world) : stats * Z := (old_stats w, games_remaining w).

Definition score_line : string :=
  "Score of New-abc vs Base-xyz: 0 - 1 - 1  [0.250] 2".

Definition sample_command : list string :=
  ["cutechess-cli"; "-repeat"; "-engine"; "name=New-abc"; "_spsa_";
   "-engine"; "name=Base-xyz"; "_spsa_"; "-each"; "proto=uci"].

(** A batch in which every request to [/api/update_task] fails. *)
Definition failing_env : batch_env :=
  {| ticks := [Line game1_line; Line game2_line; Line score_line; Line game1_line];
     replies := fun _ => Failed RequestException;
     request_spsa := Raise RequestException;
     command := sample_command |}.

(** A batch in which the third request is answered with
    [task_alive = false]. *)
Definition cancelling_env : batch_env :=
  {| ticks := [Line game1_line; Line game2_line; Line score_line; Line game1_line];
     replies := fun n =>
       match n with
       | 2%nat => Reply {| task_alive := false |}
       | _ => Failed RequestException
       end;
     request_spsa := Raise RequestException;
     command := sample_command |}.

(** A batch whose first line is a [Score] line. *)
Definition score_first_env : batch_env :=
  {| ticks := [Empty None; Line score_line; Line game1_line];
     replies := fun _ => Reply {| task_alive := true |};
     request_spsa := Raise RequestException;
     command := sample_command |}.

(** A task of 10 games of which none was played. *)
Definition sample_start : world := initial_world zero_stats 10.

(** * The rest of the worker *)

(** ** More built-ins on strings *)

Module PyStr.

(** [s.replace(old, new)] for a non-empty [old]: the occurrences are
    taken from left to right and do not overlap; [skip] counts the
    characters of an occurrence that are still to be dropped. *)
Fixpoint replace_aux (old new : string) (skip : nat) (s : string) : string :=
  match s with
  | EmptyString => ""
  | String c s' =>
      match skip with
      | S k => replace_aux old new k s'
      | O =>
          if String.prefix old s
          then new ++ replace_aux old new (String.length old - 1) s'
          else String c (replace_aux old new 0 s')
      end
  end.

Definition replace (old new s : string) : string := replace_aux old new 0 s.

(** [sep.join(l)]. *)
Fixpoint join (sep : string) (l : list string) : string :=
  match l with
  | [] => ""
  | [x] => x
  | x :: rest => x ++ sep ++ join sep rest
  end.

(** [s.endswith(p)]. *)
Definition endswith (p s : string) : bool :=
  (String.length p <=? String.length s)%nat &&
  String.eqb (String.substring (String.length s - String.length p) (String.length p) s) p.

End PyStr.

(** ** [github_api] *)

Definition REPO_URL : string := "https://github.com/official-stockfish/books".

(** [repo.replace('https://github.com', 'https://api.github.com/repos')]. *)
Definition github_api (repo : string) : string :=
  PyStr.replace "https://github.com" "https://api.github.com/repos" repo.

(** ** [parse_options] *)

(** Lines 453-456: the loop over [chunks[1:]]; [param] is the name that
    the next value belongs to. *)
Fixpoint parse_options_loop (param : string) (chunks : list string)
  (results : list string) : res (list string) :=
  match chunks with
  | [] => Ret results
  | c :: rest =>
      let val := Py.split_ws c in
      match Py.index val 0 with
      | None => Raise IndexError
      | Some v0 =>
          let entry := "option." ++ param ++ "=" ++ v0 in
          parse_options_loop (PyStr.join " " (drop 1 val)) rest
            (results ++ [entry])%list
      end
  end.

(** [parse_options(s)] of [run_games] (lines 447-457). *)
Definition parse_options (s : string) : res (list string) :=
  let results := [] in
  let chunks := Py.split "=" s in
  if (length chunks =? 0)%nat then Ret results
  else
    match Py.index chunks 0 with
    | None => Raise IndexError
    | Some param => parse_options_loop param (drop 1 chunks) results
    end.

(** An option string as the coordinator writes it: names of one or more
    words, each followed by [=] and a value of one word. *)
Fixpoint plain (s : string) : bool :=
  match s with
  | EmptyString => true
  | String c s' => negb (Py.is_space c) && negb (Ascii.eqb c "=") && plain s'
  end.

Definition is_word (s : string) : bool := negb (String.eqb s "") && plain s.

Definition option_ok (o : list string * string) : bool :=
  negb (bool_decide (fst o = [])) && forallb is_word (fst o) && is_word (snd o).

Definition render_option (o : list string * string) : string :=
  PyStr.join " " (fst o) ++ "=" ++ snd o.

Definition render_options (os : list (list string * string)) : string :=
  PyStr.join " " (map render_option os).

Definition cutechess_option (o : list string * string) : string :=
  "option." ++ PyStr.join " " (fst o) ++ "=" ++ snd o.

(** The text that follows a value: nothing, or a blank and the options
    that are left. *)
Definition options_tail (os : list (list string * string)) : string :=
  match os with [] => "" | _ => " " ++ render_options os end.

(** The chunks between the [=] signs from a value on. *)
Fixpoint chunks_after (v : string) (os : list (list string * string)) : list string :=
  match os with
  | [] => [v]
  | o :: os' => (v ++ " " ++ PyStr.join " " (fst o)) :: chunks_after (snd o) os'
  end.

(** ** The command of a batch *)

(** [run['args']] and [run['_id']], as far as the command needs them;
    [threads] is [int(run['args']['threads'])]. *)
Record run_args : Type := {
  book : string;
  book_depth : string;
  new_options : string;
  base_options : string;
  threads : Z;
  resolved_new : string;
  resolved_base : string;
  new_tag : string;
  base_tag : string;
  run_id : string
}.

(** [str(int(x))] for a float [x]: [int] rounds towards zero. *)
Definition str_int (x : Q) : string := Py.fmt_d (Z.quot (Qnum x) (Zpos (Qden x))).

(** [book[-3:]]. *)
Definition last3 (s : string) : string :=
  String.substring (String.length s - 3) 3 s.

(** Lines 531-539: [pgn_cmd] and [book_cmd]. *)
Definition book_commands (a : run_args) : res (list string * list string) :=
  match Py.int (book_depth a) with
  | None => Raise ValueError
  | Some depth =>
      if depth <=? 0 then Ret ([], [])
      else if PyStr.endswith ".pgn" (book a) || PyStr.endswith ".epd" (book a) then
        let plies := 2 * depth in
        Ret (["-openings"; "file=" ++ book a; "format=" ++ last3 (book a);
              "order=random"; "plies=" ++ Py.fmt_d plies], [])
      else Ret ([], ["book=" ++ book a; "bookdepth=" ++ book_depth a])
  end.

(** Lines 551-559. *)
Definition threads_cmd (a : run_args) (options : list string) : list string :=
  if negb (existsb (Py.contains "Threads") options)
  then ["option.Threads=" ++ Py.fmt_d (threads a)] else [].

Definition nodestime_cmd (options : list string) : list string :=
  if existsb (Py.contains "nodestime") options then ["timemargin=10000"] else [].

(** [run['args'][arg].split(' ')[0]]; a split is never empty. *)
Definition make_player (tag : string) : string := hd "" (Py.split " " tag).

(** Lines 546-549: [pgnout]. *)
Definition pgnout_of (spsa_tuning : bool) (unique_key : string) : list string :=
  if spsa_tuning then [] else ["-pgnout"; "results-" ++ unique_key ++ ".pgn"].

(** Lines 566-574: the pieces of the command that are written out in
    the source. *)
Definition opening_args (cutechess : string) (games_to_play : Q) : list string :=
  [cutechess; "-repeat"; "-rounds"; str_int (games_to_play / 2); "-games"; " 2";
   "-tournament"; "gauntlet"].

Definition site_args (a : run_args) : list string :=
  ["-site"; "https://tests.stockfishchess.org/tests/view/" ++ run_id a].

Definition event_args (a : run_args) (task_id : Z) : list string :=
  ["-event"; "Batch " ++ Py.fmt_d task_id ++ ": " ++ make_player (new_tag a)
             ++ " vs " ++ make_player (base_tag a)].

Definition srand_args (srand : Z) : list string := ["-srand"; Py.fmt_d srand].

Definition adjudication_args (games_concurrency : Q) : list string :=
  ["-resign"; "movecount=3"; "score=400"; "-draw"; "movenumber=34";
   "movecount=8"; "score=20"; "-concurrency"; str_int games_concurrency].

Definition new_engine_args (a : run_args) : list string :=
  ["-engine"; "name=New-" ++ Py.take 7 (resolved_new a);
   "cmd=" ++ "stockfish_" ++ resolved_new a].

Definition base_engine_args (a : run_args) : list string :=
  ["-engine"; "name=Base-" ++ Py.take 7 (resolved_base a);
   "cmd=" ++ "stockfish_" ++ resolved_base a].

Definition each_args (scaled_tc : string) : list string :=
  ["-each"; "proto=uci"; "tc=" ++ scaled_tc].

(** Lines 566-574: the command, from the path of the match runner, the
    parsed options of the two engines, the number drawn for [-srand] and
    the scaled time control. *)
Definition cutechess_cmd (cutechess : string) (a : run_args) (task_id srand : Z)
  (games_to_play games_concurrency : Q) (pgnout pgn_cmd book_cmd : list string)
  (new_opts base_opts : list string) (scaled_tc : string) : list string :=
  (opening_args cutechess games_to_play ++ pgnout ++
   site_args a ++ event_args a task_id ++ srand_args srand ++
   adjudication_args games_concurrency ++ pgn_cmd ++
   new_engine_args a ++ new_opts ++ ["_spsa_"] ++
   base_engine_args a ++ base_opts ++ ["_spsa_"] ++
   each_args scaled_tc ++ nodestime_cmd (new_opts ++ base_opts) ++
   threads_cmd a (new_opts ++ base_opts) ++ book_cmd)%list.

(** The part of the command before the first placeholder, between the
    two placeholders, and after the second one. *)
Definition cmd_head (cutechess : string) (a : run_args) (task_id srand : Z)
  (games_to_play games_concurrency : Q) (pgnout pgn_cmd : list string)
  (new_opts : list string) : list string :=
  (opening_args cutechess games_to_play ++ pgnout ++
   site_args a ++ event_args a task_id ++ srand_args srand ++
   adjudication_args games_concurrency ++ pgn_cmd ++
   new_engine_args a ++ new_opts)%list.

Definition cmd_middle (a : run_args) (base_opts : list string) : list string :=
  (base_engine_args a ++ base_opts)%list.

Definition cmd_tail (a : run_args) (book_cmd new_opts base_opts : list string)
  (scaled_tc : string) : list string :=
  (each_args scaled_tc ++ nodestime_cmd (new_opts ++ base_opts) ++
   threads_cmd a (new_opts ++ base_opts) ++ book_cmd)%list.

(** ** The host: files, processes and downloads *)

(** The platform the worker runs on (lines 30-51). *)
Record platform : Type := {
  IS_WINDOWS : bool;
  is_64bit : bool
}.

Definition ARCH (pf : platform) : string :=
  if is_64bit pf then "ARCH=x86-64-modern" else "ARCH=x86-32".

Definition EXE_SUFFIX (pf : platform) : string :=
  if IS_WINDOWS pf then ".exe" else "".

Definition MAKE_CMD (pf : platform) : string :=
  if IS_WINDOWS pf then "make COMP=mingw " ++ ARCH pf else "make COMP=gcc " ++ ARCH pf.

(** The calls to the operating system and to the network made by
    [setup], [setup_engine], [kill_process] and the clean-up of old
    engines, in the order in which they are made. [Json] stands for the
    decoding of a response and the lookups in it, [ReadText] for the
    opening and the reading of a text file, [B64decode] for the lookup
    of ['content'] and its decoding, [Getmtime] for
    [os.path.getmtime]. *)
Inductive host_op : Type :=
| OsRemove (path : string)
| Getmtime (path : string)
| Mkdtemp (dir : string)
| Chdir (path : string)
| OpenWrite (path : string)
| ReadText (path : string)
| FileWrite (path : string)
| HttpGet (url : string)
| Json (url : string)
| B64decode (url : string)
| ZipOpen (path : string)
| ZipExtractall (path : string)
| ZipClose (path : string)
| CheckCall (cmd : string)
| Move (src dst : string)
| Rmtree (path : string)
| Taskkill (pid : string)
| Kill (pid : string)
| Wait (pid : string)
| CloseStdout (pid : string).

(** What the host answers: whether a call raises, given the calls made
    so far (an attempt is recorded even when it raises), and the data
    that the calls return. *)
Record host : Type := {
  raises : list host_op -> host_op -> option exn;
  path_exists : string -> bool;
  path_join : string -> string -> string;
  mkdtemp : string -> string;
  namelist : string -> list string;
  read_text : string -> string;
  tree_blobs : string -> list (string * string)
}.

(** One call. *)
Definition call (h : host) (op : host_op) : St (list host_op) unit :=
  fun tr =>
    match raises h tr op with
    | Some e => ((tr ++ [op])%list, Raise e)
    | None => ((tr ++ [op])%list, Ret tt)
    end.

(** [try: m except: h] with a bare [except], which catches every
    exception, [SystemExit] included. *)
Definition try_except_all {S A} (m : St S A) (h : exn -> St S A) : St S A :=
  fun s =>
    match m s with
    | (s', Ret a) => (s', Ret a)
    | (s', Raise e) => h e s'
    end.

(** ** [kill_process] *)

(** [kill_process(p)] (lines 152-163); the handler only prints. *)
Definition kill_process_on (pf : platform) (h : host) (pid : string)
  : St (list host_op) unit :=
  try_except_all
    ((if IS_WINDOWS pf then call h (Taskkill pid) else call h (Kill pid)) ;;
     call h (Wait pid) ;;
     call h (CloseStdout pid))
    (fun _ => ret tt).

(** ** [setup] *)

(** Lines 104-112: the loop over [tree['tree']] with its [else]. *)
Fixpoint setup_loop (h : host) (item testing_dir : string)
  (blobs : list (string * string)) : St (list host_op) unit :=
  match blobs with
  | [] => raise (Exception_ ("Item " ++ item ++ " not found"))
  | blob :: rest =>
      if String.eqb (fst blob) item then
        call h (HttpGet (snd blob)) ;;
        call h (Json (snd blob)) ;;
        call h (OpenWrite (path_join h testing_dir item)) ;;
        call h (B64decode (snd blob)) ;;
        call h (FileWrite (path_join h testing_dir item))
      else setup_loop h item testing_dir rest
  end.

(** [setup(item, testing_dir)]. *)
Definition setup (h : host) (item testing_dir : string) : St (list host_op) unit :=
  let url := github_api REPO_URL ++ "/git/trees/master" in
  call h (HttpGet url) ;;
  call h (Json url) ;;
  setup_loop h item testing_dir (tree_blobs h url).

(** ** [setup_engine] *)

(** Lines 127-129: the last name that ends with [/src/], if any. *)
Fixpoint find_src_dir (names : list string) (src_dir : option string) : option string :=
  match names with
  | [] => src_dir
  | name :: rest =>
      find_src_dir rest (if PyStr.endswith "/src/" name then Some name else src_dir)
  end.

(** Lines 132-142: the build. *)
Definition build (pf : platform) (h : host) (worker_dir concurrency : string)
  : St (list host_op) unit :=
  let custom_make := path_join h worker_dir "custom_make.txt" in
  if path_exists h custom_make then
    call h (ReadText custom_make) ;;
    let make_cmd := Py.strip (read_text h custom_make) in
    call h (CheckCall make_cmd)
  else
    call h (CheckCall (MAKE_CMD pf ++ " -j " ++ concurrency ++ " profile-build")) ;;
    try_except_all
      (call h (CheckCall (MAKE_CMD pf ++ " -j " ++ concurrency ++ " strip")))
      (fun _ => ret tt).

(** Lines 120-145: the body of the [try]. *)
Definition setup_engine_body (pf : platform) (h : host)
  (destination worker_dir sha repo_url concurrency tmp_dir : string)
  : St (list host_op) unit :=
  call h (Chdir tmp_dir) ;;
  call h (OpenWrite "sf.gz") ;;
  call h (HttpGet (github_api repo_url ++ "/zipball/" ++ sha)) ;;
  call h (FileWrite "sf.gz") ;;
  call h (ZipOpen "sf.gz") ;;
  call h (ZipExtractall "sf.gz") ;;
  call h (ZipClose "sf.gz") ;;
  src_dir <- or_raise (UnboundLocalError "src_dir")
               (find_src_dir (namelist h "sf.gz") None) ;;
  call h (Chdir src_dir) ;;
  build pf h worker_dir concurrency ;;
  call h (Move ("stockfish" ++ EXE_SUFFIX pf) destination).

(** [setup_engine(destination, worker_dir, sha, repo_url, concurrency)]. *)
Definition setup_engine (pf : platform) (h : host)
  (destination worker_dir sha repo_url concurrency : string)
  : St (list host_op) unit :=
  (if path_exists h destination then call h (OsRemove destination) else ret tt) ;;
  call h (Mkdtemp worker_dir) ;;
  let tmp_dir := mkdtemp h worker_dir in
  try_finally
    (try_except_all
       (setup_engine_body pf h destination worker_dir sha repo_url concurrency tmp_dir)
       (fun _ => raise (Exception_ ("Failed to setup engine for " ++ sha))))
    (call h (Chdir worker_dir) ;; call h (Rmtree tmp_dir)).

(** ** The old engines *)

(** [engines.sort(key=os.path.getmtime)]: the sort of Python is stable,
    so an engine goes before the first one that is not older. *)
Fixpoint insert_by (key : string -> Q) (x : string) (l : list string) : list string :=
  match l with
  | [] => [x]
  | y :: l' =>
      if Qle_bool (key x) (key y) then x :: y :: l' else y :: insert_by key x l'
  end.

Definition sort_by (key : string -> Q) (l : list string) : list string :=
  foldr (insert_by key) [] l.

(** [engines[:len(engines)-25]] after the sort, when there are more
    than 25 engines. *)
Definition old_engines (getmtime : string -> Q) (engines : list string) : list string :=
  if (25 <? length engines)%nat
  then take (length engines - 25) (sort_by getmtime engines)
  else [].

(** Lines 469-477: the clean-up.  With more than 25 engines the sort
    first asks the host for the time of modification of every engine,
    in the order of the list and outside any [try]; [getmtime] tells
    the times that these calls return.  A removal that fails is only
    noted. *)
Definition remove_old_engines (h : host) (getmtime : string -> Q)
  (engines : list string) : St (list host_op) unit :=
  if (25 <? length engines)%nat then
    for_each engines (fun engine => call h (Getmtime engine)) ;;
    for_each (old_engines getmtime engines)
      (fun old_engine =>
         try_except_all (call h (OsRemove old_engine)) (fun _ => ret tt))
  else ret tt.

(** The engines that the clean-up does not touch. *)
Definition kept_engines (getmtime : string -> Q) (engines : list string) : list string :=
  if (25 <? length engines)%nat
  then drop (length engines - 25) (sort_by getmtime engines)
  else engines.

(** Line 140: the command of [make strip]. *)
Definition strip_cmd (pf : platform) (concurrency : string) : string :=
  MAKE_CMD pf ++ " -j " ++ concurrency ++ " strip".

(** ** Predicates on the calls to the host *)

(** A computation on the host: it only adds calls to the trace, and the
    calls it adds are of the kind [Q]. *)
Definition adds (Q : host_op -> Prop) {A} (m : St (list host_op) A) : Prop :=
  forall tr, exists ops, fst (m tr) = (tr ++ ops)%list /\ Forall Q ops.

(** When the computation returns, the last call it made is [op]. *)
Definition ends_with (op : host_op) {A} (m : St (list host_op) A) : Prop :=
  forall tr tr' a, m tr = (tr', Ret a) -> exists ops, tr' = (tr ++ ops ++ [op])%list.

(** A call that builds or installs an engine. *)
Definition builds (op : host_op) : Prop :=
  match op with
  | CheckCall _ | Move _ _ => True
  | _ => False
  end.

(** No call of the host raises. *)
Definition obliging (h : host) : Prop := forall tr op, raises h tr op = None.

(** A list of files in the order of their times of modification. *)
Fixpoint ascending (key : string -> Q) (l : list string) : Prop :=
  match l with
  | [] => True
  | x :: l' => Forall (fun y => (key x <= key y)%Q) l' /\ ascending key l'
  end.

(** ** What is sent to the coordinator *)

(** The number of games a [stats] dictionary tells of. *)
Definition games_of (s : stats) : Z := wins s + losses s + draws s.

(** The games told since [old] are the games of the pairs told since
    [old]. *)
Definition balanced (old s : stats) : Prop :=
  games_of s - games_of old =
  2 * (Py.sum (stats_pentanomial s) - Py.sum (stats_pentanomial old)).

(** The statistics sent to [/api/update_task] in a trace. *)
Definition payloads (tr : list action) : list stats :=
  flat_map (fun a => match a with PostUpdateTask s => [s] | _ => [] end) tr.

(** The loop of [run_game] between two turns: [old_stats] is [o], and
    once the counters exist [result['stats']['pentanomial']] is their
    pentanomial added to that of [o]. *)
Definition in_step (o : stats) (w : world) : Prop :=
  old_stats w = o /\ rounds_ok (rounds w) /\
  forall p, pentanomial (rounds w) = Some p ->
    stats_pentanomial (result_stats w) = zip_with Z.add p (stats_pentanomial o).

(** The trace of [w'] is that of [w] and more, and what was sent in
    between is balanced against [o]. *)
Definition sends_balanced (o : stats) (w w' : world) : Prop :=
  exists new, trace w' = (trace w ++ new)%list /\ Forall (balanced o) (payloads new).

(** A turn that is not a [Score] line. *)
Definition scoreless (t : tick) : bool :=
  match t with
  | Line line => negb (Py.contains "Score" line)
  | Empty _ => true
  end.

(** [wins], [losses] and [draws] of [result['stats']]. *)
Definition reported_wld (w : world) : Z * Z * Z :=
  (wins (result_stats w), losses (result_stats w), draws (result_stats w)).

(** ** The points of the new engine *)

(** [s5] of [validate_pentanomial]: the two counters weighted by half
    their indices; 0 while the counters do not exist. *)
Definition points (rs : rounds_t) : Q :=
  match pentanomial rs, trinomial rs with
  | Some p, Some t => (results_to_score p + results_to_score t)%Q
  | _, _ => 0%Q
  end.

(** Twice the points that a line brings: the entry of [trinomial] in
    which its game is counted, and nothing for any other line. *)
Definition credit (line : string) : Z :=
  match Py.split_ws line with
  | t0 :: t1 :: t2 :: _ :: _ :: _ :: t6 :: _ =>
      if String.eqb t0 "Finished" && String.eqb t1 "game" then
        match Py.int t2 with
        | Some r =>
            default 0 (bucket r {| white := ""; black := ""; result := result_to_score t6 |})
        | None => 0
        end
      else 0
  | _ => 0
  end.

(** ** More samples *)

(** A batch whose second line is blank. *)
Definition blank_env : batch_env :=
  {| ticks := [Line game1_line; Line ""; Line game2_line];
     replies := fun _ => Reply {| task_alive := true |};
     request_spsa := Raise RequestException;
     command := sample_command |}.

(** A batch that ends cleanly after one game. *)
Definition finishing_env : batch_env :=
  {| ticks := [Line game1_line; Line "Finished match"; Line game2_line];
     replies := fun _ => Reply {| task_alive := true |};
     request_spsa := Raise RequestException;
     command := sample_command |}.

(** A batch whose match runner ends with return code 1 after one game. *)
Definition crashing_env : batch_env :=
  {| ticks := [Line game1_line; Empty (Some 1); Line game2_line];
     replies := fun _ => Reply {| task_alive := true |};
     request_spsa := Raise RequestException;
     command := sample_command |}.

(** A batch whose match runner has ended with return code 0 and has
    printed nothing. *)
Definition ended_env : batch_env :=
  {| ticks := replicate 3 (Empty (Some 0));
     replies := fun _ => Reply {| task_alive := true |};
     request_spsa := Raise RequestException;
     command := sample_command |}.

(** A batch in which the [Score] line counts two games after one game
    was finished. *)
Definition miscounting_env : batch_env :=
  {| ticks := [Line game1_line; Line score_line; Line game2_line];
     replies := fun _ => Reply {| task_alive := true |};
     request_spsa := Raise RequestException;
     command := sample_command |}.

(** The state of a batch after the two games of its first pair, and
    after the first game only. *)
Definition after_pair : world :=
  default sample_start
    (advance false (fun _ => Reply {| task_alive := true |})
       [Line game1_line; Line game2_line] (start_batch sample_start)).

Definition after_one_game : world :=
  default sample_start
    (advance false (fun _ => Reply {| task_alive := true |})
       [Line game1_line] (start_batch sample_start)).

(** The coordinator is reached at the second request. *)
Definition retry_replies (n : nat) : reply :=
  match n with
  | O => Failed RequestException
  | _ => Reply {| task_alive := true |}
  end.

Definition draw_score_line : string :=
  "Score of New-abc vs Base-xyz: 0 - 0 - 1  [0.500] 1".

(** A task of 10 games of which 4 were played by an earlier call. *)
Definition resumed_start : world :=
  initial_world
    {| wins := 1; losses := 1; draws := 2; crashes := 0; time_losses := 0;
       stats_pentanomial := [0; 1; 1; 0; 0] |} 10.

(** A tuning batch whose match runner ends with return code 1 after one
    game. *)
Definition spsa_crashing_env : batch_env :=
  {| ticks := [Line game1_line; Empty (Some 1); Line game2_line];
     replies := fun _ => Reply {| task_alive := true |};
     request_spsa := Ret ([("Knob", 10 # 1)], [("Knob", 12 # 1)]);
     command := sample_command |}.

(** A bench that prints nothing and ends with code 0. *)
Definition bench_silent : bench_run :=
  {| bench_stderr := [];
     bench_returncode := 0;
     stop_run_failure := None |}.

(** A bench that prints its signature but not its speed. *)
Definition bench_speedless : bench_run :=
  {| bench_stderr :=
       ["==========================="; "Total time (ms) : 2270";
        "Nodes searched  : 5290994"];
     bench_returncode := 0;
     stop_run_failure := None |}.

(** A host on which every call succeeds; the books repository holds two
    blobs and the archive of the engine three names. *)
Definition sample_host : host :=
  {| raises := fun _ _ => None;
     path_exists := fun _ => false;
     path_join := fun a b => a ++ "/" ++ b;
     mkdtemp := fun dir => dir ++ "/tmpab12";
     namelist := fun _ => ["sf-abc/"; "sf-abc/src/"; "sf-abc/src/Makefile"];
     read_text := fun _ => "";
     tree_blobs := fun _ =>
       [("README.md", "https://api.github.com/blobs/1");
        ("2moves_v1.pgn.zip", "https://api.github.com/blobs/2");
        ("2moves_v1.pgn.zip", "https://api.github.com/blobs/3")] |}.

(** The same host, on which [make strip] fails. *)
Definition stripless_host (pf : platform) (concurrency : string) : host :=
  {| raises := fun _ op =>
       match op with
       | CheckCall c =>
           if String.eqb c (strip_cmd pf concurrency)
           then Some (Exception_ "CalledProcessError") else None
       | _ => None
       end;
     path_exists := path_exists sample_host;
     path_join := path_join sample_host;
     mkdtemp := mkdtemp sample_host;
     namelist := namelist sample_host;
     read_text := read_text sample_host;
     tree_blobs := tree_blobs sample_host |}.

(** The same host with an archive that has no [src] directory. *)
Definition srcless_host : host :=
  {| raises := raises sample_host;
     path_exists := path_exists sample_host;
     path_join := path_join sample_host;
     mkdtemp := mkdtemp sample_host;
     namelist := fun _ => ["sf-abc/"; "sf-abc/README.md"];
     read_text := read_text sample_host;
     tree_blobs := tree_blobs sample_host |}.

Definition linux64 : platform := {| IS_WINDOWS := false; is_64bit := true |}.

(** A run of two engines with options, from a book in PGN format. *)
Definition sample_args : run_args :=
  {| book := "2moves_v1.pgn";
     book_depth := "8";
     new_options := "Hash=16 Skill Level=20";
     base_options := "Hash=16";
     threads := 1;
     resolved_new := "1a68b26f0e";
     resolved_base := "5446e6f2aa";
     new_tag := "fix_eval extra";
     base_tag := "master";
     run_id := "5e8f" |}.

(** * Properties *)

(** ** Built-ins on concrete inputs *)

Example split_ws_ex :
  Py.split_ws "Finished game 4 (Base-5446e6f vs New-1a68b26): 1/2-1/2 {Draw by adjudication}"
  = ["Finished"; "game"; "4"; "(Base-5446e6f"; "vs"; "New-1a68b26):"; "1/2-1/2";
     "{Draw"; "by"; "adjudication}"].
Proof. reflexivity. Qed.

Example split_ex : Py.split ": " "Nodes searched  : 5290994" = ["Nodes searched  "; "5290994"].
Proof. reflexivity. Qed.

(** ['%.3f'] rounds the exact value of the float: [0.0625] is a tie and
    goes to the even digit; the float of [1.0005] lies below the
    literal and that of [2.0005] above it. *)
Example fmt_3f_ex :
  Py.fmt_3f <$> Py.float "0.1" = Some "0.100" /\
  Py.fmt_3f (Py.of_Z 10) = "10.000" /\
  Py.fmt_3f <$> Py.float "0.0625" = Some "0.062" /\
  Py.fmt_3f <$> Py.float "1.0005" = Some "1.000" /\
  Py.fmt_3f <$> Py.float "2.0005" = Some "2.001" /\
  Py.fmt_3f <$> Py.float "-0" = Some "-0.000".
Proof. repeat split; reflexivity. Qed.

(** [float('0.1')] is [3602879701896397 / 2^55], not one tenth. *)
Example float_ex :
  Py.float "0.1" = Some (SpecFloat.S754_finite false 7205759403792794 (-56)) /\
  Py.float "10" = Some (Py.of_Z 10) /\
  Py.float "-0" = Some (SpecFloat.S754_zero true) /\
  Py.float "1e1" = None.
Proof. repeat split; reflexivity. Qed.

Example int_ex : Py.int " -42 " = Some (-42) /\ Py.int "4x" = None.
Proof. split; reflexivity. Qed.

(** ** The accumulator invariant *)

Lemma load_insert k r rec g :
  (load k (<[r:=rec]> g) <= load k g + indicator (bucket r rec) k)%nat.
Proof.
  unfold load, indicator. rewrite map_filter_insert. simpl.
  destruct (decide (bucket r rec = Some k)).
  - rewrite map_size_insert. destruct (_ !! r); simpl; lia.
  - rewrite map_filter_delete, map_size_delete. destruct (_ !! r); simpl; lia.
Qed.

Lemma load_delete k r rec g :
  g !! r = Some rec ->
  (load k (delete r g) + indicator (bucket r rec) k = load k g)%nat.
Proof.
  intros Hr. unfold load, indicator.
  rewrite map_filter_delete, map_size_delete.
  destruct (decide (bucket r rec = Some k)) as [Hb|Hb].
  - assert (Hf : filter (fun p : Z * RoundRecord => bucket p.1 p.2 = Some k) g !! r = Some rec).
    { apply map_lookup_filter_Some. split; [exact Hr | exact Hb]. }
    rewrite Hf.
    assert (size (filter (fun p : Z * RoundRecord => bucket p.1 p.2 = Some k) g) <> 0%nat).
    { apply map_size_ne_0_lookup_2 with r. eauto. }
    simpl. lia.
  - assert (Hf : filter (fun p : Z * RoundRecord => bucket p.1 p.2 = Some k) g !! r = None).
    { apply map_lookup_filter_None. right. intros x Hx. simpl. congruence. }
    rewrite Hf. simpl. lia.
Qed.

Lemma result_to_score_range s : -1 <= result_to_score s <= 2.
Proof. unfold result_to_score. repeat case_match; lia. Qed.

Lemma index_nat {A} (l : list A) (n : nat) :
  (n < length l)%nat -> Py.index l (Z.of_nat n) = l !! n.
Proof.
  intros H. unfold Py.index.
  replace (0 <=? Z.of_nat n) with true by (symmetry; apply Z.leb_le; lia).
  replace (Z.of_nat n <? Z.of_nat (length l)) with true by (symmetry; apply Z.ltb_lt; lia).
  simpl. by rewrite Nat2Z.id.
Qed.

Lemma index_in_range {A} (l : list A) (k : Z) :
  0 <= k < Z.of_nat (length l) ->
  exists v, l !! Z.to_nat k = Some v /\ Py.index l k = Some v.
Proof.
  intros H. destruct (lookup_lt_is_Some_2 l (Z.to_nat k)) as [v Hv]; [lia|].
  exists v. split; [exact Hv|].
  rewrite <- (Z2Nat.id k) by lia. rewrite index_nat by lia. exact Hv.
Qed.

Lemma index_add_in_range (l : list Z) (k d : Z) :
  0 <= k < Z.of_nat (length l) ->
  exists v, l !! Z.to_nat k = Some v /\
            Py.index_add l k d = Some (<[Z.to_nat k := v + d]> l).
Proof.
  intros H. destruct (index_in_range l k H) as (v & Hv & Hi).
  exists v. split; [exact Hv|]. unfold Py.index_add. rewrite Hi.
  replace (k <? 0) with false by (symmetry; apply Z.ltb_ge; lia). reflexivity.
Qed.

Lemma sum_insert (l : list Z) i v w :
  l !! i = Some v -> Py.sum (<[i := w]> l) = Py.sum l - v + w.
Proof.
  revert i. induction l as [|x l IH]; intros [|i] H; simpl in *; try discriminate.
  - injection H as ->. lia.
  - rewrite (IH i H). lia.
Qed.

Lemma init_rounds_run rs : init_rounds rs = (with_defaults rs, Ret tt).
Proof. destruct rs as [[p|] [t|] g]; reflexivity. Qed.

Lemma with_defaults_consistent rs n : consistent rs n -> with_defaults rs = rs.
Proof.
  intros (p & t & Hp & Ht & _). destruct rs as [p' t' g]; simpl in *; subst. reflexivity.
Qed.

Lemma consistent_empty : consistent (with_defaults empty_rounds) 0.
Proof.
  exists (replicate 5 0), (replicate 3 0). simpl.
  split; [reflexivity|]. split; [reflexivity|]. split; [reflexivity|].
  split; [reflexivity|]. split; [|split; [|reflexivity]].
  - intros r0 rec0 H0. rewrite lookup_empty in H0. discriminate.
  - intros k v H. unfold load. rewrite map_filter_empty, map_size_empty.
    destruct k as [|[|[|k]]]; simpl in H; try discriminate; injection H as <-; lia.
Qed.

Lemma entry_add_length k d l : length (entry_add k d l) = length l.
Proof. unfold entry_add. apply length_insert. Qed.

Lemma sum_entry_add k d l :
  0 <= k < Z.of_nat (length l) -> Py.sum (entry_add k d l) = Py.sum l + d.
Proof.
  intros H. unfold entry_add.
  destruct (lookup_lt_is_Some_2 l (Z.to_nat k)) as [v Hv]; [lia|].
  rewrite (sum_insert _ _ v) by exact Hv.
  rewrite (list_lookup_total_correct _ _ _ Hv). lia.
Qed.

Lemma entry_add_lookup k d l (i : nat) v :
  0 <= k < Z.of_nat (length l) -> l !! i = Some v ->
  entry_add k d l !! i = Some (if decide (Z.of_nat i = k) then v + d else v).
Proof.
  intros H Hi. unfold entry_add.
  destruct (decide (Z.of_nat i = k)) as [<-|Hne].
  - rewrite Nat2Z.id. rewrite list_lookup_insert_eq by (eapply lookup_lt_Some; eauto).
    by rewrite (list_lookup_total_correct _ _ _ Hi).
  - rewrite list_lookup_insert_ne by lia. exact Hi.
Qed.

Lemma index_add_entry (l : list Z) (k d : Z) :
  0 <= k < Z.of_nat (length l) -> Py.index_add l k d = Some (entry_add k d l).
Proof.
  intros H. destruct (index_add_in_range l k d H) as (v & Hv & ->).
  unfold entry_add. by rewrite (list_lookup_total_correct _ _ _ Hv).
Qed.

Lemma trinomial_add_run rs t k d :
  trinomial rs = Some t -> 0 <= k < Z.of_nat (length t) ->
  trinomial_add k d rs = (set_trinomial (entry_add k d t) rs, Ret tt).
Proof.
  intros Ht Hk. unfold trinomial_add, get_trinomial, bind, get, or_raise, modify.
  rewrite Ht. simpl. rewrite index_add_entry by exact Hk. reflexivity.
Qed.

Lemma pentanomial_add_run rs p k d :
  pentanomial rs = Some p -> 0 <= k < Z.of_nat (length p) ->
  pentanomial_add k d rs = (set_pentanomial (entry_add k d p) rs, Ret tt).
Proof.
  intros Hp Hk. unfold pentanomial_add, get_pentanomial, bind, get, or_raise, modify.
  rewrite Hp. simpl. rewrite index_add_entry by exact Hk. reflexivity.
Qed.

Lemma token_run {S} (line : list string) (n : nat) t (s : S) :
  line !! n = Some t -> token line (Z.of_nat n) s = (s, Ret t).
Proof.
  intros H. unfold token. rewrite index_nat by (eapply lookup_lt_Some; eauto).
  rewrite H. reflexivity.
Qed.

Lemma store_game_run t0 t1 t2 t3 t4 t5 t6 rest r rs t :
  Py.int t2 = Some r -> trinomial rs = Some t -> length t = 3%nat ->
  store_game (t0 :: t1 :: t2 :: t3 :: t4 :: t5 :: t6 :: rest) rs
  = (stored r (record_of t3 t5 t6) rs, Ret (pair_of r)).
Proof.
  intros Hr Ht Hlen. unfold store_game.
  unfold bind at 1. rewrite (token_run _ 2 t2) by reflexivity.
  unfold bind at 1. rewrite Hr. simpl or_raise. unfold ret at 1.
  unfold bind at 1. rewrite (token_run _ 3 t3) by reflexivity.
  unfold bind at 1. rewrite (token_run _ 5 t5) by reflexivity.
  unfold bind at 1. rewrite (token_run _ 6 t6) by reflexivity.
  unfold bind at 1. unfold modify at 1.
  fold (record_of t3 t5 t6).
  pose proof (result_to_score_range t6) as Hs.
  unfold stored, bucket, pair_of.
  change (result (record_of t3 t5 t6)) with (result_to_score t6).
  cbv zeta.
  destruct (r mod 2 =? 0); destruct (result_to_score t6 =? -1) eqn:Hu; simpl negb; cbv iota.
  1,3: unfold bind, ret; destruct rs; reflexivity.
  all: apply Z.eqb_neq in Hu; unfold bind at 1;
    rewrite (trinomial_add_run _ t) by (simpl; first [exact Ht | lia]);
    unfold ret; rewrite Ht; destruct rs; reflexivity.
Qed.

Lemma known_range g r rec :
  known_results g -> g !! r = Some rec -> result rec <> -1 -> 0 <= result rec <= 2.
Proof. intros Hk Hr Hn. specialize (Hk r rec Hr). lia. Qed.

Lemma bucket_odd r rec :
  r mod 2 = 1 -> result rec <> -1 -> bucket r rec = Some (result rec).
Proof.
  intros Hr Hn. unfold bucket.
  destruct (result rec =? -1) eqn:E; [apply Z.eqb_eq in E; contradiction|].
  rewrite Hr. reflexivity.
Qed.

Lemma bucket_even r rec :
  r mod 2 = 0 -> result rec <> -1 -> bucket r rec = Some (2 - result rec).
Proof.
  intros Hr Hn. unfold bucket.
  destruct (result rec =? -1) eqn:E; [apply Z.eqb_eq in E; contradiction|].
  rewrite Hr. reflexivity.
Qed.

Lemma paired_consistent rs n odd o e :
  consistent rs n -> odd mod 2 = 1 ->
  games rs !! odd = Some o -> games rs !! (odd + 1) = Some e ->
  result o <> -1 -> result e <> -1 ->
  consistent (paired odd (odd + 1) o e rs) n.
Proof.
  intros (p & t & Hp & Ht & Lp & Lt & Hk & Hl & Hs) Hodd Ho He Hno Hne.
  pose proof (known_range _ _ _ Hk Ho Hno) as Ri.
  pose proof (known_range _ _ _ Hk He Hne) as Rj.
  set (i := result o) in *. set (j := result e) in *.
  exists (entry_add (i + 2 - j) 1 p), (entry_add (2 - j) (-1) (entry_add i (-1) t)).
  unfold paired. simpl. rewrite Hp, Ht. simpl.
  split; [reflexivity|]. split; [reflexivity|].
  split; [by rewrite entry_add_length|].
  split; [by rewrite !entry_add_length|].
  split; [|split].
  - intros r rec Hr. apply lookup_delete_Some in Hr as [_ Hr].
    apply lookup_delete_Some in Hr as [_ Hr]. eapply Hk; eauto.
  - intros k v' Hv'.
    assert (Hlt : (k < length t)%nat).
    { apply lookup_lt_Some in Hv'. by rewrite !entry_add_length in Hv'. }
    destruct (lookup_lt_is_Some_2 t k Hlt) as [v Hv].
    rewrite (entry_add_lookup _ _ _ _ (if decide (Z.of_nat k = i) then v + -1 else v)) in Hv'.
    2: { rewrite entry_add_length. lia. }
    2: { apply entry_add_lookup; [lia | exact Hv]. }
    injection Hv' as <-.
    specialize (Hl k v Hv).
    pose proof (load_delete (Z.of_nat k) odd o (games rs) Ho) as D1.
    assert (He' : delete odd (games rs) !! (odd + 1) = Some e).
    { rewrite lookup_delete_ne by lia. exact He. }
    pose proof (load_delete (Z.of_nat k) (odd + 1) e _ He') as D2.
    rewrite (bucket_odd odd o Hodd Hno) in D1.
    assert (Heven : (odd + 1) mod 2 = 0) by (rewrite Z.add_mod, Hodd by lia; reflexivity).
    rewrite (bucket_even (odd + 1) e Heven Hne) in D2.
    fold i in D1. fold j in D2. unfold indicator in D1, D2.
    repeat case_decide; try congruence; try lia.
    all: simplify_eq; try lia.
  - rewrite !sum_entry_add by (rewrite ?entry_add_length; lia). lia.
Qed.

Lemma bind_run_eq {S A B} (m : St S A) (k : A -> St S B) s s' a r :
  m s = (s', Ret a) -> k a s' = r -> bind m k s = r.
Proof. intros Hm Hk. unfold bind. rewrite Hm. exact Hk. Qed.

Lemma bind_raise_eq {S A B} (m : St S A) (k : A -> St S B) s s' e :
  m s = (s', Raise e) -> bind m k s = (s', Raise e).
Proof. intros Hm. unfold bind. rewrite Hm. reflexivity. Qed.

Ltac mstep tac := eapply bind_run_eq; [solve [tac] | cbv beta].
Ltac mstep0 := eapply bind_run_eq; [reflexivity | cbv beta].

Lemma get_round_run rs r rec :
  games rs !! r = Some rec -> get_round r rs = (rs, Ret rec).
Proof. intros H. unfold get_round, bind, get, or_raise. rewrite H. reflexivity. Qed.

Lemma get_trinomial_run rs t :
  trinomial rs = Some t -> get_trinomial rs = (rs, Ret t).
Proof. intros H. unfold get_trinomial, bind, get, or_raise. rewrite H. reflexivity. Qed.

Lemma get_pentanomial_run rs p :
  pentanomial rs = Some p -> get_pentanomial rs = (rs, Ret p).
Proof. intros H. unfold get_pentanomial, bind, get, or_raise. rewrite H. reflexivity. Qed.

Lemma consistent_nonneg rs n t k v :
  consistent rs n -> trinomial rs = Some t -> t !! k = Some v -> 0 <= v.
Proof.
  intros (p & t' & _ & Ht & _ & _ & _ & Hl & _) Ht' Hv.
  rewrite Ht in Ht'. injection Ht' as ->.
  specialize (Hl k v Hv). lia.
Qed.

Lemma pair_games_paired rs n odd o e :
  consistent rs n -> odd mod 2 = 1 ->
  games rs !! odd = Some o -> games rs !! (odd + 1) = Some e ->
  pairing_identity o e = true ->
  result o <> -1 -> result e <> -1 ->
  pair_games odd (odd + 1) rs = (paired odd (odd + 1) o e rs, Ret tt).
Proof.
  intros Hc Hodd Ho He Hid Hno Hne.
  pose proof (paired_consistent rs n odd o e Hc Hodd Ho He Hno Hne) as Hc'.
  destruct Hc as (p & t & Hp & Ht & Lp & Lt & Hk & Hl & Hs).
  pose proof (known_range _ _ _ Hk Ho Hno) as Ri.
  pose proof (known_range _ _ _ Hk He Hne) as Rj.
  unfold pairing_identity in Hid.
  apply andb_prop in Hid as [Hid H3]. apply andb_prop in Hid as [H1 H2].
  assert (Ht' : trinomial (paired odd (odd + 1) o e rs)
                = Some (entry_add (2 - result e) (-1) (entry_add (result o) (-1) t))).
  { unfold paired. simpl. rewrite Ht. reflexivity. }
  destruct (index_in_range (entry_add (2 - result e) (-1) (entry_add (result o) (-1) t))
              (result o)) as (vi & Hvi & Hii); [rewrite !entry_add_length; lia|].
  destruct (index_in_range (entry_add (2 - result e) (-1) (entry_add (result o) (-1) t))
              (2 - result e)) as (vj & Hvj & Hij); [rewrite !entry_add_length; lia|].
  pose proof (consistent_nonneg _ _ _ _ _ Hc' Ht' Hvi) as Pi.
  pose proof (consistent_nonneg _ _ _ _ _ Hc' Ht' Hvj) as Pj.
  apply Z.leb_le in Pi, Pj. apply Z.eqb_neq in Hno, Hne.
  unfold pair_games.
  mstep0.
  rewrite Ho, He, !bool_decide_eq_true_2 by eauto. cbn [andb].
  mstep ltac:(apply get_round_run; eassumption).
  mstep ltac:(apply get_round_run; eassumption).
  rewrite H1, H2, H3.
  mstep0. mstep0. mstep0.
  cbv zeta. rewrite Hno, Hne. cbn [negb andb].
  mstep ltac:(apply (pentanomial_add_run _ p); first [exact Hp | lia]).
  mstep0. mstep0.
  mstep ltac:(apply (trinomial_add_run _ t); first [exact Ht | lia]).
  mstep ltac:(apply (trinomial_add_run _ (entry_add (result o) (-1) t));
              first [reflexivity | rewrite entry_add_length; lia]).
  mstep ltac:(apply get_trinomial_run; reflexivity).
  rewrite Hii. mstep0. rewrite Pi. mstep0.
  mstep ltac:(apply get_trinomial_run; reflexivity).
  rewrite Hij. mstep0. rewrite Pj.
  unfold assert, ret, paired. rewrite Hp, Ht. reflexivity.
Qed.

Lemma pair_games_absent rs odd even :
  games rs !! odd = None \/ games rs !! even = None ->
  pair_games odd even rs = (rs, Ret tt).
Proof.
  intros H. unfold pair_games. mstep0.
  assert (E : bool_decide (is_Some (games rs !! odd)) &&
              bool_decide (is_Some (games rs !! even)) = false).
  { apply andb_false_iff.
    destruct H as [H|H]; [left|right]; rewrite H;
      apply bool_decide_eq_false_2, is_Some_None. }
  rewrite E. reflexivity.
Qed.

Lemma pair_games_identity_fails rs odd even o e :
  games rs !! odd = Some o -> games rs !! even = Some e ->
  pairing_identity o e = false ->
  pair_games odd even rs = (rs, Raise AssertionError).
Proof.
  intros Ho He Hid. unfold pair_games. mstep0.
  rewrite Ho, He, !bool_decide_eq_true_2 by eauto. cbn [andb].
  mstep ltac:(apply get_round_run; eassumption).
  mstep ltac:(apply get_round_run; eassumption).
  unfold pairing_identity in Hid.
  destruct (Py.take 3 (white o) =? "New")%string; [|reflexivity].
  mstep0.
  destruct (white o =? black e)%string; [|reflexivity].
  mstep0.
  destruct (black o =? white e)%string; [discriminate|reflexivity].
Qed.

Lemma pair_games_unknown rs odd even o e :
  games rs !! odd = Some o -> games rs !! even = Some e ->
  pairing_identity o e = true ->
  result o = -1 \/ result e = -1 ->
  pair_games odd even rs = (rs, Ret tt).
Proof.
  intros Ho He Hid Hu. unfold pair_games. mstep0.
  rewrite Ho, He, !bool_decide_eq_true_2 by eauto. cbn [andb].
  mstep ltac:(apply get_round_run; eassumption).
  mstep ltac:(apply get_round_run; eassumption).
  unfold pairing_identity in Hid.
  apply andb_prop in Hid as [Hid H3]. apply andb_prop in Hid as [H1 H2].
  rewrite H1, H2, H3. mstep0. mstep0. mstep0. cbv zeta.
  assert (E : negb (result o =? -1) && negb (result e =? -1) = false).
  { apply andb_false_iff. destruct Hu as [-> | ->]; [left|right]; reflexivity. }
  rewrite E. reflexivity.
Qed.

Lemma pair_games_consistent rs n odd :
  consistent rs n -> odd mod 2 = 1 ->
  consistent (fst (pair_games odd (odd + 1) rs)) n.
Proof.
  intros Hc Hodd.
  destruct (games rs !! odd) as [o|] eqn:Ho;
    [|rewrite pair_games_absent by (left; exact Ho); exact Hc].
  destruct (games rs !! (odd + 1)) as [e|] eqn:He;
    [|rewrite pair_games_absent by (right; exact He); exact Hc].
  destruct (pairing_identity o e) eqn:Hid;
    [|rewrite (pair_games_identity_fails _ _ _ o e) by assumption; exact Hc].
  destruct (decide (result o = -1)) as [Uo|Ko];
    [rewrite (pair_games_unknown _ _ _ o e) by (first [assumption | left; assumption]); exact Hc|].
  destruct (decide (result e = -1)) as [Ue|Ke];
    [rewrite (pair_games_unknown _ _ _ o e) by (first [assumption | right; assumption]); exact Hc|].
  rewrite (pair_games_paired rs n odd o e) by assumption.
  apply paired_consistent; assumption.
Qed.

Lemma stored_consistent rs n r cur :
  consistent rs n -> -1 <= result cur <= 2 ->
  consistent (stored r cur rs) (n + (if result cur =? -1 then 0 else 1)).
Proof.
  intros (p & t & Hp & Ht & Lp & Lt & Hk & Hl & Hs) Hr.
  assert (Hk' : known_results (<[r:=cur]> (games rs))).
  { intros r' rec' H. apply lookup_insert_Some in H as [[_ <-]|[_ H]]; [exact Hr|].
    eapply Hk; eauto. }
  unfold stored, bucket.
  destruct (result cur =? -1) eqn:E.
  - exists p, t. simpl. rewrite Ht.
    repeat (split; [first [assumption | reflexivity]|]).
    split; [|lia].
    intros k v Hv. specialize (Hl k v Hv).
    pose proof (load_insert (Z.of_nat k) r cur (games rs)) as Li.
    unfold indicator, bucket in Li. rewrite E in Li.
    rewrite decide_False in Li by discriminate. lia.
  - apply Z.eqb_neq in E.
    set (b := if r mod 2 =? 0 then 2 - result cur else result cur).
    assert (Hb : 0 <= b <= 2) by (unfold b; destruct (r mod 2 =? 0); lia).
    exists p, (entry_add b 1 t). simpl. rewrite Ht. simpl.
    split; [assumption|]. split; [reflexivity|]. split; [assumption|].
    split; [by rewrite entry_add_length|]. split; [assumption|]. split.
    + intros k v' Hv'.
      assert (Hlt : (k < length t)%nat).
      { apply lookup_lt_Some in Hv'. by rewrite entry_add_length in Hv'. }
      destruct (lookup_lt_is_Some_2 t k Hlt) as [v Hv].
      rewrite (entry_add_lookup _ _ _ _ v) in Hv' by (first [lia | exact Hv]).
      injection Hv' as <-. specialize (Hl k v Hv).
      pose proof (load_insert (Z.of_nat k) r cur (games rs)) as Li.
      unfold indicator, bucket in Li.
      replace (result cur =? -1) with false in Li by (symmetry; apply Z.eqb_neq; exact E).
      fold b in Li.
      repeat case_decide; simplify_eq; lia.
    + rewrite sum_entry_add by lia. lia.
Qed.

Lemma comprehension_state {S A B} (l : list A) (f : A -> St S B) s :
  (forall x s0, fst (f x s0) = s0) -> fst (comprehension l f s) = s.
Proof.
  intros Hf. revert s. induction l as [|x l IH]; intros s; [reflexivity|].
  simpl. unfold bind at 1. specialize (Hf x s).
  destruct (f x s) as [s1 [y|e]]; simpl in Hf; subst s1; [|reflexivity].
  unfold bind at 1. specialize (IH s).
  destruct (comprehension l f s) as [s2 [ys|e]]; simpl in IH; subst s2; reflexivity.
Qed.

Lemma cumulative_pentanomial_state old rs :
  fst (cumulative_pentanomial old rs) = rs.
Proof.
  unfold cumulative_pentanomial. apply comprehension_state.
  intros i s. unfold get_pentanomial, bind, get, or_raise, ret, raise.
  destruct (pentanomial s) as [p|]; [|reflexivity].
  destruct (Py.index p i); [|reflexivity].
  destruct (Py.index old i); reflexivity.
Qed.

Lemma mod2_cases r : r mod 2 = 0 \/ r mod 2 = 1.
Proof. pose proof (Z.mod_pos_bound r 2). lia. Qed.

Lemma pred_even_odd r : r mod 2 = 0 -> (r - 1) mod 2 = 1.
Proof.
  intros H. rewrite (Z.div_mod r 2) at 1 by lia. rewrite H.
  replace (2 * (r / 2) + 0 - 1) with (1 + (r / 2 - 1) * 2) by lia.
  rewrite Z.mod_add by lia. reflexivity.
Qed.

Lemma pair_of_shape r :
  exists odd, pair_of r = (odd, odd + 1) /\ odd mod 2 = 1 /\ (r = odd \/ r = odd + 1).
Proof.
  unfold pair_of. destruct (r mod 2 =? 0) eqn:E.
  - apply Z.eqb_eq in E. exists (r - 1).
    split; [f_equal; lia|]. split; [by apply pred_even_odd | lia].
  - apply Z.eqb_neq in E. exists r. split; [reflexivity|].
    destruct (mod2_cases r); [contradiction|]. split; [assumption | lia].
Qed.

Lemma is_finished_game_state {S} toks (s : S) : fst (is_finished_game toks s) = s.
Proof.
  unfold is_finished_game, token, bind, or_raise, ret, raise.
  destruct (Py.index toks 0) as [t0|]; [|reflexivity].
  destruct (t0 =? "Finished")%string; [|reflexivity].
  destruct (Py.index toks 1); reflexivity.
Qed.

Lemma is_finished_game_true {S} toks (s : S) :
  snd (is_finished_game toks s) = Ret true <->
  exists t2 t3 t4 t5 t6 rest,
    toks = "Finished" :: "game" :: t2 :: t3 :: t4 :: t5 :: t6 :: rest.
Proof.
  unfold is_finished_game. split.
  - destruct toks as [|t0 [|t1 toks]].
    + discriminate.
    + unfold bind at 1. rewrite (token_run _ 0%nat t0) by reflexivity.
      destruct (String.eqb_spec t0 "Finished"); [|discriminate]. discriminate.
    + unfold bind at 1. rewrite (token_run _ 0%nat t0) by reflexivity.
      destruct (String.eqb_spec t0 "Finished") as [->|]; [|discriminate].
      cbv beta iota. unfold bind at 1. rewrite (token_run _ 1%nat t1) by reflexivity.
      destruct (String.eqb_spec t1 "game") as [->|]; [|discriminate].
      destruct toks as [|t2 [|t3 [|t4 [|t5 [|t6 rest]]]]]; try discriminate.
      intros _. eauto 10.
  - intros (t2 & t3 & t4 & t5 & t6 & rest & ->).
    unfold bind at 1. rewrite (token_run _ 0%nat "Finished") by reflexivity.
    rewrite String.eqb_refl.
    unfold bind at 1. rewrite (token_run _ 1%nat "game") by reflexivity.
    rewrite String.eqb_refl. unfold ret. cbn [snd andb].
    f_equal. apply Z.leb_le. simpl length. lia.
Qed.

Lemma store_game_bad_round t0 t1 t2 rest rs :
  Py.int t2 = None -> store_game (t0 :: t1 :: t2 :: rest) rs = (rs, Raise ValueError).
Proof.
  intros H. unfold store_game.
  unfold bind at 1. rewrite (token_run _ 2%nat t2) by reflexivity.
  unfold bind at 1. rewrite H. reflexivity.
Qed.

Lemma scored_game_spec line :
  scored_game line = true <->
  exists t2 t3 t4 t5 t6 rest,
    Py.split_ws line = "Finished" :: "game" :: t2 :: t3 :: t4 :: t5 :: t6 :: rest /\
    is_Some (Py.int t2) /\ result_to_score t6 <> -1.
Proof.
  unfold scored_game. split.
  - destruct (Py.split_ws line) as [|t0 [|t1 [|t2 [|t3 [|t4 [|t5 [|t6 rest]]]]]]];
      try discriminate.
    intros H. apply andb_prop in H as [H H4]. apply andb_prop in H as [H H3].
    apply andb_prop in H as [H1 H2].
    apply String.eqb_eq in H1, H2. subst.
    apply bool_decide_eq_true in H3. apply negb_true_iff, Z.eqb_neq in H4.
    eauto 10.
  - intros (t2 & t3 & t4 & t5 & t6 & rest & -> & Hi & Hr).
    rewrite !String.eqb_refl. cbn [andb].
    rewrite bool_decide_eq_true_2 by exact Hi.
    apply Z.eqb_neq in Hr. rewrite Hr. reflexivity.
Qed.

Lemma scored_game_false line t2 t3 t4 t5 t6 rest :
  Py.split_ws line = "Finished" :: "game" :: t2 :: t3 :: t4 :: t5 :: t6 :: rest ->
  scored_game line =
    bool_decide (is_Some (Py.int t2)) && negb (result_to_score t6 =? -1).
Proof. intros E. unfold scored_game. rewrite E, !String.eqb_refl. reflexivity. Qed.

Lemma scored_game_finished line :
  scored_game line = true ->
  exists t2 t3 t4 t5 t6 rest,
    Py.split_ws line = "Finished" :: "game" :: t2 :: t3 :: t4 :: t5 :: t6 :: rest.
Proof.
  intros H. apply scored_game_spec in H as (t2 & t3 & t4 & t5 & t6 & rest & E & _).
  eauto 10.
Qed.

Lemma update_consistent old line rs n :
  consistent (with_defaults rs) n ->
  consistent (fst (update_pentanomial old line rs))
             (n + (if scored_game line then 1 else 0)).
Proof.
  intros Hc. unfold update_pentanomial.
  unfold bind at 1. rewrite init_rounds_run. cbv zeta.
  set (rs1 := with_defaults rs) in *.
  pose proof (is_finished_game_state (Py.split_ws line) rs1) as Hst.
  pose proof (is_finished_game_true (Py.split_ws line) rs1) as Htr.
  unfold bind at 1.
  destruct (is_finished_game (Py.split_ws line) rs1) as [s [[|]|e]];
    simpl in Hst, Htr; subst s.
  - destruct Htr as [Htr _].
    destruct (Htr eq_refl) as (t2 & t3 & t4 & t5 & t6 & rest & Etoks).
    rewrite (scored_game_false line _ _ _ _ _ _ Etoks). rewrite Etoks.
    destruct (Py.int t2) as [r|] eqn:Hint.
    + destruct Hc as (p & t & Hp & Ht & Lp & Lt & Hrest).
      assert (Hc : consistent rs1 n) by (exists p, t; tauto).
      unfold bind at 1. unfold bind at 1.
      rewrite (store_game_run _ _ _ _ _ _ _ _ r rs1 t Hint Ht Lt).
      destruct (pair_of_shape r) as (odd & Epair & Hodd & _).
      rewrite Epair. cbn [fst snd].
      pose proof (stored_consistent rs1 n r (record_of t3 t5 t6) Hc
                    (result_to_score_range t6)) as Hc1.
      pose proof (pair_games_consistent _ _ odd Hc1 Hodd) as Hc2.
      rewrite bool_decide_eq_true_2 by eauto. cbn [andb].
      change (result (record_of t3 t5 t6)) with (result_to_score t6) in Hc2.
      assert (Esc : (if negb (result_to_score t6 =? -1) then 1 else 0)
                    = (if result_to_score t6 =? -1 then 0 else 1))
        by (destruct (result_to_score t6 =? -1); reflexivity).
      rewrite Esc.
      destruct (pair_games odd (odd + 1) (stored r (record_of t3 t5 t6) rs1))
        as [s2 [[]|e]]; simpl in Hc2.
      * rewrite cumulative_pentanomial_state. exact Hc2.
      * exact Hc2.
    + unfold bind at 1. unfold bind at 1.
      rewrite store_game_bad_round by exact Hint.
      rewrite bool_decide_eq_false_2 by (apply is_Some_None).
      simpl. by rewrite Z.add_0_r.
  - unfold bind at 1. unfold ret at 1.
    rewrite cumulative_pentanomial_state.
    destruct (scored_game line) eqn:Es; [|by rewrite Z.add_0_r].
    apply scored_game_finished in Es. apply Htr in Es. discriminate Es.
  - simpl.
    destruct (scored_game line) eqn:Es; [|by rewrite Z.add_0_r].
    apply scored_game_finished in Es. apply Htr in Es. discriminate Es.
Qed.

Lemma feed_cons old l ls rs :
  feed old (l :: ls) rs =
  match update_pentanomial old l rs with
  | (rs', Ret _) => feed old ls rs'
  | (rs', Raise e) => (rs', Raise e)
  end.
Proof.
  unfold feed. simpl. unfold bind.
  destruct (update_pentanomial old l rs) as [rs' [x|e]]; reflexivity.
Qed.

Lemma feed_consistent old lines rs n :
  consistent rs n ->
  consistent (fst (feed old lines rs)) (n + folded_games old lines rs).
Proof.
  revert rs n. induction lines as [|l ls IH]; intros rs n Hc.
  - simpl. by rewrite Z.add_0_r.
  - rewrite feed_cons. simpl folded_games.
    pose proof (update_consistent old l rs n) as Hu.
    rewrite (with_defaults_consistent rs n Hc) in Hu. specialize (Hu Hc).
    destruct (update_pentanomial old l rs) as [rs' [x|e]]; simpl in Hu.
    + rewrite Z.add_assoc. apply IH. exact Hu.
    + simpl. by rewrite Z.add_0_r.
Qed.

(** C1. For every non-empty sequence of lines that [run_game] feeds to
    [update_pentanomial] in one batch, [rounds] starting empty and the
    feeding stopping at the first exception, the state reached has every
    entry of [trinomial] (of length 3) at least 0, and
    [sum(trinomial) + 2 * sum(pentanomial)] equals the number of games
    with a known result folded in so far.  Every prefix of a sequence is
    a sequence, so this holds after every event. *)
Theorem accumulator_invariant old first rest :
  let rs := fst (feed old (first :: rest) empty_rounds) in
  exists p t,
    pentanomial rs = Some p /\ trinomial rs = Some t /\ length t = 3%nat /\
    (forall k v, t !! k = Some v -> 0 <= v) /\
    Py.sum t + 2 * Py.sum p = folded_games old (first :: rest) empty_rounds.
Proof.
  intros rs.
  assert (Hc : consistent rs (folded_games old (first :: rest) empty_rounds)).
  { subst rs. rewrite feed_cons. simpl folded_games.
    pose proof (update_consistent old first empty_rounds 0 consistent_empty) as Hu.
    destruct (update_pentanomial old first empty_rounds) as [rs' [x|e]]; simpl in Hu.
    - apply feed_consistent. exact Hu.
    - simpl. rewrite Z.add_0_r. exact Hu. }
  destruct Hc as (p & t & Hp & Ht & Lp & Lt & Hk & Hl & Hs).
  exists p, t. repeat split; try assumption.
  intros k v Hv. specialize (Hl k v Hv). lia.
Qed.

(** ** The pairing step *)

Lemma feed_from_empty old first rest :
  consistent (fst (feed old (first :: rest) empty_rounds))
             (folded_games old (first :: rest) empty_rounds).
Proof.
  rewrite feed_cons. simpl folded_games.
  pose proof (update_consistent old first empty_rounds 0 consistent_empty) as Hu.
  destruct (update_pentanomial old first empty_rounds) as [rs' [x|e]]; simpl in Hu.
  - apply feed_consistent. exact Hu.
  - simpl. rewrite Z.add_0_r. exact Hu.
Qed.

Lemma cumulative_pentanomial_run old rs p :
  pentanomial rs = Some p -> length p = 5%nat -> length old = 5%nat ->
  cumulative_pentanomial old rs = (rs, Ret (zip_with Z.add p old)).
Proof.
  intros Hp Lp Lo.
  destruct p as [|p0 [|p1 [|p2 [|p3 [|p4 [|]]]]]]; try discriminate.
  destruct old as [|o0 [|o1 [|o2 [|o3 [|o4 [|]]]]]]; try discriminate.
  destruct rs as [pp tt gg]. simpl in Hp. subst pp. reflexivity.
Qed.

Lemma paired_pentanomial_length odd even o e rs p :
  pentanomial rs = Some p ->
  pentanomial (paired odd even o e rs)
  = Some (entry_add (result o + 2 - result e) 1 p).
Proof. intros H. unfold paired. simpl. by rewrite H. Qed.

(** C2, as amended.  In a state reached by the batch so far, let a
    [Finished game] line for round [r] be processed, and let both records
    of the pair of [r] then exist with known scores [i] (odd round) and
    [j] (even round) and pass the three assertions on the names.  Then
    the call returns, [pentanomial[i+2-j]] is one more than before the
    call, [trinomial] is the list after the fold of the line with
    [trinomial[i]] and [trinomial[2-j]] each decremented once, both
    entries are at least 0 afterwards, and both records are deleted. *)
Theorem pairing_completes old lines line t2 t3 t4 t5 t6 rest r odd even o e rs :
  feed old lines empty_rounds = (rs, Ret tt) ->
  length old = 5%nat ->
  Py.split_ws line = "Finished" :: "game" :: t2 :: t3 :: t4 :: t5 :: t6 :: rest ->
  Py.int t2 = Some r ->
  pair_of r = (odd, even) ->
  <[r := record_of t3 t5 t6]> (games rs) !! odd = Some o ->
  <[r := record_of t3 t5 t6]> (games rs) !! even = Some e ->
  result o <> -1 -> result e <> -1 ->
  pairing_identity o e = true ->
  let i := result o in
  let j := result e in
  exists p t pent,
    pentanomial rs = Some p /\
    trinomial (stored r (record_of t3 t5 t6) rs) = Some t /\
    update_pentanomial old line rs =
      ({| pentanomial := Some (entry_add (i + 2 - j) 1 p);
          trinomial := Some (entry_add (2 - j) (-1) (entry_add i (-1) t));
          games := delete even (delete odd (<[r := record_of t3 t5 t6]> (games rs))) |},
       Ret pent) /\
    0 <= i + 2 - j < 5 /\
    0 <= entry_add (2 - j) (-1) (entry_add i (-1) t) !!! Z.to_nat i /\
    0 <= entry_add (2 - j) (-1) (entry_add i (-1) t) !!! Z.to_nat (2 - j).
Proof.
  intros Hfeed Lo Etoks Hint Epair Ho He Hno Hne Hid i j.
  destruct (pair_of_shape r) as (odd' & Epair' & Hodd & Hr).
  rewrite Epair in Epair'. injection Epair' as -> ->.
  rename odd' into odd.
  assert (Hc : exists n, consistent rs n).
  { destruct lines as [|first more].
    - injection Hfeed as <-. exfalso. simpl in Ho, He.
      rewrite lookup_insert_Some in Ho, He. rewrite !lookup_empty in Ho, He.
      destruct Ho as [[Ho _]|[_ ?]]; [|discriminate].
      destruct He as [[He _]|[_ ?]]; [|discriminate]. lia.
    - eexists. pose proof (feed_from_empty old first more) as H.
      rewrite Hfeed in H. exact H. }
  destruct Hc as [n Hc].
  pose proof (stored_consistent rs n r (record_of t3 t5 t6) Hc
                (result_to_score_range t6)) as Hc1.
  set (cur := record_of t3 t5 t6) in *.
  set (n1 := n + (if result cur =? -1 then 0 else 1)) in *.
  assert (Hg : games (stored r cur rs) = <[r := cur]> (games rs)) by reflexivity.
  rewrite <- Hg in Ho, He.
  pose proof (paired_consistent _ _ odd o e Hc1 Hodd Ho He Hno Hne) as Hc2.
  pose proof (pair_games_paired _ _ odd o e Hc1 Hodd Ho He Hid Hno Hne) as Hrun.
  pose proof Hc as Hc0.
  destruct Hc as (p & t0 & Hp & Ht0 & Lp & Lt0 & Hk & _).
  destruct Hc1 as (p1 & t & Hp1 & Ht & Lp1 & Lt & Hk1 & _).
  assert (p1 = p) as -> by (unfold stored in Hp1; simpl in Hp1; congruence).
  pose proof (known_range _ _ _ Hk1 Ho Hno) as Ri.
  pose proof (known_range _ _ _ Hk1 He Hne) as Rj.
  fold i in Ri. fold j in Rj.
  assert (Ht2 : trinomial (paired odd (odd + 1) o e (stored r cur rs))
                = Some (entry_add (2 - j) (-1) (entry_add i (-1) t))).
  { unfold paired. cbn [trinomial]. rewrite Ht. reflexivity. }
  assert (Hp2 : pentanomial (paired odd (odd + 1) o e (stored r cur rs))
                = Some (entry_add (i + 2 - j) 1 p)).
  { unfold paired. cbn [pentanomial]. rewrite Hp1. reflexivity. }
  exists p, t, (zip_with Z.add (entry_add (i + 2 - j) 1 p) old).
  split; [exact Hp|]. split; [exact Ht|]. split; [|split; [lia|]].
  - unfold update_pentanomial.
    eapply bind_run_eq; [apply init_rounds_run|]. cbv beta zeta.
    rewrite (with_defaults_consistent rs n Hc0).
    rewrite Etoks.
    eapply bind_run_eq.
    { pose proof (is_finished_game_state
                    ("Finished" :: "game" :: t2 :: t3 :: t4 :: t5 :: t6 :: rest) rs) as H1.
      pose proof (proj2 (is_finished_game_true
                    ("Finished" :: "game" :: t2 :: t3 :: t4 :: t5 :: t6 :: rest) rs)) as H2.
      destruct (is_finished_game _ rs) as [s b]. simpl in H1, H2. subst s.
      rewrite H2 by eauto 10. reflexivity. }
    cbv beta iota.
    eapply bind_run_eq.
    { eapply bind_run_eq; [apply (store_game_run _ _ _ _ _ _ _ _ r rs t0 Hint Ht0 Lt0)|].
      cbv beta. rewrite Epair. cbn [fst snd]. fold cur. exact Hrun. }
    cbv beta.
    rewrite (cumulative_pentanomial_run old _ (entry_add (i + 2 - j) 1 p));
      [|exact Hp2|by rewrite entry_add_length|exact Lo].
    f_equal. unfold paired. cbn [pentanomial trinomial games stored].
    fold i j. rewrite Hp. f_equal.
    unfold stored in Ht. cbn [trinomial] in Ht. rewrite Ht. reflexivity.
  - assert (Hlen : length (entry_add (2 - j) (-1) (entry_add i (-1) t)) = 3%nat)
      by (by rewrite !entry_add_length).
    split.
    + destruct (lookup_lt_is_Some_2 (entry_add (2 - j) (-1) (entry_add i (-1) t))
                  (Z.to_nat i)) as [v Hv]; [lia|].
      rewrite (list_lookup_total_correct _ _ _ Hv).
      exact (consistent_nonneg _ _ _ _ _ Hc2 Ht2 Hv).
    + destruct (lookup_lt_is_Some_2 (entry_add (2 - j) (-1) (entry_add i (-1) t))
                  (Z.to_nat (2 - j))) as [v Hv]; [lia|].
      rewrite (list_lookup_total_correct _ _ _ Hv).
      exact (consistent_nonneg _ _ _ _ _ Hc2 Ht2 Hv).
Qed.

Lemma pairing_completes_witness :
  feed [0; 0; 0; 0; 0] [game1_line] empty_rounds = (after_game1, Ret tt) /\
  exists pent,
    update_pentanomial [0; 0; 0; 0; 0] game2_line after_game1 =
      ({| pentanomial := Some [0; 1; 0; 0; 0];
          trinomial := Some [0; 0; 0];
          games := ∅ |}, Ret pent).
Proof.
  assert (Hfeed : feed [0; 0; 0; 0; 0] [game1_line] empty_rounds = (after_game1, Ret tt))
    by (vm_compute; reflexivity).
  split; [exact Hfeed|].
  destruct (pairing_completes [0; 0; 0; 0; 0] [game1_line] game2_line
              "2" "(Base-xyz" "vs" "New-abc):" "1-0" ["{White"; "mates}"] 2 1 2
              {| white := "New-abc"; black := "Base-xyz"; result := 1 |}
              {| white := "Base-xyz"; black := "New-abc"; result := 2 |}
              after_game1 Hfeed)
    as (p & t & pent & Hp & Ht & Hrun & _);
    try (vm_compute; reflexivity); try discriminate.
  exists pent.
  injection Hp as <-. injection Ht as <-.
  rewrite Hrun. reflexivity.
Defined.

Lemma pairing_without_identity :
  exists rs1 rs2 o e,
    feed [0; 0; 0; 0; 0] [swapped1_line] empty_rounds = (rs1, Ret tt) /\
    update_pentanomial [0; 0; 0; 0; 0] swapped2_line rs1 = (rs2, Raise AssertionError) /\
    games rs2 !! 1 = Some o /\ games rs2 !! 2 = Some e /\
    result o = 1 /\ result e = 2 /\
    pentanomial rs2 = Some [0; 0; 0; 0; 0].
Proof.
  eexists _, _, _, _.
  split; [vm_compute; reflexivity|].
  split; [vm_compute; reflexivity|].
  repeat split; vm_compute; reflexivity.
Qed.

(** ** The validator *)

Lemma Qltb_lt (x y : Q) : Qltb x y = true <-> (x < y)%Q.
Proof.
  unfold Qltb. rewrite negb_true_iff. split.
  - intros H. apply Qnot_le_lt. intros Hle.
    apply Qle_bool_iff in Hle. congruence.
  - intros H. destruct (Qle_bool y x) eqn:E; [|reflexivity].
    apply Qle_bool_iff in E. exfalso. exact (Qlt_not_le _ _ H E).
Qed.

Lemma Qltb_ge (x y : Q) : Qltb x y = false <-> (y <= x)%Q.
Proof.
  unfold Qltb. rewrite negb_false_iff. apply Qle_bool_iff.
Qed.

Lemma results_to_score_weighted l : results_to_score l = weighted 2 l.
Proof.
  unfold results_to_score, weighted. generalize 0%nat.
  induction l as [|r l IH]; intros i; simpl; [reflexivity|].
  rewrite IH. reflexivity.
Qed.

Lemma spec_score3_closed W L D :
  (spec_score3 W L D == inject_Z D * (1 # 2) + inject_Z W)%Q.
Proof. unfold spec_score3, weighted. simpl. ring. Qed.

Lemma validate_pentanomial_run W L D p t g :
  validate_pentanomial (W, L, D) (counters p t g) =
  (counters p t g,
   if negb (W + L + D =? 2 * Py.sum p + Py.sum t) then Raise AssertionError
   else if Qltb (Qabs (code_score5 p t - spec_score3 W L D)) epsilon then Ret tt
   else Raise AssertionError).
Proof.
  unfold validate_pentanomial, get_pentanomial, get_trinomial, bind, get, or_raise,
    assert, ret, raise, code_score5, spec_score3. simpl.
  rewrite !results_to_score_weighted.
  replace (L + (D + (W + 0))) with (W + L + D) by lia.
  destruct (W + L + D =? 2 * Py.sum p + Py.sum t); simpl; [|reflexivity].
  destruct (Qltb _ epsilon); reflexivity.
Qed.

Lemma validate_pentanomial_state wld rs : fst (validate_pentanomial wld rs) = rs.
Proof.
  destruct wld as [[W L] D]. destruct rs as [[p|] [t|] g]; try reflexivity.
  change (fst (validate_pentanomial (W, L, D) (counters p t g)) = counters p t g).
  rewrite validate_pentanomial_run. reflexivity.
Qed.

Lemma validate_quarter_weights_fail :
  validate_pentanomial (2, 0, 0) (counters [0; 0; 0; 0; 1] [0; 0; 0] ∅)
    = (counters [0; 0; 0; 0; 1] [0; 0; 0] ∅, Ret tt) /\
  ~ Qlt (Qabs (Qminus (spec_score5 [0; 0; 0; 0; 1] [0; 0; 0]) (spec_score3 2 0 0))) epsilon.
Proof.
  split; [vm_compute; reflexivity|].
  intros H. vm_compute in H. discriminate H.
Qed.

(** C3, as amended.  [validate_pentanomial] returns normally exactly
    when [W+L+D = 2*sum(pentanomial) + sum(trinomial)] and
    [|score5 - score3| < 1e-4], where [score3] is the sum of
    [LDW[k] * (k/2)] over [LDW = [L, D, W]] and [score5] is the sum of
    [pentanomial[k] * (k/2)] plus the sum of [trinomial[k] * (k/2)]. *)
Theorem validate_scores W L D p t g :
  validate_pentanomial (W, L, D) (counters p t g) = (counters p t g, Ret tt) <->
  W + L + D = 2 * Py.sum p + Py.sum t /\
  (Qabs (code_score5 p t - spec_score3 W L D) < epsilon)%Q.
Proof.
  rewrite validate_pentanomial_run. split.
  - intros H.
    destruct (W + L + D =? 2 * Py.sum p + Py.sum t) eqn:Es; simpl in H;
      [|injection H as H; discriminate H].
    destruct (Qltb _ epsilon) eqn:El; [|injection H as H; discriminate H].
    split; [by apply Z.eqb_eq | by apply Qltb_lt].
  - intros [Hs Hl]. apply Z.eqb_eq in Hs. apply Qltb_lt in Hl.
    rewrite Hs, Hl. reflexivity.
Qed.

Lemma code_score5_closed p0 p1 p2 p3 p4 t0 t1 t2 :
  (code_score5 [p0; p1; p2; p3; p4] [t0; t1; t2] ==
   inject_Z p1 * (1 # 2) + inject_Z p2 + inject_Z p3 * (3 # 2) + inject_Z p4 * 2
   + inject_Z t1 * (1 # 2) + inject_Z t2)%Q.
Proof. unfold code_score5, weighted. simpl. ring. Qed.

(** With the two scores of the specification, of which the second
    weights the pentanomial by [k/4], "raises exactly when the scores
    differ" fails both ways.  A pair of two wins, reported as
    [(W,L,D) = (2,0,0)], is accepted although these scores are 2 and 1;
    the same pair reported as [(0,0,2)] is refused although they are
    both 1 and the counts add up. *)
Lemma validate_against_spec_scores :
  validate_pentanomial (2, 0, 0) (counters [0; 0; 0; 0; 1] [0; 0; 0] ∅)
    = (counters [0; 0; 0; 0; 1] [0; 0; 0] ∅, Ret tt) /\
  Qle epsilon (Qabs (Qminus (spec_score5 [0; 0; 0; 0; 1] [0; 0; 0]) (spec_score3 2 0 0))) /\
  validate_pentanomial (0, 0, 2) (counters [0; 0; 0; 0; 1] [0; 0; 0] ∅)
    = (counters [0; 0; 0; 0; 1] [0; 0; 0] ∅, Raise AssertionError) /\
  Qlt (Qabs (Qminus (spec_score5 [0; 0; 0; 0; 1] [0; 0; 0]) (spec_score3 0 0 2))) epsilon /\
  0 + 0 + 2 = 2 * Py.sum [0; 0; 0; 0; 1] + Py.sum [0; 0; 0].
Proof.
  split; [vm_compute; reflexivity|].
  split; [intros H; vm_compute in H; discriminate H|].
  split; [vm_compute; reflexivity|].
  split; [vm_compute; reflexivity|].
  reflexivity.
Qed.

(** C4, as amended.  [validate_pentanomial] accepts [(W,L,D) = (0,0,1)]
    with [trinomial = [0,1,0]] and [pentanomial = [0,0,0,0,0]].  On
    counters that exist it either returns or raises [AssertionError],
    and it raises exactly when [score3], the sum of [LDW[k] * (k/2)],
    and [score5], the sum of [pentanomial[k] * (k/2)] plus the sum of
    [trinomial[k] * (k/2)], differ by at least [1e-4], or [W+L+D]
    differs from [2*sum(pentanomial) + sum(trinomial)].  It never
    changes [rounds]. *)
Theorem validate_accepts_or_raises :
  validate_pentanomial (0, 0, 1) (counters [0; 0; 0; 0; 0] [0; 1; 0] ∅)
    = (counters [0; 0; 0; 0; 0] [0; 1; 0] ∅, Ret tt) /\
  (forall W L D p t g,
     (snd (validate_pentanomial (W, L, D) (counters p t g)) = Raise AssertionError <->
      (epsilon <= Qabs (code_score5 p t - spec_score3 W L D))%Q \/
      W + L + D <> 2 * Py.sum p + Py.sum t) /\
     (snd (validate_pentanomial (W, L, D) (counters p t g)) = Ret tt \/
      snd (validate_pentanomial (W, L, D) (counters p t g)) = Raise AssertionError)) /\
  (forall wld rs, fst (validate_pentanomial wld rs) = rs).
Proof.
  split; [vm_compute; reflexivity|]. split; [|apply validate_pentanomial_state].
  intros W L D p t g. rewrite validate_pentanomial_run. cbn [snd].
  destruct (W + L + D =? 2 * Py.sum p + Py.sum t) eqn:Es; cbn [negb].
  - apply Z.eqb_eq in Es.
    destruct (Qltb (Qabs (code_score5 p t - spec_score3 W L D)) epsilon) eqn:El.
    + apply Qltb_lt in El. split; [|left; reflexivity]. split.
      * intros He. discriminate He.
      * intros [Hge | Hne]; [|contradiction].
        exfalso. exact (Qlt_not_le _ _ El Hge).
    + apply Qltb_ge in El. split; [|right; reflexivity].
      split; [intros _; left; exact El | reflexivity].
  - apply Z.eqb_neq in Es. split; [|right; reflexivity].
    split; [intros _; right; exact Es | reflexivity].
Qed.

(** ** The time-control scaler *)

Lemma append_cons (x : ascii) (s r : string) : String x s ++ r = String x (s ++ r).
Proof. reflexivity. Qed.

Lemma append_empty_l (r : string) : "" ++ r = r.
Proof. reflexivity. Qed.

Lemma append_empty_r (s : string) : s ++ "" = s.
Proof.
  induction s as [|c s IH]; [reflexivity|]. by rewrite append_cons, IH.
Qed.

Lemma append_assoc_string (a b c : string) : (a ++ b) ++ c = a ++ (b ++ c).
Proof.
  induction a as [|x a IH]; [reflexivity|]. by rewrite !append_cons, IH.
Qed.

Lemma append_snoc (s : string) (c : ascii) (r : string) :
  Py.snoc s c ++ r = s ++ String c r.
Proof. unfold Py.snoc. by rewrite append_assoc_string. Qed.

Lemma lacks_app c a b : lacks c (a ++ b) = lacks c a && lacks c b.
Proof.
  induction a as [|x a IH]; [reflexivity|].
  rewrite append_cons. cbn [lacks].
  destruct (ascii_dec c x); [reflexivity | exact IH].
Qed.

Lemma split_aux_lacks c cur a :
  lacks c a = true -> Py.split_aux (String c "") 0 cur a = [cur ++ a].
Proof.
  revert cur. induction a as [|x a IH]; intros cur H.
  - cbn [Py.split_aux]. by rewrite append_empty_r.
  - cbn [Py.split_aux lacks String.prefix] in *.
    destruct (ascii_dec c x); [discriminate|].
    rewrite IH by exact H. by rewrite append_snoc.
Qed.

Lemma split_aux_sep c cur a b :
  lacks c a = true ->
  Py.split_aux (String c "") 0 cur (a ++ String c b)
  = (cur ++ a) :: Py.split_aux (String c "") 0 "" b.
Proof.
  revert cur. induction a as [|x a IH]; intros cur H.
  - rewrite append_empty_l. cbn [Py.split_aux String.prefix String.length Nat.sub].
    destruct (ascii_dec c c); [|congruence].
    replace (String.prefix "" b) with true by (destruct b; reflexivity).
    by rewrite append_empty_r.
  - rewrite append_cons. cbn [Py.split_aux lacks String.prefix] in *.
    destruct (ascii_dec c x); [discriminate|].
    rewrite IH by exact H. by rewrite append_snoc.
Qed.

Lemma split_whole c a :
  lacks c a = true -> Py.split (String c "") a = [a].
Proof. intros H. unfold Py.split. by rewrite split_aux_lacks. Qed.

Lemma split_two c a b :
  lacks c a = true -> lacks c b = true ->
  Py.split (String c "") (a ++ String c b) = [a; b].
Proof.
  intros Ha Hb. unfold Py.split. rewrite split_aux_sep by exact Ha.
  rewrite split_aux_lacks by exact Hb. reflexivity.
Qed.

(** The comparison of floats the other way round. *)
Lemma SFcompare_antisym (x y : Py.binary64) :
  SpecFloat.SFcompare y x = CompOpp <$> SpecFloat.SFcompare x y.
Proof.
  destruct x as [[]|[]| |[] mx ex], y as [[]|[]| |[] my ey]; try reflexivity;
    cbn [SpecFloat.SFcompare fmap option_fmap option_map CompOpp].
  - rewrite (Z.compare_antisym ey ex).
    destruct (ey ?= ex); cbn [CompOpp]; try reflexivity.
    f_equal. rewrite (Pos.compare_cont_antisym mx my Eq). reflexivity.
  - rewrite (Z.compare_antisym ey ex).
    destruct (ey ?= ex); cbn [CompOpp]; try reflexivity.
    f_equal. rewrite (Pos.compare_cont_antisym mx my Eq). reflexivity.
Qed.

Lemma fle_not_flt (a x : Py.binary64) :
  Py.fle a x = true -> Py.flt x a = false.
Proof.
  unfold Py.fle, Py.flt, SpecFloat.SFleb, SpecFloat.SFltb.
  rewrite (SFcompare_antisym a x).
  destruct (SpecFloat.SFcompare a x) as [[]|]; cbn; congruence.
Qed.

Lemma fast_enough (nps : Py.binary64) :
  Py.fle (Py.of_Z 700000) nps = true ->
  Py.truediv (Py.of_Z 1600000) nps = Some (Py.fdiv (Py.of_Z 1600000) nps) /\
  Py.flt nps (Py.of_Z 700000) = false.
Proof.
  intros H. split; [|by apply fle_not_flt].
  unfold Py.truediv. destruct nps as [sign| | |]; try reflexivity.
  discriminate H.
Qed.

Lemma render_tc_head f :
  render_tc f =
  match tc_increment f with
  | Some i => head_part f ++ String "+" i
  | None => head_part f
  end.
Proof.
  unfold render_tc, head_part, time_part.
  destruct (tc_increment f).
  - rewrite ?append_assoc_string. reflexivity.
  - rewrite ?append_empty_r. rewrite ?append_assoc_string. reflexivity.
Qed.

Lemma head_part_moves f :
  head_part f =
  match tc_moves f with
  | Some m => m ++ String "/" (time_part f)
  | None => time_part f
  end.
Proof.
  unfold head_part. destruct (tc_moves f); [|reflexivity].
  rewrite ?append_assoc_string. reflexivity.
Qed.

Lemma time_part_minutes f :
  time_part f =
  match tc_minutes f with
  | Some mm => mm ++ String ":" (tc_seconds f)
  | None => tc_seconds f
  end.
Proof.
  unfold time_part. destruct (tc_minutes f); [|reflexivity].
  rewrite ?append_assoc_string. reflexivity.
Qed.

Lemma separator_free_lacks s :
  separator_free s = true ->
  lacks "+" s = true /\ lacks "/" s = true /\ lacks ":" s = true.
Proof.
  unfold separator_free. intros H.
  apply andb_prop in H as [H H3]. apply andb_prop in H as [H1 H2]. auto.
Qed.

Lemma time_part_lacks f c :
  parts_separator_free f = true -> c = "+"%char \/ c = "/"%char ->
  lacks c (time_part f) = true.
Proof.
  unfold parts_separator_free. intros H Hc.
  apply andb_prop in H as [H _]. apply andb_prop in H as [H Hs].
  apply andb_prop in H as [_ Hm].
  apply separator_free_lacks in Hs as (S1 & S2 & S3).
  rewrite time_part_minutes. destruct (tc_minutes f) as [mm|]; simpl in Hm.
  - apply separator_free_lacks in Hm as (M1 & M2 & M3).
    rewrite lacks_app. cbn [lacks].
    destruct Hc as [-> | ->]; rewrite ?M1, ?M2, ?S1, ?S2; reflexivity.
  - destruct Hc as [-> | ->]; assumption.
Qed.

Lemma head_part_lacks f :
  parts_separator_free f = true -> lacks "+" (head_part f) = true.
Proof.
  intros H. pose proof (time_part_lacks f "+" H (or_introl eq_refl)) as Ht.
  unfold parts_separator_free in H.
  apply andb_prop in H as [H _]. apply andb_prop in H as [H _].
  apply andb_prop in H as [Hm _].
  rewrite head_part_moves. destruct (tc_moves f) as [m|]; simpl in Hm; [|exact Ht].
  apply separator_free_lacks in Hm as (M1 & M2 & M3).
  rewrite lacks_app. cbn [lacks]. rewrite M1, Ht. reflexivity.
Qed.

Lemma split_plus f :
  parts_separator_free f = true ->
  Py.split "+" (render_tc f) =
  match tc_increment f with
  | Some i => [head_part f; i]
  | None => [head_part f]
  end.
Proof.
  intros H. pose proof (head_part_lacks f H) as Hh.
  rewrite render_tc_head. destruct (tc_increment f) as [i|] eqn:Ei.
  - apply split_two; [exact Hh|].
    unfold parts_separator_free in H. rewrite Ei in H.
    apply andb_prop in H as [_ H]. simpl in H.
    by apply separator_free_lacks in H as (? & _).
  - by apply split_whole.
Qed.

Lemma split_slash f :
  parts_separator_free f = true ->
  Py.split "/" (head_part f) =
  match tc_moves f with
  | Some m => [m; time_part f]
  | None => [time_part f]
  end.
Proof.
  intros H. pose proof (time_part_lacks f "/" H (or_intror eq_refl)) as Ht.
  rewrite head_part_moves. destruct (tc_moves f) as [m|] eqn:Em.
  - apply split_two; [|exact Ht].
    unfold parts_separator_free in H. rewrite Em in H.
    apply andb_prop in H as [H _]. apply andb_prop in H as [H _].
    apply andb_prop in H as [H _]. simpl in H.
    by apply separator_free_lacks in H as (_ & ? & _).
  - by apply split_whole.
Qed.

Lemma split_colon f :
  parts_separator_free f = true ->
  Py.split ":" (time_part f) =
  match tc_minutes f with
  | Some mm => [mm; tc_seconds f]
  | None => [tc_seconds f]
  end.
Proof.
  intros H. unfold parts_separator_free in H.
  apply andb_prop in H as [H _]. apply andb_prop in H as [H Hs].
  apply andb_prop in H as [_ Hm].
  apply separator_free_lacks in Hs as (_ & _ & S3).
  rewrite time_part_minutes. destruct (tc_minutes f) as [mm|]; simpl in Hm.
  - apply split_two; [|exact S3]. by apply separator_free_lacks in Hm as (_ & _ & ?).
  - by apply split_whole.
Qed.

Lemma parse_tc_run {S} (f : tc_form) (mv : Z) (t inc : Py.binary64) (s : S) :
  parts_separator_free f = true ->
  tc_values f = Some (mv, t, inc) ->
  parse_tc (render_tc f) s = (s, Ret (inc, mv, t)).
Proof.
  intros Hfree Hval.
  pose proof (split_plus f Hfree) as Hplus.
  pose proof (split_slash f Hfree) as Hslash.
  pose proof (split_colon f Hfree) as Hcolon.
  unfold parse_tc. rewrite Hplus. unfold tc_values in Hval.
  destruct (tc_increment f) as [i|];
    destruct (tc_moves f) as [m|];
    destruct (tc_minutes f) as [mm|];
    repeat match type of Hval with
    | context [Py.int ?x] => destruct (Py.int x) eqn:?
    | context [Py.float ?x] => destruct (Py.float x) eqn:?
    end; try discriminate Hval; injection Hval as <- <- <-.
  all: cbn [length Nat.eqb].
  all: repeat first
    [ eapply bind_run_eq; [reflexivity|]; cbv beta
    | eapply bind_run_eq;
      [eapply bind_run_eq; [reflexivity|]; cbv beta;
       match goal with H : _ = Some _ |- _ => rewrite H end; reflexivity|];
      cbv beta
    | rewrite Hslash; cbn [length Nat.eqb]
    | rewrite Hcolon; cbn [length Nat.eqb] ].
  all: try reflexivity.
  all: unfold bind, token;
    change (Py.index [mm; tc_seconds f] 0) with (Some mm);
    change (Py.index [mm; tc_seconds f] 1) with (Some (tc_seconds f));
    unfold or_raise, ret;
    repeat match goal with H : Py.float _ = Some _ |- _ => rewrite H end;
    reflexivity.
Qed.

(** The string and the limit that lines 189-197 build from the parsed
    values, [moves] being the moves count as a float. *)
Lemma rebuild_tc_run {S} (factor inc t moves : Py.binary64) (mv : Z) (s : S) :
  Py.to_float mv = Some moves ->
  rebuild_tc factor inc mv t s =
  (s, Ret ((if 0 <? mv then Py.fmt_d mv ++ "/" else "") ++
           Py.fmt_3f (Py.fmul t factor) ++
           (if Py.flt (Py.of_Z 0) inc
            then "+" ++ Py.fmt_3f (Py.fmul inc factor) else ""),
           let limit := Py.fmul (Py.fmul t factor) (Py.of_Z 3) in
           let limit :=
             if Py.flt (Py.of_Z 0) inc
             then Py.fadd limit (Py.fmul (Py.fmul inc factor) (Py.of_Z 200))
             else limit in
           if 0 <? mv then Py.fmul limit (Py.fdiv (Py.of_Z 100) moves) else limit)).
Proof.
  intros Hmv. unfold rebuild_tc.
  destruct (Py.flt (Py.of_Z 0) inc); destruct (0 <? mv); cbv zeta.
  all: try (rewrite Hmv; unfold or_raise, bind, ret).
  all: unfold ret;
    rewrite ?append_empty_r, ?append_empty_l, ?append_assoc_string; reflexivity.
Qed.

(** A moves count beyond the floats makes [100.0 / num_moves] raise
    [OverflowError]. *)
Lemma rebuild_tc_overflow {S} (factor inc t : Py.binary64) (mv : Z) (s : S) :
  0 < mv -> Py.to_float mv = None ->
  rebuild_tc factor inc mv t s = (s, Raise OverflowError).
Proof.
  intros Hpos Hmv. unfold rebuild_tc.
  apply Z.ltb_lt in Hpos. rewrite Hpos, Hmv.
  by destruct (Py.flt (Py.of_Z 0) inc).
Qed.

(** C5, as amended.  For a well-formed time control and a speed of at
    least 700000 nps, with [factor = 1600000.0 / nps], [adjust_tc]
    returns the string made of ['%d/'] of the moves count if it is
    positive, of ['%.3f'] of the scaled time, and of ['+%.3f'] of the
    scaled increment if the increment is positive; and the limit
    [(time*factor*3 + increment*factor*200) * (100.0/moves)], the second
    summand only for a positive increment and the last factor only for a
    positive moves count.  The numbers are floats, each product, sum and
    quotient being rounded as Python rounds it; the moves count is one
    that a float can hold. *)
Theorem adjust_tc_scaled {S} (f : tc_form) (mv : Z) (t inc nps moves : Py.binary64)
    (concurrency : Z) (s : S) :
  parts_separator_free f = true ->
  tc_values f = Some (mv, t, inc) ->
  Py.to_float mv = Some moves ->
  Py.fle (Py.of_Z 700000) nps = true ->
  let factor := Py.fdiv (Py.of_Z 1600000) nps in
  adjust_tc (render_tc f) nps concurrency s =
    (s, Ret ((if 0 <? mv then Py.fmt_d mv ++ "/" else "") ++
             Py.fmt_3f (Py.fmul t factor) ++
             (if Py.flt (Py.of_Z 0) inc
              then "+" ++ Py.fmt_3f (Py.fmul inc factor) else ""),
             let limit := Py.fmul (Py.fmul t factor) (Py.of_Z 3) in
             let limit :=
               if Py.flt (Py.of_Z 0) inc
               then Py.fadd limit (Py.fmul (Py.fmul inc factor) (Py.of_Z 200))
               else limit in
             if 0 <? mv then Py.fmul limit (Py.fdiv (Py.of_Z 100) moves) else limit)).
Proof.
  intros Hfree Hval Hmv Hnps factor.
  destruct (fast_enough nps Hnps) as [Hdiv Hslow].
  unfold adjust_tc. rewrite Hdiv, Hslow.
  eapply bind_run_eq; [reflexivity|]. cbv beta.
  eapply bind_run_eq; [reflexivity|]. cbv beta.
  eapply bind_run_eq; [apply (parse_tc_run f mv t inc s Hfree Hval)|]. cbv beta iota.
  fold factor. apply rebuild_tc_run. exact Hmv.
Qed.

Lemma adjust_tc_scaled_witness :
  adjust_tc "10+0.1" (Py.of_Z 1600000) 1 tt
    = (tt, Ret ("10.000+0.100", Py.of_Z 50)) /\
  exists limit,
    adjust_tc "40/15+0.05" (Py.of_Z 3072000) 1 tt
      = (tt, Ret ("40/7.813+0.026", limit)) /\
    Py.fmt_3f limit = "71.615".
Proof.
  split.
  - etransitivity.
    + exact (adjust_tc_scaled
               {| tc_moves := None; tc_minutes := None; tc_seconds := "10";
                  tc_increment := Some "0.1" |}
               0 (Py.of_Z 10)
               (SpecFloat.S754_finite false 7205759403792794 (-56))
               (Py.of_Z 1600000) (Py.of_Z 0) 1 tt
               eq_refl eq_refl eq_refl eq_refl).
    + vm_compute. reflexivity.
  - eexists. split.
    + etransitivity.
      * exact (adjust_tc_scaled
                 {| tc_moves := Some "40"; tc_minutes := None; tc_seconds := "15";
                    tc_increment := Some "0.05" |}
                 40 (Py.of_Z 15)
                 (SpecFloat.S754_finite false 7205759403792794 (-57))
                 (Py.of_Z 3072000) (Py.of_Z 40) 1 tt
                 eq_refl eq_refl eq_refl eq_refl).
      * vm_compute. reflexivity.
    + vm_compute. reflexivity.
Defined.

Lemma adjust_tc_drops_zero_increment :
  let f := {| tc_moves := None; tc_minutes := None; tc_seconds := "10";
              tc_increment := Some "0" |} in
  render_tc f = "10+0" /\
  parts_separator_free f = true /\
  tc_values f = Some (0, Py.of_Z 10, Py.of_Z 0) /\
  exists limit,
    adjust_tc (render_tc f) (Py.of_Z 1600000) 1 tt = (tt, Ret ("10.000", limit)) /\
    Py.contains "+" (render_tc f) = true /\ Py.contains "+" "10.000" = false.
Proof.
  cbv zeta. repeat split; try reflexivity.
  eexists. repeat split; vm_compute; reflexivity.
Qed.

(** The scaled times are rounded as floats: [15 * (1600000.0 / 3072000.0)]
    is a float above 7.8125 and prints as 7.813, and
    [0.005 * 0.5] a float above 0.0025. *)
Example adjust_tc_rounds_as_python :
  (exists limit,
     adjust_tc "15+0.05" (Py.of_Z 3072000) 1 tt = (tt, Ret ("7.813+0.026", limit))) /\
  (exists limit,
     adjust_tc "10+0.005" (Py.of_Z 3200000) 1 tt = (tt, Ret ("5.000+0.003", limit))) /\
  (exists limit,
     adjust_tc "10+0.1" SpecFloat.S754_nan 1 tt = (tt, Ret ("nan+nan", limit))) /\
  adjust_tc (String.concat "" ("1" :: repeat "0" 400) ++ "/10") (Py.of_Z 1600000) 1 tt
    = (tt, Raise OverflowError).
Proof.
  split; [|split; [|split]].
  - eexists. vm_compute. reflexivity.
  - eexists. vm_compute. reflexivity.
  - eexists. vm_compute. reflexivity.
  - vm_compute. reflexivity.
Qed.

(** C6, at the failing input.  For a measured speed of 0 nps, which is
    below 700000, [adjust_tc] raises [ZeroDivisionError] for every time
    control: the quotient [1600000.0 / base_nps] is formed before the
    speed is tested, so [sys.exit(1)] is not reached.  The speed is
    [0.0] or [-0.0]. *)
Theorem adjust_tc_zero_speed {S} (tc : string) (concurrency : Z) (s : S) (sign : bool) :
  adjust_tc tc (SpecFloat.S754_zero sign) concurrency s = (s, Raise ZeroDivisionError).
Proof. reflexivity. Qed.

Lemma adjust_tc_too_slow {S} (tc : string) (nps : Py.binary64) (concurrency : Z) (s : S) :
  Py.flt nps (Py.of_Z 700000) = true -> Py.is_zero nps = false ->
  adjust_tc tc nps concurrency s = (s, Raise (SystemExit 1)).
Proof.
  intros Hslow Hnz. unfold adjust_tc, Py.truediv. rewrite Hnz.
  unfold bind, or_raise, ret. rewrite Hslow. reflexivity.
Qed.

Example adjust_tc_650000 :
  adjust_tc "10+0.1" (Py.of_Z 650000) 1 tt = (tt, Raise (SystemExit 1)).
Proof. reflexivity. Qed.

(** ** The bench verifier *)

Lemma emit_run a tr : emit a tr = ((tr ++ [a])%list, Ret tt).
Proof. reflexivity. Qed.

Lemma verify_signature_teardown engine signature concurrency b tr :
  1 < concurrency ->
  exists tr0, fst (verify_signature engine signature concurrency b tr)
              = (tr0 ++ [QuitBusy])%list.
Proof.
  intros Hc. apply Z.ltb_lt in Hc. unfold verify_signature. rewrite Hc.
  unfold bind at 1. rewrite emit_run.
  unfold bind at 1. unfold try_finally.
  match goal with
  | |- context [let (s', r) := ?body ?s in _] => destruct (body s) as [tr1 r1]
  end.
  rewrite emit_run.
  exists tr1. destruct r1 as [[x|]|e]; reflexivity.
Qed.

Lemma bench_exit_without_stop_run :
  verify_signature "/w/testing/stockfish_abc" "5290994" 1 bench_crashed []
  = ([RunBench "/w/testing/stockfish_abc"],
     Raise (Exception_ "Bench exited with non-zero code 1")).
Proof. reflexivity. Qed.

(** C9, as amended.  When concurrency is above 1 the busy engine is
    quit whatever the outcome.  When the bench output is read without an
    error: a non-zero return code makes [verify_signature] raise without
    a request to [/api/stop_run]; with return code 0 and a signature that
    differs from the expected one, the message is posted to
    [/api/stop_run] and an exception is raised; with return code 0, the
    expected signature and a [Nodes/second] line, the measured speed is
    returned. *)
Theorem verify_signature_outcomes engine signature concurrency b tr :
  let busy := 1 <? concurrency in
  let before :=
    (tr ++ (if busy then [SpawnBusy (concurrency - 1)] else []) ++ [RunBench engine])%list in
  let after := if busy then [QuitBusy] else [] in
  (busy = true ->
   exists tr0, fst (verify_signature engine signature concurrency b tr)
               = (tr0 ++ [QuitBusy])%list) /\
  (forall bench_sig bench_nps,
     scan_bench (bench_stderr b) "" None = Ret (bench_sig, bench_nps) ->
     (bench_returncode b <> 0 ->
      verify_signature engine signature concurrency b tr =
        ((before ++ after)%list,
         Raise (Exception_ ("Bench exited with non-zero code "
                            ++ Py.fmt_d (bench_returncode b))))) /\
     (bench_returncode b = 0 ->
      forall got expected,
        Py.int bench_sig = Some got -> Py.int signature = Some expected ->
        (got <> expected ->
         exists e,
           verify_signature engine signature concurrency b tr =
             ((before ++ [PostStopRun (wrong_bench engine signature bench_sig)]
                      ++ after)%list,
              Raise e)) /\
        (got = expected ->
         forall x, bench_nps = Some x ->
           verify_signature engine signature concurrency b tr =
             ((before ++ after)%list, Ret x)))).
Proof.
  intros busy before after. split.
  - intros Hb. apply verify_signature_teardown. by apply Z.ltb_lt.
  - intros bench_sig bench_nps Hscan.
    unfold verify_signature, try_finally, pure. rewrite Hscan. fold busy.
    subst before after.
    split; [intros Hrc | intros Hrc got expected Hgot Hexp; split; [intros Hne | intros -> x ->]].
    + apply Z.eqb_neq in Hrc.
      destruct busy; unfold bind, emit, modify, ret, raise, or_raise; rewrite Hrc;
        cbn [negb fst snd]; rewrite <- ?app_assoc; reflexivity.
    + apply Z.eqb_neq in Hne.
      destruct (stop_run_failure b) as [e|];
        [exists e | exists (Exception_ (wrong_bench engine signature bench_sig))].
      all: destruct busy; unfold bind, emit, modify, ret, raise, or_raise.
      all: repeat first
             [ rewrite Hrc | rewrite Hgot | rewrite Hexp | rewrite Hne
             | progress cbn [negb fst snd Z.eqb] | progress cbv beta iota
             | progress unfold ret, raise ].
      all: rewrite <- ?app_assoc; reflexivity.
    + destruct busy; unfold bind, emit, modify, ret, raise, or_raise.
      all: repeat first
             [ rewrite Hrc | rewrite Hgot | rewrite Hexp | rewrite Z.eqb_refl
             | progress cbn [negb fst snd Z.eqb] | progress cbv beta iota
             | progress unfold ret, raise ].
      all: rewrite <- ?app_assoc; reflexivity.
Qed.

Lemma verify_signature_outcomes_witness :
  scan_bench (bench_stderr bench_ok) "" None = Ret ("5290994", Some (Py.of_Z 2330834)) /\
  verify_signature "/w/testing/stockfish_abc" "5290994" 3 bench_ok []
  = ([SpawnBusy 2; RunBench "/w/testing/stockfish_abc"; QuitBusy], Ret (Py.of_Z 2330834)).
Proof.
  split; [reflexivity|].
  destruct (verify_signature_outcomes "/w/testing/stockfish_abc" "5290994" 3 bench_ok [])
    as [_ H].
  destruct (H "5290994" (Some (Py.of_Z 2330834)) eq_refl) as [_ H0].
  destruct (H0 eq_refl 5290994 5290994 eq_refl eq_refl) as [_ H1].
  exact (H1 eq_refl _ eq_refl).
Defined.

(** ** The reporter and the batch loop *)

(** [run_games] raises ['No games remaining'] exactly when the task has
    no game left, and otherwise begins with a positive
    [games_remaining]. *)
Lemma begin_run_games_outcome (task_stats : stats) (task_num_games : Z) :
  let played := wins task_stats + losses task_stats + draws task_stats in
  (task_num_games <= played ->
   begin_run_games task_stats task_num_games = Raise (Exception_ "No games remaining")) /\
  (played < task_num_games ->
   begin_run_games task_stats task_num_games
     = Ret (initial_world task_stats task_num_games) /\
   0 < games_remaining (initial_world task_stats task_num_games)).
Proof.
  cbv zeta. unfold begin_run_games. cbn [initial_world games_remaining]. split.
  - intros H. destruct (Z.leb_spec (task_num_games
        - (wins task_stats + losses task_stats + draws task_stats)) 0); [reflexivity | lia].
  - intros H. destruct (Z.leb_spec (task_num_games
        - (wins task_stats + losses task_stats + draws task_stats)) 0); [lia|].
    split; [reflexivity | lia].
Qed.

Example begin_run_games_ex :
  begin_run_games zero_stats 10 = Ret sample_start /\
  begin_run_games (old_stats resumed_start) 10 = Ret resumed_start /\
  begin_run_games (old_stats resumed_start) 4 = Raise (Exception_ "No games remaining").
Proof. repeat split; reflexivity. Qed.

Lemma world_eq (w1 w2 : world) :
  rounds w1 = rounds w2 -> result_stats w1 = result_stats w2 -> spsa w1 = spsa w2 ->
  num_game_pairs_updated w1 = num_game_pairs_updated w2 ->
  old_stats w1 = old_stats w2 -> games_remaining w1 = games_remaining w2 ->
  posts w1 = posts w2 -> trace w1 = trace w2 -> w1 = w2.
Proof. destruct w1, w2; simpl; intros; subst; reflexivity. Qed.

Ltac world_fields :=
  cbn [rounds result_stats spsa num_game_pairs_updated old_stats games_remaining
       posts trace set_rounds set_result_stats set_spsa set_num_game_pairs_updated
       set_old_stats set_games_remaining set_posts set_trace].

Lemma perform_run a w : perform a w = (set_trace (trace w ++ [a])%list w, Ret tt).
Proof. reflexivity. Qed.

Lemma post_update_task_run replies w :
  post_update_task replies w =
  (set_posts (S (posts w))
     (set_trace (trace w ++ [PostUpdateTask (result_stats w)])%list w),
   Ret (replies (posts w))).
Proof. reflexivity. Qed.

Lemma failed_attempts_S n s :
  failed_attempts (S n) s
  = ([PostUpdateTask s; Sleep HTTP_TIMEOUT] ++ failed_attempts n s)%list.
Proof. reflexivity. Qed.

Lemma all_fail_S replies from n :
  all_fail replies from (S n) ->
  (exists e, replies from = Failed e /\ is_Exception e = true) /\
  all_fail replies (S from) n.
Proof.
  intros H. split.
  - destruct (H 0%nat) as (e & He & Hx); [lia|].
    rewrite Nat.add_0_r in He. eauto.
  - intros k Hk. destruct (H (S k)) as (e & He & Hx); [lia|].
    exists e. split; [|exact Hx]. rewrite <- He. f_equal. lia.
Qed.

Lemma update_attempts_failed replies n w :
  all_fail replies (posts w) n ->
  update_attempts replies n w =
  (set_posts (posts w + n)
     (set_trace (trace w ++ failed_attempts n (result_stats w))%list w),
   Ret Exhausted).
Proof.
  revert w. induction n as [|n IH]; intros w Hf.
  - cbn [update_attempts]. unfold ret. f_equal.
    apply world_eq; world_fields; try reflexivity; [lia | by rewrite app_nil_r].
  - apply all_fail_S in Hf as [(e & He & Hx) Hrest].
    cbn [update_attempts].
    eapply bind_run_eq; [apply post_update_task_run|]. cbv beta.
    rewrite He, Hx.
    eapply bind_run_eq; [apply perform_run|]. cbv beta.
    rewrite IH by exact Hrest.
    f_equal. apply world_eq; world_fields; try reflexivity; [lia|].
    rewrite failed_attempts_S. rewrite <- !app_assoc. reflexivity.
Qed.

Lemma update_attempts_cancelled replies n k w response :
  (k < n)%nat -> all_fail replies (posts w) k ->
  replies (posts w + k)%nat = Reply response -> task_alive response = false ->
  update_attempts replies n w =
  (set_posts (posts w + k + 1)
     (set_trace (trace w ++ failed_attempts k (result_stats w)
                 ++ [PostUpdateTask (result_stats w); KillProcess])%list w),
   Ret (Cancelled response)).
Proof.
  revert n w. induction k as [|k IH]; intros n w Hk Hf Hr Ha.
  - destruct n as [|n]; [lia|]. cbn [update_attempts].
    eapply bind_run_eq; [apply post_update_task_run|]. cbv beta.
    rewrite Nat.add_0_r in Hr. rewrite Hr, Ha. cbn [negb].
    eapply bind_run_eq; [apply perform_run|]. cbv beta.
    unfold ret. f_equal. apply world_eq; world_fields; try reflexivity; [lia|].
    rewrite <- !app_assoc. reflexivity.
  - destruct n as [|n]; [lia|].
    apply all_fail_S in Hf as [(e & He & Hx) Hrest].
    cbn [update_attempts].
    eapply bind_run_eq; [apply post_update_task_run|]. cbv beta.
    rewrite He, Hx.
    eapply bind_run_eq; [apply perform_run|]. cbv beta.
    rewrite (IH n); [| lia | exact Hrest | | exact Ha].
    2: { cbn [posts set_trace set_posts]. rewrite <- Hr. f_equal. lia. }
    f_equal. apply world_eq; world_fields; try reflexivity; [lia|].
    rewrite failed_attempts_S. rewrite <- !app_assoc. reflexivity.
Qed.

Section Keeps.
Context {X : Type} (proj : world -> X).

Lemma keeps_ret {A} (a : A) : keeps proj (ret a).
Proof. intros w. reflexivity. Qed.

Lemma keeps_raise {A} e : keeps proj (@raise world A e).
Proof. intros w. reflexivity. Qed.

Lemma keeps_pure {A} (r : res A) : keeps proj (pure r).
Proof. intros w. reflexivity. Qed.

Lemma keeps_or_raise {A} e (o : option A) : keeps proj (or_raise e o).
Proof. intros w. destruct o; reflexivity. Qed.

Lemma keeps_get : keeps proj get.
Proof. intros w. reflexivity. Qed.

Lemma keeps_modify (f : world -> world) :
  (forall w, proj (f w) = proj w) -> keeps proj (modify f).
Proof. intros H w. apply H. Qed.

Lemma keeps_bind {A B} (m : St world A) (k : A -> St world B) :
  keeps proj m -> (forall a, keeps proj (k a)) -> keeps proj (bind m k).
Proof.
  intros Hm Hk w. unfold bind. specialize (Hm w).
  destruct (m w) as [w' [a|e]]; simpl in *; [|exact Hm].
  rewrite Hk. exact Hm.
Qed.

Lemma keeps_on_rounds_other {A} (m : St rounds_t A) :
  (forall rs w, proj (set_rounds rs w) = proj w) -> keeps proj (on_rounds m).
Proof.
  intros H w. unfold on_rounds. destruct (m (rounds w)) as [rs r]. apply H.
Qed.
End Keeps.

Lemma keeps_on_rounds {A} (m : St rounds_t A) :
  (forall rs, fst (m rs) = rs) -> keeps rounds (on_rounds m).
Proof.
  intros H w. unfold on_rounds. specialize (H (rounds w)).
  destruct (m (rounds w)) as [rs r]. simpl in *. exact H.
Qed.

Lemma get_trinomial_state rs : fst (get_trinomial rs) = rs.
Proof. unfold get_trinomial, bind, get, or_raise. destruct (trinomial rs); reflexivity. Qed.

Lemma get_pentanomial_state rs : fst (get_pentanomial rs) = rs.
Proof. unfold get_pentanomial, bind, get, or_raise. destruct (pentanomial rs); reflexivity. Qed.

Ltac keeps :=
  repeat first
    [ apply keeps_ret | apply keeps_raise | apply keeps_pure | apply keeps_or_raise
    | apply keeps_get
    | apply keeps_modify; intros; reflexivity
    | apply keeps_on_rounds_other; intros; reflexivity
    | apply keeps_on_rounds;
      first [apply get_trinomial_state | apply get_pentanomial_state
            | apply validate_pentanomial_state]
    | apply keeps_bind; [|intros ?]
    | match goal with
      | |- keeps _ (if ?b then _ else _) => destruct b
      | |- keeps _ (match ?x with _ => _ end) => destruct x
      end ].

Lemma keeps_perform {X} (proj : world -> X) a :
  (forall tr w, proj (set_trace tr w) = proj w) -> keeps proj (perform a).
Proof. intros H. unfold perform. apply keeps_modify. intros w. apply H. Qed.

Lemma keeps_update_attempts {X} (proj : world -> X) replies n :
  (forall tr w, proj (set_trace tr w) = proj w) ->
  (forall k w, proj (set_posts k w) = proj w) ->
  keeps proj (update_attempts replies n).
Proof.
  intros Htr Hposts.
  induction n as [|n IH]; cbn [update_attempts]; [apply keeps_ret|].
  apply keeps_bind.
  - unfold post_update_task. apply keeps_bind; [apply keeps_get|]. intros w.
    apply keeps_bind; [by apply keeps_perform|]. intros _.
    apply keeps_bind; [|intros; apply keeps_ret].
    apply keeps_modify. intros w0. apply Hposts.
  - intros [response|e].
    + destruct (negb (task_alive response)); [|apply keeps_ret].
      apply keeps_bind; [by apply keeps_perform | intros; apply keeps_ret].
    + destruct (is_Exception e); [|apply keeps_raise].
      apply keeps_bind; [by apply keeps_perform | intros; exact IH].
Qed.

Lemma keeps_report {X} (proj : world -> X) replies :
  (forall tr w, proj (set_trace tr w) = proj w) ->
  (forall k w, proj (set_posts k w) = proj w) ->
  (forall k w, proj (set_num_game_pairs_updated k w) = proj w) ->
  keeps proj (on_rounds get_pentanomial) ->
  keeps proj (report replies).
Proof.
  intros Htr Hposts Hup Hget.
  unfold report. apply keeps_bind; [exact Hget|]. intros p.
  apply keeps_bind; [apply keeps_get|]. intros w.
  destruct (_ <? _); [|apply keeps_ret].
  apply keeps_bind; [by apply keeps_update_attempts|].
  intros [| |].
  - apply keeps_bind; [|intros; apply keeps_ret].
    apply keeps_modify. intros w0. apply Hup.
  - apply keeps_ret.
  - apply keeps_bind; [by apply keeps_perform | intros; apply keeps_ret].
Qed.

Lemma keeps_rounds_report replies : keeps rounds (report replies).
Proof. apply keeps_report; try (intros; reflexivity). keeps. Qed.

Lemma keeps_baseline_report replies : keeps baseline (report replies).
Proof. apply keeps_report; try (intros; reflexivity). keeps. Qed.

Lemma keeps_rounds_record_score st wld : keeps rounds (record_score st wld).
Proof. destruct wld as [[W L] D]. unfold record_score. keeps. Qed.

Lemma keeps_baseline_record_score st wld : keeps baseline (record_score st wld).
Proof. destruct wld as [[W L] D]. unfold record_score. keeps. Qed.

Lemma keeps_rounds_count_faults line : keeps rounds (count_faults line).
Proof. unfold count_faults. keeps. Qed.

Lemma keeps_baseline_count_faults line : keeps baseline (count_faults line).
Proof. unfold count_faults. keeps. Qed.

Lemma keeps_rounds_score_block st replies line :
  keeps rounds (score_block st replies line).
Proof.
  unfold score_block. apply keeps_bind; [keeps|]. intros wld.
  apply keeps_bind; [keeps|]. intros _.
  apply keeps_bind; [apply keeps_rounds_record_score|]. intros _.
  apply keeps_rounds_report.
Qed.

Lemma keeps_baseline_score_block st replies line :
  keeps baseline (score_block st replies line).
Proof.
  unfold score_block. apply keeps_bind; [keeps|]. intros wld.
  apply keeps_bind; [keeps|]. intros _.
  apply keeps_bind; [apply keeps_baseline_record_score|]. intros _.
  apply keeps_baseline_report.
Qed.

Lemma keeps_baseline_handle_line st replies line :
  keeps baseline (handle_line st replies line).
Proof.
  unfold handle_line. destruct (Py.contains "Finished match" line).
  - unfold kill_process.
    apply keeps_bind; [apply keeps_perform; intros; reflexivity | intros; apply keeps_ret].
  - apply keeps_bind; [apply keeps_baseline_count_faults|]. intros _.
    apply keeps_bind.
    + destruct (Py.contains "Score" line);
        [apply keeps_baseline_score_block | apply keeps_ret].
    + intros [| |s]; keeps.
Qed.

Lemma keeps_baseline_tick_step st replies t : keeps baseline (tick_step st replies t).
Proof.
  destruct t as [line|poll]; cbn [tick_step].
  - apply keeps_baseline_handle_line.
  - destruct (truthy poll); [apply keeps_ret|].
    apply keeps_bind; [apply keeps_perform; intros; reflexivity | intros; apply keeps_ret].
Qed.

Lemma advance_baseline st replies ts w w1 :
  advance st replies ts w = Some w1 -> baseline w1 = baseline w.
Proof.
  revert w. induction ts as [|t ts IH]; intros w Ha; cbn [advance] in Ha.
  - by injection Ha as <-.
  - pose proof (keeps_baseline_tick_step st replies t w) as Hs.
    destruct (tick_step st replies t w) as [w' [[| |]|e]]; try discriminate Ha.
    rewrite (IH _ Ha). exact Hs.
Qed.

Lemma keeps_baseline_launch_preamble cmd st gtp env :
  keeps baseline (launch_preamble cmd st gtp env).
Proof.
  unfold launch_preamble.
  apply keeps_bind; [keeps|]. intros _.
  apply keeps_bind.
  - destruct st; [|apply keeps_ret].
    apply keeps_bind; [apply keeps_perform; intros; reflexivity | intros; apply keeps_pure].
  - intros params. apply keeps_bind; [apply keeps_or_raise|]. intros c1.
    apply keeps_bind; [apply keeps_or_raise|]. intros c2.
    apply keeps_perform; intros; reflexivity.
Qed.

Lemma rounds_ok_defaults rs :
  rounds_ok rs -> exists n, consistent (with_defaults rs) n.
Proof.
  intros [-> | [n Hc]].
  - exists 0. apply consistent_empty.
  - exists n. by rewrite (with_defaults_consistent rs n Hc).
Qed.

Lemma update_pentanomial_rounds_ok old line rs :
  rounds_ok rs -> rounds_ok (fst (update_pentanomial old line rs)).
Proof.
  intros H. apply rounds_ok_defaults in H as [n Hc]. right.
  eexists. apply (update_consistent old line rs n Hc).
Qed.

Lemma handle_line_rounds_ok st replies line w :
  rounds_ok (rounds w) -> rounds_ok (rounds (fst (handle_line st replies line w))).
Proof.
  intros Hok. unfold handle_line.
  destruct (Py.contains "Finished match" line).
  { assert (K : keeps rounds (kill_process;; ret (Return {| task_alive := true |})))
      by (unfold kill_process; apply keeps_bind;
          [apply keeps_perform; intros; reflexivity | intros; apply keeps_ret]).
    by rewrite K. }
  unfold bind at 1. pose proof (keeps_rounds_count_faults line w) as K1.
  destruct (count_faults line w) as [w1 [[]|e]]; simpl in K1; [|cbn [fst]; by rewrite K1].
  unfold bind at 1.
  assert (K2 : keeps rounds (if Py.contains "Score" line
                             then score_block st replies line else ret Next)).
  { destruct (Py.contains "Score" line); [apply keeps_rounds_score_block | apply keeps_ret]. }
  specialize (K2 w1).
  destruct ((if Py.contains "Score" line then score_block st replies line else ret Next) w1)
    as [w2 [f|e]]; simpl in K2; [|cbn [fst]; by rewrite K2, K1].
  assert (Hok2 : rounds_ok (rounds w2)) by (by rewrite K2, K1).
  destruct f; [|cbn [fst]; exact Hok2|cbn [fst]; exact Hok2].
  unfold bind at 1. unfold get at 1. unfold bind at 1. unfold on_rounds at 1.
  pose proof (update_pentanomial_rounds_ok (stats_pentanomial (old_stats w2)) line
                (rounds w2) Hok2) as Hu.
  destruct (update_pentanomial _ line (rounds w2)) as [rs [p|e]]; simpl in Hu; exact Hu.
Qed.

Lemma tick_step_rounds_ok st replies t w :
  rounds_ok (rounds w) -> rounds_ok (rounds (fst (tick_step st replies t w))).
Proof.
  intros Hok. destruct t as [line|poll]; cbn [tick_step].
  - by apply handle_line_rounds_ok.
  - destruct (truthy poll); exact Hok.
Qed.

Lemma advance_rounds_ok st replies ts w w1 :
  advance st replies ts w = Some w1 -> rounds_ok (rounds w) -> rounds_ok (rounds w1).
Proof.
  revert w. induction ts as [|t ts IH]; intros w Ha Hok; cbn [advance] in Ha.
  - by injection Ha as <-.
  - pose proof (tick_step_rounds_ok st replies t w Hok) as Hs.
    destruct (tick_step st replies t w) as [w' [[| |]|e]]; try discriminate Ha.
    eapply IH; eauto.
Qed.

Lemma run_loop_advance st replies pre rest w w1 :
  advance st replies pre w = Some w1 ->
  run_loop st replies (pre ++ rest) w = run_loop st replies rest w1.
Proof.
  revert w. induction pre as [|t pre IH]; intros w Ha; cbn [advance] in Ha.
  - by injection Ha as <-.
  - rewrite <- app_comm_cons. cbn [run_loop]. unfold bind at 1.
    destruct (tick_step st replies t w) as [w' [[| |]|e]]; try discriminate Ha.
    by apply IH.
Qed.

Lemma count_faults_frame line w :
  count_faults line w =
  (set_result_stats (result_stats (fst (count_faults line w))) w, Ret tt).
Proof.
  unfold count_faults, bind, modify, ret.
  destruct (Py.contains "disconnects" line || Py.contains "connection stalls" line);
    destruct (Py.contains "on time" line); destruct w; reflexivity.
Qed.

Lemma on_rounds_get_trinomial w t :
  trinomial (rounds w) = Some t -> on_rounds get_trinomial w = (w, Ret t).
Proof.
  intros H. unfold on_rounds. rewrite (get_trinomial_run _ _ H).
  destruct w; reflexivity.
Qed.

Lemma on_rounds_get_pentanomial w p :
  pentanomial (rounds w) = Some p -> on_rounds get_pentanomial w = (w, Ret p).
Proof.
  intros H. unfold on_rounds. rewrite (get_pentanomial_run _ _ H).
  destruct w; reflexivity.
Qed.

Lemma record_score_run st W L D w t0 t1 t2 :
  trinomial (rounds w) = Some [t0; t1; t2] ->
  record_score st (W, L, D) w =
  (if negb st
   then set_result_stats
          (set_wld (W - t2 + wins (old_stats w)) (L - t0 + losses (old_stats w))
                   (D - t1 + draws (old_stats w)) (result_stats w)) w
   else set_spsa {| num_games := num_games (spsa w); spsa_wld := Some (W, L, D) |}
          (set_result_stats
             (set_wld (W + wins (old_stats w)) (L + losses (old_stats w))
                      (D + draws (old_stats w)) (result_stats w)) w),
   Ret tt).
Proof.
  intros Ht. unfold record_score. destruct st; cbn [negb].
  - reflexivity.
  - eapply bind_run_eq; [apply on_rounds_get_trinomial; exact Ht|]. cbv beta.
    change (Py.index [t0; t1; t2] 2) with (Some t2).
    change (Py.index [t0; t1; t2] 0) with (Some t0).
    change (Py.index [t0; t1; t2] 1) with (Some t1).
    reflexivity.
Qed.

Lemma record_score_frame st wld w t :
  trinomial (rounds w) = Some t -> length t = 3%nat ->
  record_score st wld w =
  (set_spsa (spsa (fst (record_score st wld w)))
     (set_result_stats (result_stats (fst (record_score st wld w))) w), Ret tt).
Proof.
  intros Ht Lt. destruct wld as [[W L] D].
  destruct t as [|t0 [|t1 [|t2 [|]]]]; try discriminate Lt.
  rewrite (record_score_run st W L D w t0 t1 t2 Ht).
  destruct st; destruct w; reflexivity.
Qed.

Lemma before_report_fields st wld line w t :
  trinomial (rounds w) = Some t -> length t = 3%nat ->
  let ws := before_report st wld line w in
  rounds ws = rounds w /\ num_game_pairs_updated ws = num_game_pairs_updated w /\
  old_stats ws = old_stats w /\ games_remaining ws = games_remaining w /\
  posts ws = posts w /\ trace ws = trace w.
Proof.
  intros Ht Lt ws. subst ws. unfold before_report.
  rewrite (count_faults_frame line w). cbn [fst].
  rewrite (record_score_frame st wld _ t) by (world_fields; assumption).
  cbn [fst]. world_fields. repeat split; reflexivity.
Qed.

Lemma validated_counters wld rs :
  rounds_ok rs -> snd (validate_pentanomial wld rs) = Ret tt ->
  exists p t, pentanomial rs = Some p /\ trinomial rs = Some t /\ length t = 3%nat.
Proof.
  intros [-> | [n Hc]] Hv.
  - destruct wld as [[W L] D]. discriminate Hv.
  - destruct Hc as (p & t & Hp & Ht & _ & Lt & _). eauto.
Qed.

Lemma on_rounds_validate wld w :
  snd (validate_pentanomial wld (rounds w)) = Ret tt ->
  on_rounds (validate_pentanomial wld) w = (w, Ret tt).
Proof.
  intros Hv. unfold on_rounds.
  pose proof (validate_pentanomial_state wld (rounds w)) as Hs.
  destruct (validate_pentanomial wld (rounds w)) as [rs r]. simpl in *. subst.
  destruct w; reflexivity.
Qed.

Lemma score_line_attempts st replies line w wld p :
  rounds_ok (rounds w) ->
  Py.contains "Finished match" line = false ->
  Py.contains "Score" line = true ->
  parse_score line = Ret wld ->
  snd (validate_pentanomial wld (rounds w)) = Ret tt ->
  pentanomial (rounds w) = Some p ->
  num_game_pairs_updated w < Py.sum p ->
  handle_line st replies line w =
  match update_attempts replies 5 (before_report st wld line w) with
  | (w', Ret (Cancelled response)) => (w', Ret (Return response))
  | (w', Ret Exhausted) => (set_trace (trace w' ++ [KillProcess])%list w', Ret Break)
  | (w', Ret Succeeded) =>
      handle_line st replies line w
  | (w', Raise e) => (w', Raise e)
  end.
Proof.
  intros Hok Hfm Hsc Hparse Hv Hp Hdue.
  destruct (validated_counters wld _ Hok Hv) as (p' & t & Hp' & Ht & Lt).
  destruct (before_report_fields st wld line w t Ht Lt)
    as (Er & Eu & Eo & Eg & Eposts & Etr).
  set (ws := before_report st wld line w) in *.
  destruct (update_attempts replies 5 ws) as [w' [[|response|]|e]] eqn:Hatt;
    [reflexivity| | |].
  all: unfold handle_line; rewrite Hfm, Hsc.
  all: eapply bind_run_eq; [apply count_faults_frame|]; cbv beta.
  all: set (w0 := set_result_stats _ w).
  all: assert (Hw0 : rounds w0 = rounds w) by reflexivity.
  all: unfold bind at 1; unfold score_block.
  all: unfold bind at 1; unfold pure at 1; rewrite Hparse.
  all: unfold bind at 1; rewrite (on_rounds_validate wld w0) by (rewrite Hw0; exact Hv).
  all: unfold bind at 1;
       rewrite (record_score_frame st wld w0 t) by (rewrite ?Hw0; assumption).
  all: change (set_spsa _ _) with
         (set_spsa (spsa (fst (record_score st wld w0)))
            (set_result_stats (result_stats (fst (record_score st wld w0))) w0)).
  all: assert (Hws : set_spsa (spsa (fst (record_score st wld w0)))
            (set_result_stats (result_stats (fst (record_score st wld w0))) w0) = ws)
       by (subst ws; unfold before_report; rewrite (count_faults_frame line w);
           cbn [fst]; fold w0;
           rewrite (record_score_frame st wld w0 t) at 3 by (rewrite ?Hw0; assumption);
           reflexivity).
  all: rewrite Hws; unfold report.
  all: unfold bind at 1;
       rewrite (on_rounds_get_pentanomial ws p) by (rewrite Er; exact Hp).
  all: unfold bind at 1; unfold get at 1.
  all: rewrite Eu; apply Z.ltb_lt in Hdue; rewrite Hdue.
  all: unfold bind at 1; rewrite Hatt.
  all: try reflexivity.
Qed.

Lemma launch_preamble_baseline cmd st gtp env w wp r :
  launch_preamble cmd st gtp env w = (wp, r) -> baseline wp = baseline w.
Proof.
  intros H. pose proof (keeps_baseline_launch_preamble cmd st gtp env w) as K.
  by rewrite H in K.
Qed.

Lemma batch_baseline cmd st gtp env pre w wp w1 r :
  launch_preamble cmd st gtp env w = (wp, r) ->
  advance st (replies env) pre (start_batch wp) = Some w1 ->
  old_stats w1 = old_stats w /\ games_remaining w1 = games_remaining w.
Proof.
  intros Hpre Hadv.
  pose proof (launch_preamble_baseline _ _ _ _ _ _ _ Hpre) as B1.
  pose proof (advance_baseline _ _ _ _ _ Hadv) as B2.
  assert (B : baseline w1 = baseline w) by (rewrite B2, <- B1; reflexivity).
  unfold baseline in B. by injection B.
Qed.

Lemma start_batch_fields w :
  rounds (start_batch w) = empty_rounds /\
  result_stats (start_batch w) = result_stats w /\
  old_stats (start_batch w) = old_stats w /\
  games_remaining (start_batch w) = games_remaining w /\
  posts (start_batch w) = 0%nat /\ trace (start_batch w) = trace w.
Proof. repeat split; reflexivity. Qed.

Lemma run_game_at_line st env pre line post wp w1 :
  ticks env = (pre ++ Line line :: post)%list ->
  advance st (replies env) pre (start_batch wp) = Some w1 ->
  run_game st env wp =
  match handle_line st (replies env) line w1 with
  | (w', Ret Next) => run_loop st (replies env) post w'
  | (w', Ret Break) => after_loop w'
  | (w', Ret (Return s)) => (w', Ret s)
  | (w', Raise e) => (w', Raise e)
  end.
Proof.
  intros Ht Ha. unfold run_game.
  eapply bind_run_eq; [reflexivity|]. cbv beta.
  rewrite Ht, (run_loop_advance _ _ _ _ _ _ Ha).
  cbn [run_loop tick_step]. unfold bind at 1.
  destruct (handle_line st (replies env) line w1) as [w' [[| |s]|e]]; reflexivity.
Qed.

(** C7, as amended.  Let the loop of [run_game] take a [Score] line
    for which a report is due, and let all 5 requests to
    [/api/update_task] fail.  Then the 5 requests, each followed by a
    sleep, are followed by two [kill_process], [launch_cutechess] returns
    [{'task_alive': True}], and [run_games] goes on as after any batch:
    [old_stats] becomes the batch's [result['stats']] and
    [games_remaining] is lowered by [games_to_play]. *)
Theorem exhausted_report_ends_batch st gtp env envs pre line post wld p w wp w1 :
  0 < games_remaining w ->
  launch_preamble (command env) st gtp env w = (wp, Ret tt) ->
  ticks env = (pre ++ Line line :: post)%list ->
  advance st (replies env) pre (start_batch wp) = Some w1 ->
  Py.contains "Finished match" line = false ->
  Py.contains "Score" line = true ->
  parse_score line = Ret wld ->
  snd (validate_pentanomial wld (rounds w1)) = Ret tt ->
  pentanomial (rounds w1) = Some p ->
  num_game_pairs_updated w1 < Py.sum p ->
  all_fail (replies env) (posts w1) 5 ->
  let ws := before_report st wld line w1 in
  let w_end :=
    set_posts (posts w1 + 5)
      (set_trace (trace w1 ++ failed_attempts 5 (result_stats ws)
                  ++ [KillProcess; KillProcess])%list ws) in
  launch_cutechess (command env) st gtp env w = (w_end, Ret {| task_alive := true |}) /\
  run_batches st gtp (env :: envs) w =
    run_batches st gtp envs
      (set_games_remaining (games_remaining w - gtp)
         (set_old_stats (result_stats ws) w_end)).
Proof.
  intros Hgr Hpre Hticks Hadv Hfm Hsc Hparse Hv Hp Hdue Hfail ws w_end.
  assert (Hok : rounds_ok (rounds w1)).
  { eapply advance_rounds_ok; [exact Hadv|]. left. reflexivity. }
  destruct (validated_counters wld _ Hok Hv) as (p' & t & Hp' & Ht & Lt).
  destruct (before_report_fields st wld line w1 t Ht Lt)
    as (Er & Eu & Eo & Eg & Eposts & Etr).
  fold ws in Er, Eu, Eo, Eg, Eposts, Etr.
  pose proof (score_line_attempts st (replies env) line w1 wld p
                Hok Hfm Hsc Hparse Hv Hp Hdue) as Hline.
  fold ws in Hline.
  rewrite (update_attempts_failed (replies env) 5 ws) in Hline
    by (rewrite Eposts; exact Hfail).
  assert (Hlaunch :
    launch_cutechess (command env) st gtp env w = (w_end, Ret {| task_alive := true |})).
  { unfold launch_cutechess.
    eapply bind_run_eq; [exact Hpre|]. cbv beta.
    unfold try_except.
    rewrite (run_game_at_line st env pre line post wp w1 Hticks Hadv), Hline.
    unfold after_loop, kill_process.
    unfold bind at 1. rewrite perform_run. unfold ret.
    f_equal. subst w_end. apply world_eq; world_fields; try reflexivity.
    - by rewrite Eposts.
    - rewrite Etr, <- !app_assoc. reflexivity. }
  split; [exact Hlaunch|].
  cbn [run_batches]. apply Z.ltb_lt in Hgr. rewrite Hgr, Hlaunch. cbn [task_alive negb].
  f_equal. apply world_eq; world_fields; try reflexivity.
  subst w_end. world_fields. rewrite Eg.
  destruct (batch_baseline _ _ _ _ _ _ _ _ _ Hpre Hadv) as [_ ->]. reflexivity.
Qed.

(** C8.  Let the loop of [run_game] take a [Score] line for which a
    report is due, let the first [k < 5] requests to [/api/update_task]
    fail and let the next one be answered with [task_alive] false.  Then
    that request is followed at once by [kill_process] and by nothing
    else, no further request is made, [launch_cutechess] returns the
    response, and the loop of [run_games] ends without starting another
    batch and without assigning [old_stats] or [games_remaining]. *)
Theorem cancelled_report_stops_worker st gtp env envs pre line post wld p w wp w1
    (k : nat) response :
  0 < games_remaining w ->
  launch_preamble (command env) st gtp env w = (wp, Ret tt) ->
  ticks env = (pre ++ Line line :: post)%list ->
  advance st (replies env) pre (start_batch wp) = Some w1 ->
  Py.contains "Finished match" line = false ->
  Py.contains "Score" line = true ->
  parse_score line = Ret wld ->
  snd (validate_pentanomial wld (rounds w1)) = Ret tt ->
  pentanomial (rounds w1) = Some p ->
  num_game_pairs_updated w1 < Py.sum p ->
  (k < 5)%nat ->
  all_fail (replies env) (posts w1) k ->
  replies env (posts w1 + k)%nat = Reply response ->
  task_alive response = false ->
  let ws := before_report st wld line w1 in
  let w_end :=
    set_posts (posts w1 + k + 1)
      (set_trace (trace w1 ++ failed_attempts k (result_stats ws)
                  ++ [PostUpdateTask (result_stats ws); KillProcess])%list ws) in
  launch_cutechess (command env) st gtp env w = (w_end, Ret response) /\
  run_batches st gtp (env :: envs) w = (w_end, Ret Finished) /\
  old_stats w_end = old_stats w /\ games_remaining w_end = games_remaining w.
Proof.
  intros Hgr Hpre Hticks Hadv Hfm Hsc Hparse Hv Hp Hdue Hk Hfail Hreply Halive ws w_end.
  assert (Hok : rounds_ok (rounds w1)).
  { eapply advance_rounds_ok; [exact Hadv|]. left. reflexivity. }
  destruct (validated_counters wld _ Hok Hv) as (p' & t & Hp' & Ht & Lt).
  destruct (before_report_fields st wld line w1 t Ht Lt)
    as (Er & Eu & Eo & Eg & Eposts & Etr).
  fold ws in Er, Eu, Eo, Eg, Eposts, Etr.
  pose proof (score_line_attempts st (replies env) line w1 wld p
                Hok Hfm Hsc Hparse Hv Hp Hdue) as Hline.
  fold ws in Hline.
  rewrite (update_attempts_cancelled (replies env) 5 k ws response) in Hline
    by (rewrite ?Eposts; assumption).
  assert (Hlaunch :
    launch_cutechess (command env) st gtp env w = (w_end, Ret response)).
  { unfold launch_cutechess.
    eapply bind_run_eq; [exact Hpre|]. cbv beta.
    unfold try_except.
    rewrite (run_game_at_line st env pre line post wp w1 Hticks Hadv), Hline.
    f_equal. subst w_end. apply world_eq; world_fields; try reflexivity.
    - by rewrite Eposts.
    - by rewrite Etr. }
  split; [exact Hlaunch|]. split.
  - cbn [run_batches]. apply Z.ltb_lt in Hgr. rewrite Hgr, Hlaunch, Halive. reflexivity.
  - subst w_end. world_fields. rewrite Eo, Eg.
    exact (batch_baseline _ _ _ _ _ _ _ _ _ Hpre Hadv).
Qed.

Lemma advance_idle st replies pre w :
  forallb idle pre = true ->
  exists w1, advance st replies pre w = Some w1 /\ rounds w1 = rounds w.
Proof.
  revert w. induction pre as [|t pre IH]; intros w Hi.
  - exists w. split; reflexivity.
  - cbn [forallb] in Hi. apply andb_prop in Hi as [Ht Hi].
    destruct t as [line|poll]; [discriminate Ht|].
    cbn [idle] in Ht. apply negb_true_iff in Ht.
    cbn [advance tick_step]. rewrite Ht.
    destruct (IH (set_trace (trace w ++ [Sleep 1])%list w) Hi) as (w1 & Ha & Hr).
    exists w1. split; [exact Ha | exact Hr].
Qed.

(** C10.  When the first line that [run_game] takes from the queue is
    a [Score] line whose three counts parse, [run_game] raises
    [KeyError('pentanomial')], [rounds] still being empty, and
    [launch_cutechess] kills the match runner and returns
    [{'task_alive': False}]. *)
Theorem score_before_counters st gtp env pre line post wld w wp :
  launch_preamble (command env) st gtp env w = (wp, Ret tt) ->
  ticks env = (pre ++ Line line :: post)%list ->
  forallb idle pre = true ->
  Py.contains "Finished match" line = false ->
  Py.contains "Score" line = true ->
  parse_score line = Ret wld ->
  exists w',
    run_game st env wp = (w', Raise (KeyError "pentanomial")) /\
    rounds w' = empty_rounds /\
    launch_cutechess (command env) st gtp env w =
      (set_trace (trace w' ++ [KillProcess])%list w', Ret {| task_alive := false |}).
Proof.
  intros Hpre Hticks Hidle Hfm Hsc Hparse.
  destruct (advance_idle st (replies env) pre (start_batch wp) Hidle) as (w1 & Hadv & Hr).
  assert (Hempty : rounds w1 = empty_rounds) by (rewrite Hr; reflexivity).
  assert (Hline : exists w',
             handle_line st (replies env) line w1 = (w', Raise (KeyError "pentanomial"))
             /\ rounds w' = empty_rounds).
  { unfold handle_line. rewrite Hfm, Hsc.
    eexists. split.
    - unfold bind at 1. rewrite (count_faults_frame line w1).
      unfold bind at 1. unfold score_block.
      unfold bind at 1. unfold pure at 1. rewrite Hparse.
      unfold bind at 1. unfold on_rounds at 1. world_fields.
      rewrite Hempty. destruct wld as [[W L] D]. reflexivity.
    - reflexivity. }
  destruct Hline as (w' & Hline & Hw').
  exists w'.
  assert (Hrun : run_game st env wp = (w', Raise (KeyError "pentanomial"))).
  { rewrite (run_game_at_line st env pre line post wp w1 Hticks Hadv), Hline.
    reflexivity. }
  split; [exact Hrun|]. split; [exact Hw'|].
  unfold launch_cutechess.
  eapply bind_run_eq; [exact Hpre|]. cbv beta.
  unfold try_except. rewrite Hrun. cbn [is_Exception].
  unfold kill_process. unfold bind. rewrite perform_run. reflexivity.
Qed.

Lemma unreported_batch_is_credited :
  let w' := fst (run_batches false 10 [failing_env] sample_start) in
  all_fail (replies failing_env) 0 5 /\
  games_remaining sample_start = 10 /\ old_stats sample_start = zero_stats /\
  snd (run_batches false 10 [failing_env] sample_start) = Ret Finished /\
  games_remaining w' = 0 /\
  old_stats w' =
    {| wins := 0; losses := 1; draws := 1; crashes := 0; time_losses := 0;
       stats_pentanomial := [0; 1; 0; 0; 0] |}.
Proof.
  cbv zeta. split.
  - intros k _. exists RequestException. split; reflexivity.
  - repeat split; vm_compute; reflexivity.
Qed.

Lemma exhausted_report_ends_batch_witness :
  snd (launch_cutechess (command failing_env) false 10 failing_env sample_start)
    = Ret {| task_alive := true |} /\
  games_remaining (fst (run_batches false 10 [failing_env] sample_start)) = 10 - 10.
Proof.
  pose (wp := fst (launch_preamble (command failing_env) false 10 failing_env sample_start)).
  pose (w1 := default sample_start
                (advance false (replies failing_env) [Line game1_line; Line game2_line]
                   (start_batch wp))).
  destruct (exhausted_report_ends_batch false 10 failing_env []
              [Line game1_line; Line game2_line] score_line [Line game1_line]
              (0, 1, 1) [0; 1; 0; 0; 0] sample_start wp w1) as [Hlaunch Hloop].
  - reflexivity.
  - reflexivity.
  - reflexivity.
  - vm_compute. reflexivity.
  - reflexivity.
  - reflexivity.
  - reflexivity.
  - vm_compute. reflexivity.
  - vm_compute. reflexivity.
  - vm_compute. reflexivity.
  - intros k _. exists RequestException. split; reflexivity.
  - split.
    + rewrite Hlaunch. reflexivity.
    + rewrite Hloop. reflexivity.
Defined.

Lemma cancelled_report_stops_worker_witness :
  exists w_end,
    run_batches false 10 [cancelling_env; failing_env] sample_start
      = (w_end, Ret Finished) /\
    games_remaining w_end = 10 /\
    exists s,
      trace w_end =
        [Spawn ["cutechess-cli"; "-repeat"; "-engine"; "name=New-abc";
                "-engine"; "name=Base-xyz"; "-each"; "proto=uci"];
         PostUpdateTask s; Sleep 15; PostUpdateTask s; Sleep 15;
         PostUpdateTask s; KillProcess].
Proof.
  pose (wp := fst (launch_preamble (command cancelling_env) false 10 cancelling_env
                     sample_start)).
  pose (w1 := default sample_start
                (advance false (replies cancelling_env)
                   [Line game1_line; Line game2_line] (start_batch wp))).
  destruct (cancelled_report_stops_worker false 10 cancelling_env [failing_env]
              [Line game1_line; Line game2_line] score_line [Line game1_line]
              (0, 1, 1) [0; 1; 0; 0; 0] sample_start wp w1 2 {| task_alive := false |})
    as (Hlaunch & Hloop & Hold & Hgr).
  - reflexivity.
  - reflexivity.
  - reflexivity.
  - vm_compute. reflexivity.
  - reflexivity.
  - reflexivity.
  - reflexivity.
  - vm_compute. reflexivity.
  - vm_compute. reflexivity.
  - vm_compute. reflexivity.
  - lia.
  - intros k Hk. exists RequestException. split; [|reflexivity].
    destruct k as [|[|k]]; [reflexivity | reflexivity | lia].
  - reflexivity.
  - reflexivity.
  - eexists. split; [exact Hloop|]. split; [exact Hgr|].
    eexists. vm_compute. reflexivity.
Defined.

Lemma score_before_counters_witness :
  exists w',
    run_game false score_first_env
      (fst (launch_preamble (command score_first_env) false 10 score_first_env sample_start))
      = (w', Raise (KeyError "pentanomial")) /\
    snd (launch_cutechess (command score_first_env) false 10 score_first_env sample_start)
      = Ret {| task_alive := false |}.
Proof.
  destruct (score_before_counters false 10 score_first_env [Empty None] score_line
              [Line game1_line] (0, 1, 1) sample_start
              (fst (launch_preamble (command score_first_env) false 10 score_first_env
                      sample_start)))
    as (w' & Hrun & Hrounds & Hlaunch); try reflexivity.
  exists w'. split; [exact Hrun|]. rewrite Hlaunch. reflexivity.
Defined.

(** * More properties *)

(** ** [parse_options] *)

Lemma plain_lacks_eq s : plain s = true -> lacks "=" s = true.
Proof.
  induction s as [|c s IH]; [reflexivity|].
  cbn [plain lacks]. intros H. apply andb_prop in H as [H Hs].
  apply andb_prop in H as [_ Hc].
  destruct (ascii_dec "=" c) as [<-|_]; [discriminate Hc|]. by apply IH.
Qed.

Lemma split_ws_aux_plain cur w rest :
  plain w = true ->
  Py.split_ws_aux cur (w ++ rest) = Py.split_ws_aux (cur ++ w) rest.
Proof.
  revert cur. induction w as [|c w IH]; intros cur H.
  - by rewrite append_empty_l, append_empty_r.
  - cbn [plain] in H. apply andb_prop in H as [H Hw].
    apply andb_prop in H as [Hc _].
    rewrite append_cons. cbn [Py.split_ws_aux].
    destruct (Py.is_space c); [discriminate Hc|].
    rewrite IH by exact Hw. unfold Py.snoc.
    by rewrite append_assoc_string, append_cons, append_empty_l.
Qed.

Lemma split_ws_join l :
  forallb is_word l = true -> Py.split_ws (PyStr.join " " l) = l.
Proof.
  unfold Py.split_ws.
  induction l as [|x l IH]; [reflexivity|].
  cbn [forallb]. intros H. apply andb_prop in H as [Hx Hl].
  unfold is_word in Hx. apply andb_prop in Hx as [Hne Hp].
  destruct l as [|y l].
  - cbn [PyStr.join]. rewrite <- (append_empty_r x) at 1.
    rewrite split_ws_aux_plain by exact Hp. rewrite append_empty_l.
    cbn [Py.split_ws_aux]. by destruct (x =? "")%string.
  - change (PyStr.join " " (x :: y :: l)) with (x ++ " " ++ PyStr.join " " (y :: l)).
    rewrite split_ws_aux_plain by exact Hp. rewrite append_empty_l.
    rewrite append_cons, append_empty_l. cbn [Py.split_ws_aux].
    change (Py.is_space " ") with true. cbv iota.
    destruct (x =? "")%string; [discriminate Hne|].
    by rewrite (IH Hl).
Qed.

Lemma lacks_join_words c l :
  (forall w, In w l -> lacks c w = true) -> lacks c " " = true ->
  lacks c (PyStr.join " " l) = true.
Proof.
  intros H Hsp. induction l as [|x l IH]; [reflexivity|].
  destruct l as [|y l]; [apply H; by left|].
  change (PyStr.join " " (x :: y :: l)) with (x ++ " " ++ PyStr.join " " (y :: l)).
  rewrite !lacks_app. rewrite (H x) by (by left). rewrite Hsp.
  rewrite IH; [reflexivity|]. intros w Hw. apply H. by right.
Qed.

Lemma is_word_plain w : is_word w = true -> plain w = true.
Proof. unfold is_word. intros H. by apply andb_prop in H as [_ H]. Qed.

Lemma name_lacks_eq names :
  forallb is_word names = true -> lacks "=" (PyStr.join " " names) = true.
Proof.
  intros H. apply lacks_join_words; [|reflexivity].
  intros w Hw. apply plain_lacks_eq, is_word_plain.
  rewrite forallb_forall in H. by apply H.
Qed.

Lemma render_options_cons o os :
  render_options (o :: os) = PyStr.join " " (fst o) ++ "=" ++ snd o ++ options_tail os.
Proof.
  unfold render_options, options_tail. destruct os as [|o' os].
  - cbn [map PyStr.join]. unfold render_option.
    by rewrite append_empty_r.
  - cbn [map]. change (PyStr.join " " (?x :: ?y :: ?l)) with (x ++ " " ++ PyStr.join " " (y :: l)).
    unfold render_option at 1. by rewrite !append_assoc_string.
Qed.

Lemma split_after v os :
  plain v = true -> forallb option_ok os = true ->
  Py.split_aux "=" 0 "" (v ++ options_tail os) = chunks_after v os.
Proof.
  revert v. induction os as [|o os IH]; intros v Hv Hos.
  - cbn [options_tail chunks_after]. rewrite append_empty_r.
    rewrite split_aux_lacks by (by apply plain_lacks_eq). by rewrite append_empty_l.
  - cbn [forallb] in Hos. apply andb_prop in Hos as [Ho Hos].
    unfold option_ok in Ho. apply andb_prop in Ho as [Ho Hval].
    apply andb_prop in Ho as [_ Hnames].
    unfold options_tail. rewrite render_options_cons. cbn [chunks_after].
    replace (v ++ " " ++ PyStr.join " " (fst o) ++ "=" ++ snd o ++ options_tail os)
      with ((v ++ " " ++ PyStr.join " " (fst o)) ++ String "=" (snd o ++ options_tail os))
      by (rewrite !append_assoc_string; reflexivity).
    rewrite split_aux_sep.
    + rewrite append_empty_l. f_equal. apply IH; [by apply is_word_plain | exact Hos].
    + rewrite !lacks_app. rewrite plain_lacks_eq by exact Hv.
      by rewrite name_lacks_eq.
Qed.

Lemma parse_options_loop_after param v os results :
  is_word v = true -> forallb option_ok os = true ->
  parse_options_loop param (chunks_after v os) results =
  Ret (results ++ ("option." ++ param ++ "=" ++ v)%string :: map cutechess_option os)%list.
Proof.
  revert param v results. induction os as [|o os IH]; intros param v results Hv Hos.
  - cbn [chunks_after parse_options_loop map].
    pose proof (split_ws_join [v]) as E. cbn [PyStr.join forallb] in E.
    rewrite E by (by rewrite Hv). reflexivity.
  - cbn [forallb] in Hos. apply andb_prop in Hos as [Ho Hos].
    unfold option_ok in Ho. apply andb_prop in Ho as [Ho Hval].
    apply andb_prop in Ho as [Hne Hnames].
    destruct o as [names val]. cbn [fst snd] in *.
    destruct names as [|n names]; [discriminate Hne|].
    cbn [chunks_after parse_options_loop fst snd].
    change (v ++ " " ++ PyStr.join " " (n :: names))
      with (PyStr.join " " (v :: n :: names)).
    rewrite split_ws_join by (cbn [forallb] in *; by rewrite Hv, Hnames).
    change (Py.index (v :: n :: names) 0) with (Some v). cbv iota beta.
    cbn [drop]. rewrite IH by assumption.
    cbn [map]. unfold cutechess_option at 2. cbn [fst snd].
    by rewrite <- app_assoc.
Qed.

(** X23.  A well-formed option string is parsed into one [option.name=value]
    entry per option, in order; names of several words are kept whole. *)
Theorem parse_options_well_formed (os : list (list string * string)) :
  forallb option_ok os = true ->
  parse_options (render_options os) = Ret (map cutechess_option os).
Proof.
  intros Hos. destruct os as [|o os]; [reflexivity|].
  pose proof Hos as Hall.
  cbn [forallb] in Hos. apply andb_prop in Hos as [Ho Hos].
  unfold option_ok in Ho. apply andb_prop in Ho as [Ho Hval].
  apply andb_prop in Ho as [Hne Hnames].
  unfold parse_options. rewrite render_options_cons.
  unfold Py.split.
  replace (PyStr.join " " (fst o) ++ "=" ++ snd o ++ options_tail os)
    with (PyStr.join " " (fst o) ++ String "=" (snd o ++ options_tail os))
    by reflexivity.
  rewrite split_aux_sep by (by apply name_lacks_eq).
  rewrite split_after by (first [by apply is_word_plain | assumption]).
  rewrite append_empty_l.
  cbn [length Nat.eqb drop].
  change (Py.index (?x :: ?l) 0) with (Some x). cbv iota beta.
  rewrite drop_0, parse_options_loop_after by assumption.
  reflexivity.
Qed.

Lemma parse_options_well_formed_witness :
  render_options [(["Hash"], "128"); (["Skill"; "Level"], "10")]
    = "Hash=128 Skill Level=10" /\
  parse_options "Hash=128 Skill Level=10"
    = Ret ["option.Hash=128"; "option.Skill Level=10"].
Proof.
  split; [reflexivity|].
  exact (parse_options_well_formed [(["Hash"], "128"); (["Skill"; "Level"], "10")]
           eq_refl).
Defined.

Lemma split_aux_nonempty sep skip cur s : Py.split_aux sep skip cur s <> [].
Proof.
  revert skip cur. induction s as [|c s IH]; intros skip cur; cbn [Py.split_aux].
  - discriminate.
  - destruct skip; [|apply IH].
    destruct (String.prefix sep (String c s)); [discriminate | apply IH].
Qed.

Lemma prefix_app (p x : string) : String.prefix p (p ++ x) = true.
Proof.
  induction p as [|c p IH].
  - rewrite append_empty_l. by destruct x.
  - rewrite append_cons. cbn [String.prefix].
    destruct (ascii_dec c c); [exact IH | congruence].
Qed.

Lemma parse_options_loop_outcome param chunks results :
  match parse_options_loop param chunks results with
  | Ret l =>
      length l = (length results + length chunks)%nat /\
      Forall (fun c => Py.split_ws c <> []) chunks /\
      (Forall (fun x => String.prefix "option." x = true) results ->
       Forall (fun x => String.prefix "option." x = true) l)
  | Raise e => e = IndexError /\ Exists (fun c => Py.split_ws c = []) chunks
  end.
Proof.
  revert param results. induction chunks as [|c chunks IH]; intros param results.
  - cbn [parse_options_loop length]. split; [lia|]. split; [constructor | done].
  - cbn [parse_options_loop]. destruct (Py.split_ws c) as [|v0 vs] eqn:E.
    + change (Py.index (@nil string) 0) with (@None string). cbv iota.
      split; [reflexivity|]. by left.
    + change (Py.index (v0 :: vs) 0) with (Some v0). cbv iota beta zeta.
      specialize (IH (PyStr.join " " (drop 1 (v0 :: vs)))
                    (results ++ [("option." ++ param ++ "=" ++ v0)%string])%list).
      destruct (parse_options_loop _ chunks _) as [l|e].
      * destruct IH as (Hlen & Hall & Hpre). split; [|split].
        -- rewrite Hlen, length_app. cbn [length]. lia.
        -- constructor; [by rewrite E | exact Hall].
        -- intros Hr. apply Hpre. apply Forall_app. split; [exact Hr|].
           constructor; [apply prefix_app | constructor].
      * destruct IH as [-> Hex]. split; [reflexivity|]. by right.
Qed.

Lemma parse_options_prefixed s l :
  parse_options s = Ret l -> Forall (fun x => String.prefix "option." x = true) l.
Proof.
  unfold parse_options.
  destruct (Py.split "=" s) as [|param chunks] eqn:E.
  { exfalso. by apply (split_aux_nonempty "=" 0 "" s). }
  cbn [length Nat.eqb drop].
  change (Py.index (param :: chunks) 0) with (Some param). cbv iota beta.
  rewrite drop_0.
  pose proof (parse_options_loop_outcome param chunks []) as H.
  destruct (parse_options_loop param chunks []) as [l'|e]; [|discriminate].
  intros [= <-]. destruct H as (_ & _ & Hpre). apply Hpre. constructor.
Qed.

(** X24.  [parse_options] fails only with [IndexError], and exactly when some
    [=] is followed by no value; otherwise it returns one entry per [=],
    each beginning with [option.]. *)
Theorem parse_options_outcome (s : string) :
  match parse_options s with
  | Ret l =>
      S (length l) = length (Py.split "=" s) /\
      Forall (fun c => Py.split_ws c <> []) (drop 1 (Py.split "=" s)) /\
      Forall (fun x => String.prefix "option." x = true) l
  | Raise e =>
      e = IndexError /\
      Exists (fun c => Py.split_ws c = []) (drop 1 (Py.split "=" s))
  end.
Proof.
  unfold parse_options.
  destruct (Py.split "=" s) as [|param chunks] eqn:E.
  { exfalso. by apply (split_aux_nonempty "=" 0 "" s). }
  cbn [length Nat.eqb drop].
  change (Py.index (param :: chunks) 0) with (Some param). cbv iota beta.
  rewrite drop_0.
  pose proof (parse_options_loop_outcome param chunks []) as H.
  destruct (parse_options_loop param chunks []) as [l|e].
  - destruct H as (Hlen & Hall & Hpre). split; [|split].
    + rewrite Hlen. reflexivity.
    + exact Hall.
    + apply Hpre. constructor.
  - exact H.
Qed.

(** ** [github_api] *)

Lemma replace_aux_skip old new a rest :
  PyStr.replace_aux old new (String.length a) (a ++ rest)
  = PyStr.replace_aux old new 0 rest.
Proof.
  induction a as [|x a IH].
  - by rewrite append_empty_l.
  - rewrite append_cons. cbn [String.length PyStr.replace_aux]. exact IH.
Qed.

Lemma replace_occurrence c old new rest :
  PyStr.replace (String c old) new (String c old ++ rest)
  = new ++ PyStr.replace (String c old) new rest.
Proof.
  unfold PyStr.replace.
  pose proof (prefix_app (String c old) rest) as Hp.
  rewrite append_cons in *. cbn [PyStr.replace_aux]. rewrite Hp.
  replace (String.length (String c old) - 1)%nat with (String.length old)
    by (cbn [String.length]; lia).
  by rewrite replace_aux_skip.
Qed.

Lemma replace_absent old new s :
  Py.contains old s = false -> PyStr.replace old new s = s.
Proof.
  unfold PyStr.replace. induction s as [|c s IH]; [reflexivity|].
  cbn [Py.contains PyStr.replace_aux]. intros H.
  apply orb_false_elim in H as [Hp Hs]. rewrite Hp. by rewrite IH.
Qed.

(** X1.  [github_api] turns [https://github.com<path>] into
    [https://api.github.com/repos<path>] when [<path>] holds no further
    [https://github.com], and leaves a string without it unchanged. *)
Theorem github_api_converts (path : string) :
  Py.contains "https://github.com" path = false ->
  github_api ("https://github.com" ++ path) = "https://api.github.com/repos" ++ path /\
  github_api path = path.
Proof.
  intros H. unfold github_api. split.
  - rewrite replace_occurrence. by rewrite replace_absent.
  - by apply replace_absent.
Qed.

Lemma github_api_converts_witness :
  github_api REPO_URL = "https://api.github.com/repos/official-stockfish/books".
Proof.
  exact (proj1 (github_api_converts "/official-stockfish/books" eq_refl)).
Defined.

(** ** The placeholders of the command *)

Lemma substitute_first a rest opts :
  ~ In "_spsa_" a ->
  substitute (a ++ "_spsa_" :: rest)%list opts = Some (a ++ opts ++ rest)%list.
Proof.
  induction a as [|x a IH]; intros Hn.
  - reflexivity.
  - rewrite <- app_comm_cons. cbn [substitute].
    destruct (String.eqb_spec x "_spsa_") as [->|_].
    + exfalso. apply Hn. by left.
    + rewrite IH; [reflexivity|]. intros Hin. apply Hn. by right.
Qed.

Lemma spsa_option_not_placeholder x : spsa_option x <> "_spsa_".
Proof.
  unfold spsa_option. intros H.
  pose proof (prefix_app "option." (fst x ++ "=" ++ Py.fmt_d (Py.round_half_even (snd x)))) as Hp.
  rewrite H in Hp. discriminate Hp.
Qed.

Lemma spsa_options_free params : ~ In "_spsa_" (map spsa_option params).
Proof.
  intros Hin. apply in_map_iff in Hin as (x & Hx & _).
  by apply (spsa_option_not_placeholder x).
Qed.

Lemma launch_preamble_substitutes a b c (st : bool) gtp env w
    (wparams bparams : list (string * Q)) :
  ~ In "_spsa_" a -> ~ In "_spsa_" b ->
  (if st then request_spsa env = Ret (wparams, bparams)
   else wparams = [] /\ bparams = []) ->
  launch_preamble (a ++ "_spsa_" :: b ++ "_spsa_" :: c)%list st gtp env w =
  (set_trace
     (trace w ++ (if st then [PostRequestSpsa] else @nil action) ++
      [Spawn (a ++ map spsa_option wparams ++ b ++ map spsa_option bparams ++ c)])%list
     (set_spsa {| num_games := gtp; spsa_wld := None |} w),
   Ret tt).
Proof.
  intros Ha Hb Hp. unfold launch_preamble.
  eapply bind_run_eq; [reflexivity|]. cbv beta.
  assert (Hsub : forall ps : list (string * Q) * list (string * Q),
    ps = (wparams, bparams) ->
    forall w0,
    (cmd <- or_raise ValueError
              (substitute (a ++ "_spsa_" :: b ++ "_spsa_" :: c)%list
                 (map spsa_option (fst ps))) ;;
     cmd <- or_raise ValueError (substitute cmd (map spsa_option (snd ps))) ;;
     perform (Spawn cmd)) w0 =
    (set_trace (trace w0 ++ [Spawn (a ++ map spsa_option wparams ++ b
                                     ++ map spsa_option bparams ++ c)])%list w0, Ret tt)).
  { intros ps -> w0. cbn [fst snd].
    rewrite substitute_first by exact Ha. cbn [or_raise].
    eapply bind_run_eq; [reflexivity|]. cbv beta.
    replace (a ++ map spsa_option wparams ++ b ++ "_spsa_" :: c)%list
      with ((a ++ map spsa_option wparams ++ b) ++ "_spsa_" :: c)%list
      by (by rewrite <- !app_assoc).
    rewrite substitute_first.
    2: { rewrite !in_app_iff. intros [H|[H|H]]; [by apply Ha | | by apply Hb].
         by apply (spsa_options_free wparams). }
    cbn [or_raise]. eapply bind_run_eq; [reflexivity|]. cbv beta.
    rewrite perform_run. by rewrite <- !app_assoc. }
  destruct st.
  - eapply bind_run_eq.
    + eapply bind_run_eq; [apply perform_run|]. cbv beta. unfold pure. rewrite Hp.
      reflexivity.
    + cbv beta. rewrite (Hsub _ eq_refl). f_equal.
      apply world_eq; world_fields; try reflexivity.
      by rewrite <- !app_assoc.
  - destruct Hp as [-> ->].
    eapply bind_run_eq; [reflexivity|]. cbv beta.
    rewrite (Hsub _ eq_refl). reflexivity.
Qed.

Lemma substitute_absent cmd opts : ~ In "_spsa_" cmd -> substitute cmd opts = None.
Proof.
  induction cmd as [|x cmd IH]; [reflexivity|]. intros Hn. cbn [substitute].
  destruct (String.eqb_spec x "_spsa_") as [->|_]; [exfalso; apply Hn; by left|].
  rewrite IH; [reflexivity|]. intros Hin. apply Hn. by right.
Qed.

(** X22.  The parameters of the new engine replace the first placeholder and
    those of the base engine the second one; without tuning both
    placeholders are removed, and the match runner is started with the
    command so obtained. A command that holds no placeholder makes
    [cmd.index] raise [ValueError] before anything is started. *)
Theorem launch_preamble_places_options (st : bool) gtp env w
    (wparams bparams : list (string * Q)) :
  (if st then request_spsa env = Ret (wparams, bparams)
   else wparams = [] /\ bparams = []) ->
  (forall a b c,
     ~ In "_spsa_" a -> ~ In "_spsa_" b ->
     launch_preamble (a ++ "_spsa_" :: b ++ "_spsa_" :: c)%list st gtp env w =
     (set_trace
        (trace w ++ (if st then [PostRequestSpsa] else @nil action) ++
         [Spawn (a ++ map spsa_option wparams ++ b ++ map spsa_option bparams ++ c)])%list
        (set_spsa {| num_games := gtp; spsa_wld := None |} w),
      Ret tt)) /\
  (forall cmd,
     ~ In "_spsa_" cmd ->
     launch_preamble cmd st gtp env w =
     (set_trace (trace w ++ (if st then [PostRequestSpsa] else @nil action))%list
        (set_spsa {| num_games := gtp; spsa_wld := None |} w),
      Raise ValueError)).
Proof.
  intros Hp. split.
  - intros a b c Ha Hb. by apply launch_preamble_substitutes.
  - intros cmd Hn. unfold launch_preamble.
    eapply bind_run_eq; [reflexivity|]. cbv beta.
    destruct st.
    + eapply bind_run_eq.
      * eapply bind_run_eq; [apply perform_run|]. cbv beta. unfold pure. rewrite Hp.
        reflexivity.
      * cbv beta. cbn [fst]. rewrite substitute_absent by exact Hn. reflexivity.
    + eapply bind_run_eq; [reflexivity|]. cbv beta. cbn [fst map].
      rewrite substitute_absent by exact Hn. unfold or_raise, bind, raise. f_equal.
      apply world_eq; world_fields; try reflexivity. by rewrite app_nil_r.
Qed.

Lemma launch_preamble_places_options_witness :
  launch_preamble sample_command false 10 failing_env sample_start =
  (set_trace
     [Spawn ["cutechess-cli"; "-repeat"; "-engine"; "name=New-abc";
             "-engine"; "name=Base-xyz"; "-each"; "proto=uci"]]
     (set_spsa {| num_games := 10; spsa_wld := None |} sample_start),
   Ret tt).
Proof.
  destruct (launch_preamble_places_options false 10 failing_env sample_start [] []
              (conj eq_refl eq_refl)) as [H _].
  refine (H ["cutechess-cli"; "-repeat"; "-engine"; "name=New-abc"]
            ["-engine"; "name=Base-xyz"] ["-each"; "proto=uci"] _ _).
  - cbn [In]. intros K. repeat (destruct K as [K|K]; [discriminate K|]). exact K.
  - cbn [In]. intros K. repeat (destruct K as [K|K]; [discriminate K|]). exact K.
Defined.

(** ** Blank lines *)

Lemma snoc_nonempty s c : (Py.snoc s c =? "")%string = false.
Proof. unfold Py.snoc. destruct s; [rewrite append_empty_l | rewrite append_cons]; reflexivity. Qed.

Lemma split_ws_aux_nonempty cur s :
  (cur =? "")%string = false -> Py.split_ws_aux cur s <> [].
Proof.
  revert cur. induction s as [|c s IH]; intros cur H; cbn [Py.split_ws_aux].
  - by rewrite H.
  - destruct (Py.is_space c).
    + by rewrite H.
    + apply IH, snoc_nonempty.
Qed.

Lemma blank_contains (sub : string) c sub' s :
  Py.split_ws s = [] -> sub = String c sub' -> Py.is_space c = false ->
  Py.contains sub s = false.
Proof.
  intros Hs -> Hc. unfold Py.split_ws in Hs.
  induction s as [|x s IH]; [reflexivity|].
  cbn [Py.split_ws_aux] in Hs. destruct (Py.is_space x) eqn:Hx.
  - cbn [Py.contains String.prefix]. change ("" =? "")%string with true in Hs.
    cbv iota in Hs. rewrite (IH Hs).
    destruct (ascii_dec c x) as [->|_]; [congruence | reflexivity].
  - exfalso. revert Hs. apply split_ws_aux_nonempty, snoc_nonempty.
Qed.

Lemma update_pentanomial_blank old line rs :
  Py.split_ws line = [] ->
  update_pentanomial old line rs = (with_defaults rs, Raise IndexError).
Proof.
  intros H. unfold update_pentanomial.
  eapply bind_run_eq; [apply init_rounds_run|]. cbv beta. rewrite H.
  reflexivity.
Qed.

Lemma count_faults_quiet line w :
  Py.contains "disconnects" line = false ->
  Py.contains "connection stalls" line = false ->
  Py.contains "on time" line = false ->
  count_faults line w = (w, Ret tt).
Proof. intros H1 H2 H3. unfold count_faults. rewrite H1, H2, H3. reflexivity. Qed.

Lemma launch_at_line st gtp env pre line post w wp w1 :
  launch_preamble (command env) st gtp env w = (wp, Ret tt) ->
  ticks env = (pre ++ Line line :: post)%list ->
  advance st (replies env) pre (start_batch wp) = Some w1 ->
  launch_cutechess (command env) st gtp env w =
  match handle_line st (replies env) line w1 with
  | (w', Ret Next) =>
      try_except (run_loop st (replies env) post)
        (fun _ => kill_process ;; ret {| task_alive := false |}) w'
  | (w', Ret Break) => (set_trace (trace w' ++ [KillProcess])%list w', Ret {| task_alive := true |})
  | (w', Ret (Return s)) => (w', Ret s)
  | (w', Raise e) =>
      if is_Exception e
      then (set_trace (trace w' ++ [KillProcess])%list w', Ret {| task_alive := false |})
      else (w', Raise e)
  end.
Proof.
  intros Hpre Ht Ha. unfold launch_cutechess.
  eapply bind_run_eq; [exact Hpre|]. cbv beta.
  unfold try_except at 1.
  rewrite (run_game_at_line st env pre line post wp w1 Ht Ha).
  destruct (handle_line st (replies env) line w1) as [w' [[| |s]|e]]; reflexivity.
Qed.

Lemma run_batches_stopped st gtp env envs w w_end :
  0 < games_remaining w ->
  launch_cutechess (command env) st gtp env w = (w_end, Ret {| task_alive := false |}) ->
  run_batches st gtp (env :: envs) w = (w_end, Ret Finished).
Proof.
  intros Hgr Hl. cbn [run_batches]. apply Z.ltb_lt in Hgr. rewrite Hgr, Hl. reflexivity.
Qed.

Lemma run_batches_credited st gtp env envs w w_end :
  0 < games_remaining w ->
  launch_cutechess (command env) st gtp env w = (w_end, Ret {| task_alive := true |}) ->
  run_batches st gtp (env :: envs) w =
  run_batches st gtp envs
    (set_games_remaining (games_remaining w_end - gtp)
       (set_old_stats (result_stats w_end) w_end)).
Proof.
  intros Hgr Hl. cbn [run_batches]. apply Z.ltb_lt in Hgr. rewrite Hgr, Hl. reflexivity.
Qed.

(** X14.  A blank line taken from the queue makes [update_pentanomial] raise
    [IndexError] on [line[0]], after the two counters were created; the
    batch ends with [{'task_alive': False}], the match runner is killed,
    nothing is sent, and [run_games] leaves its loop without assigning
    [old_stats] or [games_remaining]. *)
Theorem blank_line_aborts_batch st gtp env envs pre line post w wp w1 :
  0 < games_remaining w ->
  launch_preamble (command env) st gtp env w = (wp, Ret tt) ->
  ticks env = (pre ++ Line line :: post)%list ->
  advance st (replies env) pre (start_batch wp) = Some w1 ->
  Py.split_ws line = [] ->
  let w_end :=
    set_trace (trace w1 ++ [KillProcess])%list
      (set_rounds (with_defaults (rounds w1)) w1) in
  snd (update_pentanomial (stats_pentanomial (old_stats w1)) line (rounds w1))
    = Raise IndexError /\
  launch_cutechess (command env) st gtp env w = (w_end, Ret {| task_alive := false |}) /\
  run_batches st gtp (env :: envs) w = (w_end, Ret Finished) /\
  old_stats w_end = old_stats w /\ games_remaining w_end = games_remaining w.
Proof.
  intros Hgr Hpre Hticks Hadv Hblank w_end.
  assert (Hl : launch_cutechess (command env) st gtp env w
               = (w_end, Ret {| task_alive := false |})).
  { rewrite (launch_at_line st gtp env pre line post w wp w1 Hpre Hticks Hadv).
    unfold handle_line.
    rewrite (blank_contains "Finished match" _ _ line Hblank eq_refl eq_refl).
    rewrite (blank_contains "Score" _ _ line Hblank eq_refl eq_refl).
    cbv iota.
    erewrite bind_run_eq;
      [| apply count_faults_quiet;
         (eapply blank_contains; [exact Hblank | reflexivity | reflexivity])
       | reflexivity].
    cbv beta.
    erewrite bind_run_eq; [| reflexivity | reflexivity]. cbv beta iota.
    erewrite bind_run_eq; [| reflexivity | reflexivity]. cbv beta.
    unfold bind at 1. unfold on_rounds.
    rewrite update_pentanomial_blank by exact Hblank. reflexivity. }
  split; [by rewrite update_pentanomial_blank|].
  split; [exact Hl|]. split; [by apply run_batches_stopped|].
  subst w_end. world_fields.
  exact (batch_baseline _ _ _ _ _ _ _ _ _ Hpre Hadv).
Qed.

Lemma blank_line_aborts_batch_witness :
  snd (run_batches false 10 [blank_env; failing_env] sample_start) = Ret Finished /\
  games_remaining (fst (run_batches false 10 [blank_env; failing_env] sample_start)) = 10.
Proof.
  pose (wp := fst (launch_preamble (command blank_env) false 10 blank_env sample_start)).
  pose (w1 := default sample_start
                (advance false (replies blank_env) [Line game1_line] (start_batch wp))).
  destruct (blank_line_aborts_batch false 10 blank_env [failing_env]
              [Line game1_line] "" [Line game2_line] sample_start wp w1)
    as (_ & _ & Hloop & _ & Hgr).
  - reflexivity.
  - reflexivity.
  - reflexivity.
  - vm_compute. reflexivity.
  - reflexivity.
  - rewrite Hloop. split; [reflexivity | exact Hgr].
Defined.

(** ** The body of the loop, step by step *)

Lemma on_rounds_validate_raises wld w e :
  snd (validate_pentanomial wld (rounds w)) = Raise e ->
  on_rounds (validate_pentanomial wld) w = (w, Raise e).
Proof.
  intros Hv. unfold on_rounds.
  pose proof (validate_pentanomial_state wld (rounds w)) as Hs.
  destruct (validate_pentanomial wld (rounds w)) as [rs r]. simpl in *. subst.
  destruct w; reflexivity.
Qed.

Lemma score_block_run st replies line w :
  score_block st replies line w =
  match parse_score line with
  | Raise e => (w, Raise e)
  | Ret wld =>
      match snd (validate_pentanomial wld (rounds w)) with
      | Raise e => (w, Raise e)
      | Ret _ =>
          match record_score st wld w with
          | (ws, Ret _) => report replies ws
          | (ws, Raise e) => (ws, Raise e)
          end
      end
  end.
Proof.
  unfold score_block. unfold bind at 1. unfold pure.
  destruct (parse_score line) as [wld|e]; [|reflexivity].
  unfold bind at 1.
  destruct (snd (validate_pentanomial wld (rounds w))) as [[]|e] eqn:Hv.
  - rewrite (on_rounds_validate _ _ Hv). reflexivity.
  - rewrite (on_rounds_validate_raises _ _ e Hv). reflexivity.
Qed.

Lemma handle_line_run st replies line w :
  handle_line st replies line w =
  if Py.contains "Finished match" line
  then (set_trace (trace w ++ [KillProcess])%list w, Ret (Return {| task_alive := true |}))
  else
    match (if Py.contains "Score" line then score_block st replies line else ret Next)
            (fst (count_faults line w)) with
    | (w2, Ret Next) =>
        match update_pentanomial (stats_pentanomial (old_stats w2)) line (rounds w2) with
        | (rs, Ret pent) =>
            (set_result_stats (set_stats_pentanomial pent (result_stats w2))
               (set_rounds rs w2), Ret Next)
        | (rs, Raise e) => (set_rounds rs w2, Raise e)
        end
    | (w2, r) => (w2, r)
    end.
Proof.
  unfold handle_line. destruct (Py.contains "Finished match" line); [reflexivity|].
  unfold bind at 1. rewrite (count_faults_frame line w). cbn [fst].
  unfold bind at 1.
  destruct ((if Py.contains "Score" line then score_block st replies line else ret Next) _)
    as [w2 [[| |s]|e]]; try reflexivity.
  unfold bind at 1. unfold get at 1. unfold bind at 1. unfold on_rounds.
  destruct (update_pentanomial _ line (rounds w2)) as [rs [pent|e]]; reflexivity.
Qed.

(** ** The ends of a batch *)

(** X15.  A line that holds [Finished match] ends the batch at once: the match
    runner is killed, the line is looked at no further (no crash, time
    loss or result is taken from it), the turns after it are not run,
    and [run_games] goes on with [old_stats] set to the batch's
    [result['stats']] and [games_remaining] lowered by [games_to_play]. *)
Theorem finished_match_ends_batch st gtp env envs pre line post w wp w1 :
  0 < games_remaining w ->
  launch_preamble (command env) st gtp env w = (wp, Ret tt) ->
  ticks env = (pre ++ Line line :: post)%list ->
  advance st (replies env) pre (start_batch wp) = Some w1 ->
  Py.contains "Finished match" line = true ->
  let w_end := set_trace (trace w1 ++ [KillProcess])%list w1 in
  launch_cutechess (command env) st gtp env w = (w_end, Ret {| task_alive := true |}) /\
  run_batches st gtp (env :: envs) w =
    run_batches st gtp envs
      (set_games_remaining (games_remaining w - gtp)
         (set_old_stats (result_stats w1) w_end)).
Proof.
  intros Hgr Hpre Hticks Hadv Hfm w_end.
  assert (Hl : launch_cutechess (command env) st gtp env w
               = (w_end, Ret {| task_alive := true |})).
  { rewrite (launch_at_line st gtp env pre line post w wp w1 Hpre Hticks Hadv).
    unfold handle_line. rewrite Hfm. reflexivity. }
  split; [exact Hl|].
  rewrite (run_batches_credited st gtp env envs w w_end Hgr Hl).
  subst w_end. world_fields.
  destruct (batch_baseline _ _ _ _ _ _ _ _ _ Hpre Hadv) as [_ ->]. reflexivity.
Qed.

Lemma finished_match_ends_batch_witness :
  games_remaining
    (fst (run_batches false 10 [finishing_env] sample_start)) = 0 /\
  trace (fst (run_batches false 10 [finishing_env] sample_start)) =
    [Spawn ["cutechess-cli"; "-repeat"; "-engine"; "name=New-abc";
            "-engine"; "name=Base-xyz"; "-each"; "proto=uci"];
     KillProcess].
Proof.
  pose (wp := fst (launch_preamble (command finishing_env) false 10 finishing_env
                     sample_start)).
  pose (w1 := default sample_start
                (advance false (replies finishing_env) [Line game1_line]
                   (start_batch wp))).
  destruct (finished_match_ends_batch false 10 finishing_env []
              [Line game1_line] "Finished match" [Line game2_line] sample_start wp w1)
    as (_ & Hloop).
  - reflexivity.
  - reflexivity.
  - reflexivity.
  - vm_compute. reflexivity.
  - reflexivity.
  - rewrite Hloop. split; vm_compute; reflexivity.
Defined.

Lemma launch_after_turns st gtp env pre w wp w1 :
  launch_preamble (command env) st gtp env w = (wp, Ret tt) ->
  advance st (replies env) pre (start_batch wp) = Some w1 ->
  (ticks env = pre \/
   exists rc post, rc <> 0 /\ ticks env = (pre ++ Empty (Some rc) :: post)%list) ->
  launch_cutechess (command env) st gtp env w =
    (set_trace (trace w1 ++ [KillProcess])%list w1, Ret {| task_alive := true |}).
Proof.
  intros Hpre Hadv Hend. unfold launch_cutechess.
  eapply bind_run_eq; [exact Hpre|]. cbv beta.
  unfold try_except, run_game.
  erewrite bind_run_eq; [| reflexivity | reflexivity]. cbv beta.
  destruct Hend as [-> | (rc & post & Hrc & ->)].
  - rewrite <- (app_nil_r pre) at 1.
    rewrite (run_loop_advance _ _ _ _ _ _ Hadv). reflexivity.
  - rewrite (run_loop_advance _ _ _ _ _ _ Hadv).
    cbn [run_loop tick_step truthy].
    apply Z.eqb_neq in Hrc. rewrite Hrc. reflexivity.
Qed.

(** X16.  When the deadline passes, or when the queue is empty and the match
    runner has ended with a non-zero return code, the loop is left, the
    match runner is killed and the batch counts as played in full:
    [run_games] lowers [games_remaining] by [games_to_play], however
    many games were finished. *)
Theorem unfinished_batch_is_credited st gtp env envs pre w wp w1 :
  0 < games_remaining w ->
  launch_preamble (command env) st gtp env w = (wp, Ret tt) ->
  advance st (replies env) pre (start_batch wp) = Some w1 ->
  (ticks env = pre \/
   exists rc post, rc <> 0 /\ ticks env = (pre ++ Empty (Some rc) :: post)%list) ->
  let w_end := set_trace (trace w1 ++ [KillProcess])%list w1 in
  launch_cutechess (command env) st gtp env w = (w_end, Ret {| task_alive := true |}) /\
  run_batches st gtp (env :: envs) w =
    run_batches st gtp envs
      (set_games_remaining (games_remaining w - gtp)
         (set_old_stats (result_stats w1) w_end)).
Proof.
  intros Hgr Hpre Hadv Hend w_end.
  pose proof (launch_after_turns st gtp env pre w wp w1 Hpre Hadv Hend) as Hl.
  split; [exact Hl|].
  rewrite (run_batches_credited st gtp env envs w w_end Hgr Hl).
  subst w_end. world_fields.
  destruct (batch_baseline _ _ _ _ _ _ _ _ _ Hpre Hadv) as [_ ->]. reflexivity.
Qed.

Lemma unfinished_batch_is_credited_witness :
  games_remaining (fst (run_batches false 10 [crashing_env] sample_start)) = 0 /\
  wins (old_stats (fst (run_batches false 10 [crashing_env] sample_start)))
  + losses (old_stats (fst (run_batches false 10 [crashing_env] sample_start)))
  + draws (old_stats (fst (run_batches false 10 [crashing_env] sample_start))) = 0.
Proof.
  pose (wp := fst (launch_preamble (command crashing_env) false 10 crashing_env
                     sample_start)).
  pose (w1 := default sample_start
                (advance false (replies crashing_env) [Line game1_line]
                   (start_batch wp))).
  destruct (unfinished_batch_is_credited false 10 crashing_env []
              [Line game1_line] sample_start wp w1)
    as (_ & Hloop).
  - reflexivity.
  - reflexivity.
  - vm_compute. reflexivity.
  - right. exists 1, [Line game2_line]. split; [lia | reflexivity].
  - rewrite Hloop. split; vm_compute; reflexivity.
Defined.

Lemma advance_sleeping st replies n w :
  advance st replies (replicate n (Empty (Some 0))) w
  = Some (set_trace (trace w ++ replicate n (Sleep 1))%list w).
Proof.
  revert w. induction n as [|n IH]; intros w.
  - cbn [replicate advance]. rewrite app_nil_r. by destruct w.
  - cbn [replicate advance].
    change (tick_step st replies (Empty (Some 0)) w)
      with (set_trace (trace w ++ [Sleep 1])%list w, @Ret flow Next).
    cbv iota. rewrite IH. f_equal. apply world_eq; world_fields; try reflexivity.
    by rewrite <- app_assoc.
Qed.

(** X17.  [if p.poll():] does not take the return code 0 for an exit: while
    the queue is empty and the match runner has ended with code 0, the
    loop sleeps one second per turn until the deadline, and only then is
    [kill_process] called. *)
Theorem exit_code_zero_is_waited_for st gtp env (n : nat) w wp :
  launch_preamble (command env) st gtp env w = (wp, Ret tt) ->
  ticks env = replicate n (Empty (Some 0)) ->
  launch_cutechess (command env) st gtp env w =
    (set_trace (trace wp ++ replicate n (Sleep 1) ++ [KillProcess])%list (start_batch wp),
     Ret {| task_alive := true |}).
Proof.
  intros Hpre Ht.
  rewrite (launch_after_turns st gtp env (replicate n (Empty (Some 0))) w wp
             (set_trace (trace (start_batch wp) ++ replicate n (Sleep 1))%list
                (start_batch wp)) Hpre (advance_sleeping _ _ _ _)) by (by left).
  f_equal. apply world_eq; world_fields; try reflexivity.
  by rewrite <- app_assoc.
Qed.

Lemma exit_code_zero_is_waited_for_witness :
  trace (fst (launch_cutechess (command ended_env) false 10 ended_env sample_start)) =
    [Spawn ["cutechess-cli"; "-repeat"; "-engine"; "name=New-abc";
            "-engine"; "name=Base-xyz"; "-each"; "proto=uci"];
     Sleep 1; Sleep 1; Sleep 1; KillProcess].
Proof.
  rewrite (exit_code_zero_is_waited_for false 10 ended_env 3 sample_start
             (fst (launch_preamble (command ended_env) false 10 ended_env sample_start))
             eq_refl eq_refl).
  reflexivity.
Defined.

(** ** A [Score] line that is not validated *)

Lemma validate_pentanomial_raises wld rs e :
  snd (validate_pentanomial wld rs) = Raise e ->
  e = AssertionError \/ e = KeyError "pentanomial" \/ e = KeyError "trinomial".
Proof.
  destruct wld as [[W L] D]. destruct rs as [[p|] [t|] g];
    unfold validate_pentanomial, get_pentanomial, get_trinomial, bind, get, or_raise,
      ret, raise, assert; cbn [pentanomial trinomial snd];
    try (intros [= <-]; tauto).
  destruct (_ =? _); [|intros [= <-]; tauto].
  destruct (Qltb _ _); [discriminate | intros [= <-]; tauto].
Qed.

Lemma count_faults_wld line w :
  let s := result_stats (fst (count_faults line w)) in
  wins s = wins (result_stats w) /\ losses s = losses (result_stats w) /\
  draws s = draws (result_stats w) /\
  stats_pentanomial s = stats_pentanomial (result_stats w).
Proof.
  unfold count_faults, bind, modify, ret.
  destruct (_ || _), (Py.contains "on time" line); cbn; repeat split; reflexivity.
Qed.

(** X18.  When the counts of a [Score] line fail the validation (or the
    counters do not exist yet), nothing is recorded or sent for that
    line: [wins], [losses] and [draws] of the report stay as they are,
    the match runner is killed, the batch ends with
    [{'task_alive': False}] and [run_games] leaves its loop without
    assigning [old_stats] or [games_remaining]. *)
Theorem failed_validation_stops_worker st gtp env envs pre line post wld e w wp w1 :
  0 < games_remaining w ->
  launch_preamble (command env) st gtp env w = (wp, Ret tt) ->
  ticks env = (pre ++ Line line :: post)%list ->
  advance st (replies env) pre (start_batch wp) = Some w1 ->
  Py.contains "Finished match" line = false ->
  Py.contains "Score" line = true ->
  parse_score line = Ret wld ->
  snd (validate_pentanomial wld (rounds w1)) = Raise e ->
  let w_end := set_trace (trace w1 ++ [KillProcess])%list (fst (count_faults line w1)) in
  launch_cutechess (command env) st gtp env w = (w_end, Ret {| task_alive := false |}) /\
  run_batches st gtp (env :: envs) w = (w_end, Ret Finished) /\
  old_stats w_end = old_stats w /\ games_remaining w_end = games_remaining w /\
  wins (result_stats w_end) = wins (result_stats w1) /\
  losses (result_stats w_end) = losses (result_stats w1) /\
  draws (result_stats w_end) = draws (result_stats w1).
Proof.
  intros Hgr Hpre Hticks Hadv Hfm Hsc Hparse Hv w_end.
  assert (Hx : is_Exception e = true).
  { destruct (validate_pentanomial_raises _ _ _ Hv) as [-> | [-> | ->]]; reflexivity. }
  assert (Hl : launch_cutechess (command env) st gtp env w
               = (w_end, Ret {| task_alive := false |})).
  { rewrite (launch_at_line st gtp env pre line post w wp w1 Hpre Hticks Hadv).
    unfold handle_line. rewrite Hfm, Hsc. cbv iota.
    unfold bind at 1. rewrite (count_faults_frame line w1).
    unfold bind at 1. unfold score_block.
    unfold bind at 1. unfold pure at 1. rewrite Hparse.
    unfold bind at 1. rewrite (on_rounds_validate_raises wld _ e) by exact Hv.
    rewrite Hx. subst w_end. rewrite (count_faults_frame line w1) at 3. reflexivity. }
  split; [exact Hl|]. split; [by apply run_batches_stopped|].
  assert (E : fst (count_faults line w1)
              = set_result_stats (result_stats (fst (count_faults line w1))) w1)
    by (rewrite (count_faults_frame line w1) at 1; reflexivity).
  subst w_end. rewrite E. world_fields.
  destruct (batch_baseline _ _ _ _ _ _ _ _ _ Hpre Hadv) as [-> ->].
  destruct (count_faults_wld line w1) as (Hw & Hlo & Hd & _).
  repeat split; assumption.
Qed.

Lemma failed_validation_stops_worker_witness :
  snd (run_batches false 10 [miscounting_env; failing_env] sample_start) = Ret Finished /\
  games_remaining (fst (run_batches false 10 [miscounting_env; failing_env] sample_start))
    = 10.
Proof.
  pose (wp := fst (launch_preamble (command miscounting_env) false 10 miscounting_env
                     sample_start)).
  pose (w1 := default sample_start
                (advance false (replies miscounting_env) [Line game1_line]
                   (start_batch wp))).
  destruct (failed_validation_stops_worker false 10 miscounting_env [failing_env]
              [Line game1_line] score_line [Line game2_line] (0, 1, 1) AssertionError
              sample_start wp w1)
    as (_ & Hloop & _ & Hgr & _).
  - reflexivity.
  - reflexivity.
  - reflexivity.
  - vm_compute. reflexivity.
  - reflexivity.
  - reflexivity.
  - reflexivity.
  - vm_compute. reflexivity.
  - rewrite Hloop. split; [reflexivity | exact Hgr].
Defined.

(** ** Reports that go through, and reports that are not due *)

Lemma update_attempts_succeeded replies n k w response :
  (k < n)%nat -> all_fail replies (posts w) k ->
  replies (posts w + k)%nat = Reply response -> task_alive response = true ->
  update_attempts replies n w =
  (set_posts (posts w + k + 1)
     (set_trace (trace w ++ failed_attempts k (result_stats w)
                 ++ [PostUpdateTask (result_stats w)])%list w),
   Ret Succeeded).
Proof.
  revert n w. induction k as [|k IH]; intros n w Hk Hf Hr Ha.
  - destruct n as [|n]; [lia|]. cbn [update_attempts].
    eapply bind_run_eq; [apply post_update_task_run|]. cbv beta.
    rewrite Nat.add_0_r in Hr. rewrite Hr, Ha. cbn [negb].
    unfold ret. f_equal. apply world_eq; world_fields; try reflexivity; lia.
  - destruct n as [|n]; [lia|].
    apply all_fail_S in Hf as [(e & He & Hx) Hrest].
    cbn [update_attempts].
    eapply bind_run_eq; [apply post_update_task_run|]. cbv beta.
    rewrite He, Hx.
    eapply bind_run_eq; [apply perform_run|]. cbv beta.
    rewrite (IH n); [| lia | exact Hrest | | exact Ha].
    2: { cbn [posts set_trace set_posts]. rewrite <- Hr. f_equal. lia. }
    f_equal. apply world_eq; world_fields; try reflexivity; [lia|].
    rewrite failed_attempts_S. rewrite <- !app_assoc. reflexivity.
Qed.

Lemma score_block_report st replies line w wld t :
  parse_score line = Ret wld ->
  snd (validate_pentanomial wld (rounds w)) = Ret tt ->
  trinomial (rounds w) = Some t -> length t = 3%nat ->
  score_block st replies line (fst (count_faults line w))
  = report replies (before_report st wld line w).
Proof.
  intros Hparse Hv Ht Lt.
  assert (E : fst (count_faults line w)
              = set_result_stats (result_stats (fst (count_faults line w))) w)
    by (rewrite (count_faults_frame line w) at 1; reflexivity).
  set (w0 := fst (count_faults line w)) in *.
  assert (Hw0 : rounds w0 = rounds w) by (rewrite E; reflexivity).
  unfold score_block.
  unfold bind at 1; unfold pure at 1; rewrite Hparse.
  unfold bind at 1; rewrite (on_rounds_validate wld w0) by (rewrite Hw0; exact Hv).
  unfold bind at 1.
  rewrite (record_score_frame st wld w0 t) by (rewrite ?Hw0; assumption).
  f_equal. unfold before_report. fold w0.
  rewrite (record_score_frame st wld w0 t) at 3 by (rewrite ?Hw0; assumption).
  reflexivity.
Qed.

(** X19.  A report that is due and is answered with [task_alive] true at the
    attempt [k+1 <= 5] is sent [k+1] times with the same statistics, is
    followed by a sleep of [HTTP_TIMEOUT] after each failure only, and
    sets [num_game_pairs_updated] to the number of finished pairs; the
    loop goes on. *)
Theorem report_succeeds_after_retries st replies line w wld p (k : nat) response :
  rounds_ok (rounds w) ->
  parse_score line = Ret wld ->
  snd (validate_pentanomial wld (rounds w)) = Ret tt ->
  pentanomial (rounds w) = Some p ->
  num_game_pairs_updated w < Py.sum p ->
  (k < 5)%nat ->
  all_fail replies (posts w) k ->
  replies (posts w + k)%nat = Reply response ->
  task_alive response = true ->
  let ws := before_report st wld line w in
  score_block st replies line (fst (count_faults line w)) =
  (set_num_game_pairs_updated (Py.sum p)
     (set_posts (posts w + k + 1)
        (set_trace (trace w ++ failed_attempts k (result_stats ws)
                    ++ [PostUpdateTask (result_stats ws)])%list ws)),
   Ret Next).
Proof.
  intros Hok Hparse Hv Hp Hdue Hk Hfail Hreply Halive ws.
  destruct (validated_counters wld _ Hok Hv) as (p' & t & Hp' & Ht & Lt).
  destruct (before_report_fields st wld line w t Ht Lt)
    as (Er & Eu & Eo & Eg & Eposts & Etr).
  fold ws in Er, Eu, Eo, Eg, Eposts, Etr.
  rewrite (score_block_report st replies line w wld t Hparse Hv Ht Lt). fold ws.
  unfold report.
  unfold bind at 1. rewrite (on_rounds_get_pentanomial ws p) by (rewrite Er; exact Hp).
  unfold bind at 1. unfold get at 1.
  rewrite Eu. apply Z.ltb_lt in Hdue. rewrite Hdue.
  unfold bind at 1.
  rewrite (update_attempts_succeeded replies 5 k ws response)
    by (rewrite ?Eposts; assumption).
  unfold bind, modify, ret. rewrite Eposts, Etr. reflexivity.
Qed.

(** X20.  A [Score] line that arrives when no pair has finished since the
    last report sends nothing: the counts are recorded and the loop goes
    on. *)
Theorem report_not_due_sends_nothing st replies line w wld p :
  rounds_ok (rounds w) ->
  parse_score line = Ret wld ->
  snd (validate_pentanomial wld (rounds w)) = Ret tt ->
  pentanomial (rounds w) = Some p ->
  Py.sum p <= num_game_pairs_updated w ->
  let ws := before_report st wld line w in
  score_block st replies line (fst (count_faults line w)) = (ws, Ret Next) /\
  trace ws = trace w /\ posts ws = posts w /\
  num_game_pairs_updated ws = num_game_pairs_updated w.
Proof.
  intros Hok Hparse Hv Hp Hdue ws.
  destruct (validated_counters wld _ Hok Hv) as (p' & t & Hp' & Ht & Lt).
  destruct (before_report_fields st wld line w t Ht Lt)
    as (Er & Eu & Eo & Eg & Eposts & Etr).
  fold ws in Er, Eu, Eo, Eg, Eposts, Etr.
  split; [|auto].
  rewrite (score_block_report st replies line w wld t Hparse Hv Ht Lt). fold ws.
  unfold report.
  unfold bind at 1. rewrite (on_rounds_get_pentanomial ws p) by (rewrite Er; exact Hp).
  unfold bind at 1. unfold get at 1.
  rewrite Eu. apply Z.ltb_ge in Hdue. rewrite Hdue. reflexivity.
Qed.

Lemma after_pair_ok : rounds_ok (rounds after_pair).
Proof.
  eapply (advance_rounds_ok false (fun _ => Reply {| task_alive := true |})
            [Line game1_line; Line game2_line] (start_batch sample_start)).
  - vm_compute. reflexivity.
  - left. reflexivity.
Qed.

Lemma after_one_game_ok : rounds_ok (rounds after_one_game).
Proof.
  eapply (advance_rounds_ok false (fun _ => Reply {| task_alive := true |})
            [Line game1_line] (start_batch sample_start)).
  - vm_compute. reflexivity.
  - left. reflexivity.
Qed.

Lemma report_succeeds_after_retries_witness :
  snd (score_block false retry_replies score_line
         (fst (count_faults score_line after_pair))) = Ret Next /\
  num_game_pairs_updated
    (fst (score_block false retry_replies score_line
            (fst (count_faults score_line after_pair)))) = 1 /\
  posts
    (fst (score_block false retry_replies score_line
            (fst (count_faults score_line after_pair)))) = 2%nat.
Proof.
  rewrite (report_succeeds_after_retries false retry_replies score_line after_pair
             (0, 1, 1) [0; 1; 0; 0; 0] 1 {| task_alive := true |}).
  - repeat split; reflexivity.
  - exact after_pair_ok.
  - reflexivity.
  - vm_compute. reflexivity.
  - vm_compute. reflexivity.
  - vm_compute. reflexivity.
  - lia.
  - intros k Hk. exists RequestException. split; [|reflexivity].
    destruct k as [|k]; [reflexivity | lia].
  - reflexivity.
  - reflexivity.
Defined.

Lemma report_not_due_sends_nothing_witness :
  snd (score_block false retry_replies draw_score_line
         (fst (count_faults draw_score_line after_one_game))) = Ret Next /\
  trace (before_report false (0, 0, 1) draw_score_line after_one_game)
    = trace after_one_game.
Proof.
  destruct (report_not_due_sends_nothing false retry_replies draw_score_line
              after_one_game (0, 0, 1) [0; 0; 0; 0; 0])
    as (Hrun & Htr & _).
  - exact after_one_game_ok.
  - reflexivity.
  - vm_compute. reflexivity.
  - vm_compute. reflexivity.
  - vm_compute. discriminate.
  - rewrite Hrun. split; [reflexivity | exact Htr].
Defined.

(** ** The statistics that are sent *)

Lemma payloads_app a b : payloads (a ++ b) = (payloads a ++ payloads b)%list.
Proof. unfold payloads. apply flat_map_app. Qed.

Lemma sends_balanced_refl o w : sends_balanced o w w.
Proof. exists []. split; [by rewrite app_nil_r | constructor]. Qed.

Lemma sends_balanced_trans o w1 w2 w3 :
  sends_balanced o w1 w2 -> sends_balanced o w2 w3 -> sends_balanced o w1 w3.
Proof.
  intros (n1 & E1 & F1) (n2 & E2 & F2). exists (n1 ++ n2)%list. split.
  - by rewrite E2, E1, app_assoc.
  - rewrite payloads_app. by apply Forall_app.
Qed.

Lemma sends_balanced_same o w w' : trace w' = trace w -> sends_balanced o w w'.
Proof. intros E. exists []. split; [by rewrite app_nil_r | constructor]. Qed.

Lemma sends_balanced_kill o w :
  sends_balanced o w (set_trace (trace w ++ [KillProcess])%list w).
Proof. exists [KillProcess]. split; [reflexivity | constructor]. Qed.

Lemma update_attempts_sends replies n w :
  let w' := fst (update_attempts replies n w) in
  (exists new, trace w' = (trace w ++ new)%list /\
               Forall (fun s => s = result_stats w) (payloads new)) /\
  rounds w' = rounds w /\ result_stats w' = result_stats w /\
  old_stats w' = old_stats w.
Proof.
  revert w. induction n as [|n IH]; intros w; cbn [update_attempts].
  - cbn. split; [|auto]. exists []. split; [by rewrite app_nil_r | constructor].
  - cbv zeta.
    rewrite (bind_run_eq (post_update_task replies) _ w _ _ _
               (post_update_task_run replies w) eq_refl).
    set (w1 := set_posts _ _).
    destruct (replies (posts w)) as [response|e].
    + destruct (negb (task_alive response)).
      * unfold kill_process.
        rewrite (bind_run_eq (perform KillProcess) _ w1 _ _ _ (perform_run _ _) eq_refl).
        unfold ret. cbn [fst].
        subst w1. world_fields. split; [|auto].
        exists [PostUpdateTask (result_stats w); KillProcess].
        split; [by rewrite <- app_assoc | repeat constructor].
      * unfold ret. cbn [fst]. subst w1. world_fields. split; [|auto].
        exists [PostUpdateTask (result_stats w)]. split; [reflexivity | repeat constructor].
    + destruct (is_Exception e).
      * rewrite (bind_run_eq (perform (Sleep HTTP_TIMEOUT)) _ w1 _ _ _
                   (perform_run _ _) eq_refl).
        destruct (IH (set_trace (trace w1 ++ [Sleep HTTP_TIMEOUT])%list w1))
          as ((new & E & F) & Hr & Hs & Ho).
        split; [|split; [|split]].
        -- exists ([PostUpdateTask (result_stats w); Sleep HTTP_TIMEOUT] ++ new)%list.
           split.
           ++ rewrite E. subst w1. world_fields. by rewrite <- !app_assoc.
           ++ rewrite payloads_app. apply Forall_app. split; [repeat constructor|].
              exact F.
        -- rewrite Hr. reflexivity.
        -- rewrite Hs. reflexivity.
        -- rewrite Ho. reflexivity.
      * unfold raise. cbn [fst]. subst w1. world_fields. split; [|auto].
        exists [PostUpdateTask (result_stats w)]. split; [reflexivity | repeat constructor].
Qed.

Lemma sum_zip_add (p q : list Z) :
  length p = length q -> Py.sum (zip_with Z.add p q) = Py.sum p + Py.sum q.
Proof.
  revert q. induction p as [|x p IH]; intros [|y q] H; try discriminate H.
  - reflexivity.
  - cbn [zip_with Py.sum fold_right]. cbn [length] in H.
    unfold Py.sum in IH. rewrite IH by lia. lia.
Qed.

Lemma report_run replies w :
  report replies w =
  match pentanomial (rounds w) with
  | None => (w, Raise (KeyError "pentanomial"))
  | Some p =>
      if num_game_pairs_updated w <? Py.sum p then
        match update_attempts replies 5 w with
        | (w', Ret (Cancelled response)) => (w', Ret (Return response))
        | (w', Ret Exhausted) =>
            (set_trace (trace w' ++ [KillProcess])%list w', Ret Break)
        | (w', Ret Succeeded) => (set_num_game_pairs_updated (Py.sum p) w', Ret Next)
        | (w', Raise e) => (w', Raise e)
        end
      else (w, Ret Next)
  end.
Proof.
  unfold report. unfold bind at 1.
  destruct (pentanomial (rounds w)) as [p|] eqn:Hp.
  - rewrite (on_rounds_get_pentanomial w p Hp).
    unfold bind at 1. unfold get at 1.
    destruct (_ <? _); [|reflexivity].
    unfold bind at 1.
    destruct (update_attempts replies 5 w) as [w' [[|response|]|e]]; reflexivity.
  - unfold on_rounds, get_pentanomial, bind, get, or_raise. rewrite Hp.
    unfold raise. by destruct w.
Qed.

Lemma report_sends replies o w :
  balanced o (result_stats w) ->
  sends_balanced o w (fst (report replies w)) /\
  rounds (fst (report replies w)) = rounds w /\
  result_stats (fst (report replies w)) = result_stats w /\
  old_stats (fst (report replies w)) = old_stats w.
Proof.
  intros Hb. rewrite report_run.
  destruct (pentanomial (rounds w)) as [p|];
    [|cbn [fst]; split; [apply sends_balanced_refl | auto]].
  destruct (_ <? _); [|cbn [fst]; split; [apply sends_balanced_refl | auto]].
  destruct (update_attempts_sends replies 5 w) as ((new & E & F) & Hr & Hs & Ho).
  assert (Hsb : sends_balanced o w (fst (update_attempts replies 5 w))).
  { exists new. split; [exact E|]. eapply Forall_impl; [exact F|].
    intros s ->. exact Hb. }
  destruct (update_attempts replies 5 w) as [w' [[|response|]|e]]; cbn [fst] in *.
  - world_fields. split; [|auto].
    destruct Hsb as (n & En & Fn). exists n. split; [exact En | exact Fn].
  - auto.
  - world_fields. split; [|auto].
    eapply sends_balanced_trans; [exact Hsb | apply sends_balanced_kill].
  - auto.
Qed.

Lemma validated_total W L D rs p t :
  snd (validate_pentanomial (W, L, D) rs) = Ret tt ->
  pentanomial rs = Some p -> trinomial rs = Some t ->
  W + L + D = 2 * Py.sum p + Py.sum t.
Proof.
  intros Hv Hp Ht. destruct rs as [op ot g]. cbn [pentanomial trinomial] in *. subst.
  change {| pentanomial := Some p; trinomial := Some t; games := g |}
    with (counters p t g) in Hv.
  rewrite validate_pentanomial_run in Hv. cbn [snd] in Hv.
  destruct (W + L + D =? 2 * Py.sum p + Py.sum t) eqn:E; [|discriminate Hv].
  by apply Z.eqb_eq in E.
Qed.

Lemma score_block_sends replies line o w :
  in_step o w -> length (stats_pentanomial o) = 5%nat ->
  sends_balanced o w (fst (score_block false replies line w)) /\
  rounds (fst (score_block false replies line w)) = rounds w /\
  old_stats (fst (score_block false replies line w)) = old_stats w /\
  stats_pentanomial (result_stats (fst (score_block false replies line w)))
    = stats_pentanomial (result_stats w).
Proof.
  intros (Ho & Hok & Hpent) Lo. rewrite score_block_run.
  destruct (parse_score line) as [[[W L] D]|e];
    [|cbn [fst]; split; [apply sends_balanced_refl | auto]].
  destruct (snd (validate_pentanomial (W, L, D) (rounds w))) as [[]|e] eqn:Hv;
    [|cbn [fst]; split; [apply sends_balanced_refl | auto]].
  destruct (validated_counters _ _ Hok Hv) as (p & t & Hp & Ht & Lt).
  destruct t as [|t0 [|t1 [|t2 [|]]]]; try discriminate Lt.
  rewrite (record_score_run false W L D w t0 t1 t2 Ht). cbn [negb].
  set (ws := set_result_stats _ w).
  assert (Hb : balanced o (result_stats ws)).
  { pose proof (validated_total W L D _ p _ Hv Hp Ht) as Htot.
    destruct Hok as [He | [n Hc]]; [rewrite He in Hp; discriminate Hp|].
    assert (Lp : length p = 5%nat).
    { destruct Hc as (p' & t & Hp' & _ & Lp & _). congruence. }
    unfold balanced, games_of. subst ws. world_fields.
    cbn [wins losses draws stats_pentanomial set_wld].
    rewrite (Hpent p Hp), sum_zip_add by congruence.
    rewrite Ho. unfold Py.sum in *. cbn [fold_right] in Htot. lia. }
  destruct (report_sends replies o ws Hb) as (Hs & Hr & Hrs & Hos).
  split; [|split; [|split]].
  - destruct Hs as (new & E & F). exists new. split; [exact E | exact F].
  - rewrite Hr. reflexivity.
  - rewrite Hos. reflexivity.
  - rewrite Hrs. reflexivity.
Qed.

Lemma update_pentanomial_returns old line rs rs' pent p :
  update_pentanomial old line rs = (rs', Ret pent) ->
  pentanomial rs' = Some p -> length p = 5%nat -> length old = 5%nat ->
  pent = zip_with Z.add p old.
Proof.
  unfold update_pentanomial. intros H Hp Lp Lo.
  unfold bind at 1 in H. rewrite init_rounds_run in H.
  unfold bind at 1 in H.
  destruct (is_finished_game (Py.split_ws line) (with_defaults rs)) as [r1 [b|e]];
    [|discriminate H].
  unfold bind at 1 in H.
  destruct ((if b then oe <- store_game (Py.split_ws line);; pair_games oe.1 oe.2
             else ret ()) r1) as [r2 [[]|e]]; [|discriminate H].
  pose proof (cumulative_pentanomial_state old r2) as Hs. rewrite H in Hs.
  cbn [fst] in Hs. subst r2.
  rewrite (cumulative_pentanomial_run old rs' p Hp Lp Lo) in H. by injection H as <-.
Qed.

Lemma handle_line_sends replies line o w :
  in_step o w -> length (stats_pentanomial o) = 5%nat ->
  sends_balanced o w (fst (handle_line false replies line w)) /\
  (snd (handle_line false replies line w) = Ret Next ->
   in_step o (fst (handle_line false replies line w))).
Proof.
  intros Hin Lo. rewrite handle_line_run.
  destruct (Py.contains "Finished match" line).
  { cbn [fst snd]. split; [apply sends_balanced_kill | discriminate]. }
  assert (E0 : fst (count_faults line w)
               = set_result_stats (result_stats (fst (count_faults line w))) w)
    by (rewrite (count_faults_frame line w) at 1; reflexivity).
  set (w0 := fst (count_faults line w)) in *.
  assert (Hin0 : in_step o w0).
  { destruct Hin as (Ho & Hok & Hpent). rewrite E0.
    split; [exact Ho|]. split; [exact Hok|].
    intros p Hp. world_fields. subst w0.
    destruct (count_faults_wld line w) as (_ & _ & _ & ->). by apply Hpent. }
  assert (Htr0 : trace w0 = trace w) by (rewrite E0; reflexivity).
  assert (Hf :
    sends_balanced o w0
      (fst ((if Py.contains "Score" line then score_block false replies line
             else ret Next) w0)) /\
    in_step o
      (fst ((if Py.contains "Score" line then score_block false replies line
             else ret Next) w0))).
  { destruct (Py.contains "Score" line).
    - destruct (score_block_sends replies line o w0 Hin0 Lo) as (Hs & Hr & Hos & Hp).
      split; [exact Hs|].
      destruct Hin0 as (Ho & Hok & Hpent).
      split; [by rewrite Hos|]. split; [by rewrite Hr|].
      intros p Hpp. rewrite Hp. apply Hpent. by rewrite <- Hr.
    - cbn [ret fst]. split; [apply sends_balanced_refl | exact Hin0]. }
  destruct ((if Py.contains "Score" line then score_block false replies line
             else ret Next) w0) as [w2 r].
  cbn [fst] in Hf. destruct Hf as (Hs2 & Hin2).
  assert (Hs02 : sends_balanced o w w2).
  { destruct Hs2 as (new & E & F). exists new. split; [by rewrite E, Htr0 | exact F]. }
  destruct r as [[| |s]|e]; cbn [fst snd];
    [| split; [exact Hs02 | discriminate] ..].
  destruct Hin2 as (Ho2 & Hok2 & Hpent2).
  pose proof (update_pentanomial_rounds_ok (stats_pentanomial (old_stats w2)) line
                (rounds w2) Hok2) as Hu.
  destruct (update_pentanomial (stats_pentanomial (old_stats w2)) line (rounds w2))
    as [rs [pent|e]] eqn:Hup; cbn [fst snd] in *.
  2: { split; [|discriminate].
       destruct Hs02 as (new & E & F). exists new. split; [exact E | exact F]. }
  split.
  - destruct Hs02 as (new & E & F). exists new. split; [exact E | exact F].
  - intros _. split; [exact Ho2|]. split; [exact Hu|].
    intros p Hp. world_fields. cbn [stats_pentanomial set_stats_pentanomial].
    cbn [rounds set_rounds set_result_stats] in Hp.
    destruct Hu as [He | [n Hc]]; [rewrite He in Hp; discriminate Hp|].
    assert (Lp : length p = 5%nat).
    { destruct Hc as (p' & t & Hp' & _ & Lp & _). congruence. }
    rewrite Ho2 in Hup.
    exact (update_pentanomial_returns _ _ _ _ _ _ Hup Hp Lp Lo).
Qed.

Lemma tick_step_sends replies t o w :
  in_step o w -> length (stats_pentanomial o) = 5%nat ->
  sends_balanced o w (fst (tick_step false replies t w)) /\
  (snd (tick_step false replies t w) = Ret Next ->
   in_step o (fst (tick_step false replies t w))).
Proof.
  intros Hin Lo. destruct t as [line|poll]; cbn [tick_step].
  - by apply handle_line_sends.
  - destruct (truthy poll).
    + cbn [ret fst snd]. split; [apply sends_balanced_refl | discriminate].
    + unfold bind. rewrite perform_run. unfold ret. cbn [fst snd]. split.
      * exists [Sleep 1]. split; [reflexivity | constructor].
      * intros _. exact Hin.
Qed.

Lemma after_loop_sends o w : sends_balanced o w (fst (after_loop w)).
Proof.
  unfold after_loop, bind, kill_process. rewrite perform_run. unfold ret. cbn [fst].
  apply sends_balanced_kill.
Qed.

Lemma run_loop_sends replies ts o w :
  in_step o w -> length (stats_pentanomial o) = 5%nat ->
  sends_balanced o w (fst (run_loop false replies ts w)).
Proof.
  intros Hin Lo. revert w Hin. induction ts as [|t ts IH]; intros w Hin; cbn [run_loop].
  - apply after_loop_sends.
  - unfold bind at 1.
    destruct (tick_step_sends replies t o w Hin Lo) as (Hs & Hnext).
    destruct (tick_step false replies t w) as [w' [[| |s]|e]]; cbn [fst snd] in *.
    + eapply sends_balanced_trans; [exact Hs|]. apply IH. by apply Hnext.
    + eapply sends_balanced_trans; [exact Hs | apply after_loop_sends].
    + exact Hs.
    + exact Hs.
Qed.

(** X21.  Without tuning, whatever the match runner prints and whatever the
    coordinator answers, the statistics of every request to
    [/api/update_task] of a batch are balanced: the games they add to
    [old_stats] are twice the pairs they add to its pentanomial. *)
Theorem reports_are_balanced env w :
  length (stats_pentanomial (old_stats w)) = 5%nat ->
  exists new,
    trace (fst (run_game false env w)) = (trace w ++ new)%list /\
    Forall (balanced (old_stats w)) (payloads new).
Proof.
  intros Lo. unfold run_game. unfold bind, modify.
  assert (Hin : in_step (old_stats w) (start_batch w)).
  { split; [reflexivity|]. split; [left; reflexivity|]. intros p Hp. discriminate Hp. }
  destruct (run_loop_sends (replies env) (ticks env) (old_stats w) (start_batch w) Hin Lo)
    as (new & E & F).
  exists new. split; [exact E | exact F].
Qed.

Lemma reports_are_balanced_witness :
  exists new,
    trace (fst (run_game false failing_env sample_start)) = (trace sample_start ++ new)%list /\
    Forall (balanced (old_stats sample_start)) (payloads new).
Proof. exact (reports_are_balanced failing_env sample_start eq_refl). Defined.

(** ** The loop of [run_games] *)

Lemma keeps_baseline_after_loop : keeps baseline after_loop.
Proof.
  unfold after_loop, kill_process.
  apply keeps_bind; [apply keeps_perform; intros; reflexivity | intros; apply keeps_ret].
Qed.

Lemma keeps_baseline_run_loop st replies ts : keeps baseline (run_loop st replies ts).
Proof.
  induction ts as [|t ts IH]; cbn [run_loop]; [apply keeps_baseline_after_loop|].
  apply keeps_bind; [apply keeps_baseline_tick_step|].
  intros [| |s]; [exact IH | apply keeps_baseline_after_loop | apply keeps_ret].
Qed.

Lemma keeps_baseline_run_game st env : keeps baseline (run_game st env).
Proof.
  unfold run_game. apply keeps_bind; [|intros; apply keeps_baseline_run_loop].
  apply keeps_modify. intros w. reflexivity.
Qed.

Lemma keeps_baseline_launch_cutechess cmd st gtp env :
  keeps baseline (launch_cutechess cmd st gtp env).
Proof.
  unfold launch_cutechess.
  apply keeps_bind; [apply keeps_baseline_launch_preamble|]. intros _.
  intros w. unfold try_except.
  pose proof (keeps_baseline_run_game st env w) as K.
  destruct (run_game st env w) as [w' [s|e]]; cbn [fst] in *; [exact K|].
  destruct (is_Exception e); cbn [fst]; [|exact K].
  unfold bind, kill_process. rewrite perform_run. unfold ret. cbn [fst]. exact K.
Qed.

Lemma launch_cutechess_games_remaining cmd st gtp env w :
  games_remaining (fst (launch_cutechess cmd st gtp env w)) = games_remaining w.
Proof.
  pose proof (keeps_baseline_launch_cutechess cmd st gtp env w) as K.
  unfold baseline in K. by injection K.
Qed.



(** X30.  Without tuning [games_to_play] is [games_remaining], and the loop of
    [run_games] runs one batch only: a batch that ends alive leaves no
    game to play, so that the games of the task which it did not finish
    are not played by this call. *)
Theorem one_batch_without_tuning env envs w :
  0 < games_remaining w ->
  run_batches false (games_remaining w) (env :: envs) w =
  match launch_cutechess (command env) false (games_remaining w) env w with
  | (w', Ret task_status) =>
      if task_alive task_status
      then (set_games_remaining 0 (set_old_stats (result_stats w') w'), Ret Finished)
      else (w', Ret Finished)
  | (w', Raise e) => (w', Raise e)
  end.
Proof.
  intros Hgr. cbn [run_batches]. apply Z.ltb_lt in Hgr. rewrite Hgr.
  pose proof (launch_cutechess_games_remaining (command env) false (games_remaining w)
                env w) as K.
  destruct (launch_cutechess (command env) false (games_remaining w) env w)
    as [w' [s|e]]; cbn [fst] in K; [|reflexivity].
  destruct (task_alive s); cbn [negb]; [|reflexivity].
  rewrite K, Z.sub_diag.
  destruct envs; cbn [run_batches]; world_fields; reflexivity.
Qed.

Lemma one_batch_without_tuning_witness :
  games_remaining sample_start = 10 /\
  games_remaining
    (fst (run_batches false (games_remaining sample_start)
            [crashing_env; failing_env] sample_start)) = 0 /\
  snd (run_batches false (games_remaining sample_start)
         [crashing_env; failing_env] sample_start) = Ret Finished.
Proof.
  split; [reflexivity|].
  rewrite (one_batch_without_tuning crashing_env [failing_env] sample_start)
    by (vm_compute; reflexivity).
  split; vm_compute; reflexivity.
Defined.

(** ** A bench output that lacks a line *)

Lemma verify_signature_run engine signature concurrency b tr :
  let busy := 1 <? concurrency in
  let before :=
    (tr ++ (if busy then [SpawnBusy (concurrency - 1)] else []) ++ [RunBench engine])%list in
  let after := if busy then [QuitBusy] else [] in
  verify_signature engine signature concurrency b tr =
  match scan_bench (bench_stderr b) "" None with
  | Raise e => ((before ++ after)%list, Raise e)
  | Ret (bench_sig, bench_nps) =>
      if negb (bench_returncode b =? 0)
      then ((before ++ after)%list,
            Raise (Exception_ ("Bench exited with non-zero code "
                               ++ Py.fmt_d (bench_returncode b))))
      else
        match Py.int bench_sig, Py.int signature with
        | Some got, Some expected =>
            if negb (got =? expected)
            then ((before ++ [PostStopRun (wrong_bench engine signature bench_sig)]
                          ++ after)%list,
                  Raise (match stop_run_failure b with
                         | Some e => e
                         | None => Exception_ (wrong_bench engine signature bench_sig)
                         end))
            else
              match bench_nps with
              | Some x => ((before ++ after)%list, Ret x)
              | None => ((before ++ after)%list, Raise (UnboundLocalError "bench_nps"))
              end
        | _, _ => ((before ++ after)%list, Raise ValueError)
        end
  end.
Proof.
  cbv zeta. unfold verify_signature.
  destruct (1 <? concurrency);
    unfold or_raise, bind, try_finally, emit, modify, pure, ret, raise;
    (destruct (scan_bench (bench_stderr b) "" None) as [[bench_sig bench_nps]|e];
     [|cbn [fst snd]; rewrite <- ?app_assoc; reflexivity]);
    cbn [fst snd];
    (destruct (negb (bench_returncode b =? 0));
     [rewrite <- ?app_assoc; reflexivity|]);
    cbv beta iota zeta;
    (destruct (Py.int bench_sig) as [got|];
     [|cbv beta iota zeta; rewrite <- ?app_assoc; reflexivity]);
    cbv beta iota zeta;
    (destruct (Py.int signature) as [expected|];
     [|cbv beta iota zeta; rewrite <- ?app_assoc; reflexivity]);
    cbv beta iota zeta;
    (destruct (negb (got =? expected));
     [destruct (stop_run_failure b);
      cbv beta iota zeta; rewrite <- ?app_assoc; reflexivity|]);
    destruct bench_nps;
    cbv beta iota zeta; rewrite <- ?app_assoc; reflexivity.
Qed.

Lemma scan_bench_keeps_sig lines bench_sig bench_nps s n :
  Forall (fun line => Py.contains "Nodes searched" line = false) lines ->
  scan_bench lines bench_sig bench_nps = Ret (s, n) -> s = bench_sig.
Proof.
  intros H. revert bench_nps. induction H as [|line lines Hl _ IH]; intros bench_nps.
  - cbn [scan_bench]. by intros [= <- _].
  - cbn [scan_bench]. rewrite Hl.
    destruct (Py.contains "Nodes/second" line).
    + destruct (field_value line) as [v|e]; [|discriminate].
      destruct (Py.float v); [apply IH | discriminate].
    + apply IH.
Qed.

Lemma scan_bench_keeps_nps lines bench_sig bench_nps s n :
  Forall (fun line => Py.contains "Nodes/second" line = false) lines ->
  scan_bench lines bench_sig bench_nps = Ret (s, n) -> n = bench_nps.
Proof.
  intros H. revert bench_sig. induction H as [|line lines Hl _ IH]; intros bench_sig.
  - cbn [scan_bench]. by intros [= _ <-].
  - cbn [scan_bench]. rewrite Hl.
    destruct (Py.contains "Nodes searched" line).
    + destruct (field_value line) as [v|e]; [apply IH | discriminate].
    + apply IH.
Qed.

(** X8.  When the bench ends with code 0 and none of its lines holds
    [Nodes searched] (the output may be empty), [bench_sig] is still
    [''] and [int(bench_sig)] raises [ValueError]: nothing is sent to
    [/api/stop_run], and the busy engine is quit. *)
Theorem bench_without_signature engine signature concurrency b tr r :
  Forall (fun line => Py.contains "Nodes searched" line = false) (bench_stderr b) ->
  scan_bench (bench_stderr b) "" None = Ret r ->
  bench_returncode b = 0 ->
  verify_signature engine signature concurrency b tr =
  ((tr ++ (if 1 <? concurrency then [SpawnBusy (concurrency - 1)] else [])
       ++ [RunBench engine] ++ (if 1 <? concurrency then [QuitBusy] else []))%list,
   Raise ValueError).
Proof.
  intros Hno Hscan Hrc. rewrite verify_signature_run. cbv zeta.
  rewrite Hscan. destruct r as [s n].
  rewrite (scan_bench_keeps_sig _ _ _ _ _ Hno Hscan).
  rewrite Hrc. cbn [Z.eqb negb]. change (Py.int "") with (@None Z). cbv iota.
  by rewrite <- !app_assoc.
Qed.

Lemma bench_without_signature_witness :
  verify_signature "/w/testing/stockfish_abc" "5290994" 3 bench_silent [] =
  ([SpawnBusy 2; RunBench "/w/testing/stockfish_abc"; QuitBusy], Raise ValueError).
Proof.
  refine (bench_without_signature "/w/testing/stockfish_abc" "5290994" 3 bench_silent []
            ("", None) _ eq_refl eq_refl).
  constructor.
Defined.

(** X9.  When the bench ends with code 0 and the expected signature but none
    of its lines holds [Nodes/second], [bench_nps] was never assigned:
    the [finally] block quits the busy engine and the [return] raises
    [UnboundLocalError]. *)
Theorem bench_without_speed engine signature concurrency b tr bench_sig bench_nps got :
  Forall (fun line => Py.contains "Nodes/second" line = false) (bench_stderr b) ->
  scan_bench (bench_stderr b) "" None = Ret (bench_sig, bench_nps) ->
  bench_returncode b = 0 ->
  Py.int bench_sig = Some got -> Py.int signature = Some got ->
  verify_signature engine signature concurrency b tr =
  ((tr ++ (if 1 <? concurrency then [SpawnBusy (concurrency - 1)] else [])
       ++ [RunBench engine] ++ (if 1 <? concurrency then [QuitBusy] else []))%list,
   Raise (UnboundLocalError "bench_nps")).
Proof.
  intros Hno Hscan Hrc Hgot Hexp. rewrite verify_signature_run. cbv zeta.
  rewrite Hscan, (scan_bench_keeps_nps _ _ _ _ _ Hno Hscan).
  rewrite Hrc, Hgot, Hexp. cbn [Z.eqb negb]. cbv iota.
  rewrite Z.eqb_refl. cbn [negb]. cbv iota.
  by rewrite <- !app_assoc.
Qed.

Lemma bench_without_speed_witness :
  verify_signature "/w/testing/stockfish_abc" "5290994" 3 bench_speedless [] =
  ([SpawnBusy 2; RunBench "/w/testing/stockfish_abc"; QuitBusy],
   Raise (UnboundLocalError "bench_nps")).
Proof.
  refine (bench_without_speed "/w/testing/stockfish_abc" "5290994" 3 bench_speedless []
            "5290994" None 5290994 _ eq_refl eq_refl eq_refl eq_refl).
  repeat constructor.
Defined.

(** ** Time controls with more than one [+] *)

Lemma split_aux_head c cur s x xs :
  Py.split_aux (String c "") 0 cur s = x :: xs ->
  exists a, x = cur ++ a /\ lacks c a = true.
Proof.
  revert cur. induction s as [|d s IH]; intros cur; cbn [Py.split_aux].
  - intros [= <- _]. exists "". split; [by rewrite append_empty_r | reflexivity].
  - cbn [String.prefix String.length Nat.sub].
    destruct (ascii_dec c d) as [->|Hne].
    + replace (String.prefix "" s) with true by (by destruct s).
      intros [= <- _]. exists "". split; [by rewrite append_empty_r | reflexivity].
    + intros H. destruct (IH _ H) as (a & -> & Ha).
      exists (String d a). split.
      * unfold Py.snoc. by rewrite append_assoc_string, append_cons, append_empty_l.
      * cbn [lacks]. destruct (ascii_dec c d); [contradiction | exact Ha].
Qed.

Lemma split_head_alone c s x xs :
  Py.split (String c "") s = x :: xs -> Py.split (String c "") x = [x].
Proof.
  intros H. destruct (split_aux_head c "" s x xs H) as (a & -> & Ha).
  rewrite append_empty_l. by apply split_whole.
Qed.

Lemma parse_tc_extra_plus {S} (tc a b c : string) rest (s : S) :
  Py.split "+" tc = a :: b :: c :: rest ->
  parse_tc tc s = parse_tc a s.
Proof.
  intros H. pose proof (split_head_alone "+" tc a _ H) as Ha.
  unfold parse_tc. rewrite H, Ha. cbn [length Nat.eqb].
  eapply bind_run_eq; [reflexivity|]. cbv beta.
  eapply bind_run_eq; [apply (token_run _ 0%nat); reflexivity|]. cbv beta.
  symmetry.
  eapply bind_run_eq; [reflexivity|]. cbv beta.
  eapply bind_run_eq; [apply (token_run _ 0%nat); reflexivity|]. cbv beta.
  reflexivity.
Qed.

(** X10.  A time control with two or more [+] is not refused: everything
    from the first [+] on is dropped, increment included, and the
    result is that of the part before it. *)
Theorem adjust_tc_extra_plus {S} (tc a b c : string) rest (nps : Py.binary64)
    (concurrency : Z) (s : S) :
  Py.split "+" tc = a :: b :: c :: rest ->
  adjust_tc tc nps concurrency s = adjust_tc a nps concurrency s.
Proof.
  intros H. unfold adjust_tc.
  unfold bind at 1 4.
  destruct (or_raise ZeroDivisionError (Py.truediv (Py.of_Z 1600000) nps) s)
    as [s1 [factor|e]]; [|reflexivity].
  unfold bind at 1 3.
  destruct ((if Py.flt nps (Py.of_Z 700000) then raise (SystemExit 1) else ret ()) s1)
    as [s2 [[]|e]]; [|reflexivity].
  unfold bind. by rewrite (parse_tc_extra_plus tc a b c rest s2 H).
Qed.

Lemma adjust_tc_extra_plus_witness :
  adjust_tc "10+1+2" (Py.of_Z 1600000) 1 tt = adjust_tc "10" (Py.of_Z 1600000) 1 tt /\
  exists limit, adjust_tc "10" (Py.of_Z 1600000) 1 tt = (tt, Ret ("10.000", limit)).
Proof.
  split; [|eexists; reflexivity].
  exact (adjust_tc_extra_plus "10+1+2" "10" "1" "2" [] (Py.of_Z 1600000) 1 tt eq_refl).
Defined.

(** ** The accumulator, line by line *)

Lemma is_finished_game_run {S} t2 t3 t4 t5 t6 rest (s : S) :
  is_finished_game ("Finished" :: "game" :: t2 :: t3 :: t4 :: t5 :: t6 :: rest) s
  = (s, Ret true).
Proof.
  pose proof (is_finished_game_state
                ("Finished" :: "game" :: t2 :: t3 :: t4 :: t5 :: t6 :: rest) s) as Hs.
  pose proof (proj2 (is_finished_game_true
                ("Finished" :: "game" :: t2 :: t3 :: t4 :: t5 :: t6 :: rest) s)) as Ht.
  destruct (is_finished_game _ s) as [s' r]. cbn [fst snd] in *. subst s'.
  rewrite Ht; [reflexivity|]. by exists t2, t3, t4, t5, t6, rest.
Qed.

Lemma update_pentanomial_game old line rs n t2 t3 t4 t5 t6 rest r :
  consistent rs n ->
  Py.split_ws line = "Finished" :: "game" :: t2 :: t3 :: t4 :: t5 :: t6 :: rest ->
  Py.int t2 = Some r ->
  update_pentanomial old line rs =
  (pair_games (fst (pair_of r)) (snd (pair_of r)) ;; cumulative_pentanomial old)
    (stored r (record_of t3 t5 t6) rs).
Proof.
  intros Hc Etoks Hint.
  pose proof Hc as (p & t & Hp & Ht & Lp & Lt & _).
  unfold update_pentanomial.
  eapply bind_run_eq; [apply init_rounds_run|]. cbv beta zeta.
  rewrite (with_defaults_consistent rs n Hc). rewrite Etoks.
  eapply bind_run_eq; [apply is_finished_game_run|]. cbv beta iota.
  unfold bind at 1. unfold bind at 1.
  rewrite (store_game_run _ _ _ _ _ _ _ _ r rs t Hint Ht Lt).
  unfold bind at 1. reflexivity.
Qed.

Lemma update_pentanomial_other_state old line rs n :
  consistent rs n ->
  (forall t2 t3 t4 t5 t6 rest r,
     Py.split_ws line = "Finished" :: "game" :: t2 :: t3 :: t4 :: t5 :: t6 :: rest ->
     Py.int t2 <> Some r) ->
  fst (update_pentanomial old line rs) = rs.
Proof.
  intros Hc Hno. unfold update_pentanomial.
  unfold bind at 1. rewrite init_rounds_run. cbv zeta.
  rewrite (with_defaults_consistent rs n Hc).
  pose proof (is_finished_game_state (Py.split_ws line) rs) as Hst.
  pose proof (is_finished_game_true (Py.split_ws line) rs) as Htr.
  unfold bind at 1.
  destruct (is_finished_game (Py.split_ws line) rs) as [s [[|]|e]];
    cbn [fst snd] in Hst, Htr; subst s.
  - destruct Htr as [Htr _].
    destruct (Htr eq_refl) as (t2 & t3 & t4 & t5 & t6 & rest & Etoks).
    destruct (Py.int t2) as [r|] eqn:Hint; [by destruct (Hno _ _ _ _ _ _ r Etoks)|].
    rewrite Etoks. unfold bind at 1. unfold bind at 1.
    rewrite store_game_bad_round by exact Hint. reflexivity.
  - unfold bind at 1. unfold ret at 1. apply cumulative_pentanomial_state.
  - reflexivity.
Qed.

Lemma pair_games_pentanomial rs n odd p :
  consistent rs n -> odd mod 2 = 1 -> pentanomial rs = Some p ->
  pentanomial (fst (pair_games odd (odd + 1) rs)) = Some p \/
  exists k, 0 <= k < 5 /\
    pentanomial (fst (pair_games odd (odd + 1) rs)) = Some (entry_add k 1 p).
Proof.
  intros Hc Hodd Hp.
  destruct (games rs !! odd) as [o|] eqn:Ho;
    [|rewrite pair_games_absent by (left; exact Ho); by left].
  destruct (games rs !! (odd + 1)) as [e|] eqn:He;
    [|rewrite pair_games_absent by (right; exact He); by left].
  destruct (pairing_identity o e) eqn:Hid;
    [|rewrite (pair_games_identity_fails _ _ _ o e) by assumption; by left].
  destruct (decide (result o = -1)) as [Uo|Ko];
    [rewrite (pair_games_unknown _ _ _ o e) by (first [assumption | left; assumption]);
     by left|].
  destruct (decide (result e = -1)) as [Ue|Ke];
    [rewrite (pair_games_unknown _ _ _ o e) by (first [assumption | right; assumption]);
     by left|].
  rewrite (pair_games_paired rs n odd o e) by assumption.
  right. exists (result o + 2 - result e).
  destruct Hc as (p' & t & Hp' & Ht & Lp & Lt & Hk & _).
  pose proof (known_range _ _ _ Hk Ho Ko). pose proof (known_range _ _ _ Hk He Ke).
  split; [lia|]. cbn [fst paired pentanomial]. by rewrite Hp.
Qed.

(** X11.  A call of [update_pentanomial] leaves [rounds['pentanomial']] as it
    is or adds 1 to one of its five entries: the number of finished
    pairs, which decides whether a report is due, never decreases and
    grows by at most one per line. *)
Theorem pairs_grow_one_at_a_time old line rs n p :
  consistent rs n -> pentanomial rs = Some p ->
  exists p',
    pentanomial (fst (update_pentanomial old line rs)) = Some p' /\
    (p' = p \/ exists k, 0 <= k < 5 /\ p' = entry_add k 1 p) /\
    Py.sum p <= Py.sum p' <= Py.sum p + 1.
Proof.
  intros Hc Hp.
  assert (Lp : length p = 5%nat).
  { destruct Hc as (p' & t & Hp' & _ & Lp & _). congruence. }
  assert (H : pentanomial (fst (update_pentanomial old line rs)) = Some p \/
              exists k, 0 <= k < 5 /\
                pentanomial (fst (update_pentanomial old line rs))
                  = Some (entry_add k 1 p)).
  { pose proof (is_finished_game_true (Py.split_ws line) rs) as Htr.
    destruct (snd (is_finished_game (Py.split_ws line) rs)) as [[|]|e].
    2,3: left; rewrite (update_pentanomial_other_state old line rs n Hc); [exact Hp|];
         intros t2 t3 t4 t5 t6 rest r E _;
         destruct Htr as [_ Htr];
         assert (X : exists t2 t3 t4 t5 t6 rest,
                   Py.split_ws line
                   = "Finished" :: "game" :: t2 :: t3 :: t4 :: t5 :: t6 :: rest)
           by (by exists t2, t3, t4, t5, t6, rest);
         specialize (Htr X); discriminate Htr.
    destruct Htr as [Htr _].
    destruct (Htr eq_refl) as (t2 & t3 & t4 & t5 & t6 & rest & E).
    destruct (Py.int t2) as [r|] eqn:Hint.
    2: { left. rewrite (update_pentanomial_other_state old line rs n Hc); [exact Hp|].
         intros * E'. rewrite E in E'. injection E' as <- _. by rewrite Hint. }
    rewrite (update_pentanomial_game old line rs n _ _ _ _ _ _ r Hc E Hint).
    destruct (pair_of_shape r) as (odd & Epair & Hodd & _). rewrite Epair. cbn [fst snd].
    pose proof (stored_consistent rs n r (record_of t3 t5 t6) Hc
                  (result_to_score_range t6)) as Hc1.
    pose proof (pair_games_pentanomial _ _ odd p Hc1 Hodd Hp) as Hpg.
    unfold bind.
    destruct (pair_games odd (odd + 1) (stored r (record_of t3 t5 t6) rs))
      as [s2 [[]|e]]; cbn [fst] in *; [|exact Hpg].
    rewrite cumulative_pentanomial_state. exact Hpg. }
  destruct H as [H | (k & Hk & H)].
  - exists p. split; [exact H|]. split; [by left | lia].
  - exists (entry_add k 1 p). split; [exact H|]. split; [right; by exists k|].
    rewrite sum_entry_add by lia. lia.
Qed.

Lemma pairs_grow_one_at_a_time_witness :
  exists p',
    pentanomial (fst (update_pentanomial [0; 0; 0; 0; 0] game2_line after_game1))
      = Some p' /\
    (p' = [0; 0; 0; 0; 0] \/ exists k, 0 <= k < 5 /\ p' = entry_add k 1 [0; 0; 0; 0; 0]) /\
    Py.sum [0; 0; 0; 0; 0] <= Py.sum p' <= Py.sum [0; 0; 0; 0; 0] + 1.
Proof.
  apply (pairs_grow_one_at_a_time [0; 0; 0; 0; 0] game2_line after_game1 1).
  - pose proof (feed_consistent [0; 0; 0; 0; 0] [game1_line]
                  (with_defaults empty_rounds) 0 consistent_empty) as H.
    exact H.
  - reflexivity.
Defined.

(** ** The two games of a pair in either order *)

Lemma entry_add_comm a b l :
  entry_add a 1 (entry_add b 1 l) = entry_add b 1 (entry_add a 1 l).
Proof.
  unfold entry_add.
  destruct (decide (Z.to_nat a = Z.to_nat b)) as [E|N].
  - rewrite E. reflexivity.
  - rewrite list_insert_insert_ne by exact N.
    rewrite !list_lookup_total_insert_ne by congruence. reflexivity.
Qed.

Lemma stored_comm r1 c1 r2 c2 rs :
  r1 <> r2 -> stored r1 c1 (stored r2 c2 rs) = stored r2 c2 (stored r1 c1 rs).
Proof.
  intros Hne. unfold stored. cbn [pentanomial trinomial games]. f_equal.
  - destruct (bucket r1 c1) as [k1|], (bucket r2 c2) as [k2|],
      (trinomial rs) as [t|]; cbn [fmap option_fmap option_map]; try reflexivity.
    f_equal. apply entry_add_comm.
  - by apply insert_insert_ne.
Qed.

Lemma update_pentanomial_unpaired old line rs n t2 t3 t4 t5 t6 rest r p :
  consistent rs n -> length old = 5%nat ->
  Py.split_ws line = "Finished" :: "game" :: t2 :: t3 :: t4 :: t5 :: t6 :: rest ->
  Py.int t2 = Some r ->
  games rs !! (if r mod 2 =? 0 then r - 1 else r + 1) = None ->
  (if r mod 2 =? 0 then r - 1 else r + 1) <> r ->
  pentanomial rs = Some p ->
  update_pentanomial old line rs
  = (stored r (record_of t3 t5 t6) rs, Ret (zip_with Z.add p old)).
Proof.
  intros Hc Lo E Hint Hnone Hne Hp.
  rewrite (update_pentanomial_game old line rs n _ _ _ _ _ _ r Hc E Hint).
  assert (Lp : length p = 5%nat).
  { destruct Hc as (p' & t & Hp' & _ & Lp & _). congruence. }
  eapply bind_run_eq.
  - apply pair_games_absent. unfold pair_of. cbn [stored games].
    destruct (r mod 2 =? 0); cbn [fst snd]; [left | right];
      rewrite lookup_insert_ne by congruence; exact Hnone.
  - cbv beta. by apply cumulative_pentanomial_run.
Qed.

(** X12.  The two games of a pair may finish in either order: from a state of
    the accumulator that holds neither of them, the line of the odd round
    followed by that of the even round leaves the same counters and
    records, and the same outcome, as the two lines the other way round. *)
Theorem pair_in_either_order old rs n odd l1 l2 t2 t3 t4 t5 t6 rest u2 u3 u4 u5 u6 rest' :
  consistent rs n -> length old = 5%nat ->
  odd mod 2 = 1 ->
  Py.split_ws l1 = "Finished" :: "game" :: t2 :: t3 :: t4 :: t5 :: t6 :: rest ->
  Py.int t2 = Some odd ->
  Py.split_ws l2 = "Finished" :: "game" :: u2 :: u3 :: u4 :: u5 :: u6 :: rest' ->
  Py.int u2 = Some (odd + 1) ->
  games rs !! odd = None -> games rs !! (odd + 1) = None ->
  feed old [l1; l2] rs = feed old [l2; l1] rs.
Proof.
  intros Hc Lo Hodd E1 H1 E2 H2 N1 N2.
  pose proof Hc as (p & t & Hp & _).
  assert (Hm1 : (odd mod 2 =? 0) = false) by (apply Z.eqb_neq; lia).
  assert (Hm2 : ((odd + 1) mod 2 =? 0) = true).
  { apply Z.eqb_eq. rewrite Z.add_mod, Hodd by lia. reflexivity. }
  set (o := record_of t3 t5 t6). set (e := record_of u3 u5 u6).
  assert (Hco : consistent (stored odd o rs) (n + (if result o =? -1 then 0 else 1)))
    by (apply stored_consistent; [exact Hc | apply result_to_score_range]).
  assert (Hce : consistent (stored (odd + 1) e rs) (n + (if result e =? -1 then 0 else 1)))
    by (apply stored_consistent; [exact Hc | apply result_to_score_range]).
  rewrite (feed_cons old l1), (feed_cons old l2).
  rewrite (update_pentanomial_unpaired old l1 rs n _ _ _ _ _ _ odd p Hc Lo E1 H1)
    by (rewrite ?Hm1; first [exact N2 | lia | exact Hp]).
  rewrite (update_pentanomial_unpaired old l2 rs n _ _ _ _ _ _ (odd + 1) p Hc Lo E2 H2)
    by (rewrite ?Hm2; first [by replace (odd + 1 - 1) with odd by lia | lia | exact Hp]).
  fold o e. cbv iota beta.
  rewrite (feed_cons old l1), (feed_cons old l2).
  rewrite (update_pentanomial_game old l2 _ _ _ _ _ _ _ _ (odd + 1) Hco E2 H2).
  rewrite (update_pentanomial_game old l1 _ _ _ _ _ _ _ _ odd Hce E1 H1).
  fold o e. unfold pair_of. rewrite Hm1, Hm2. cbn [fst snd].
  replace (odd + 1 - 1) with odd by lia.
  rewrite (stored_comm (odd + 1) e odd o rs) by lia.
  reflexivity.
Qed.

Lemma pair_in_either_order_witness :
  feed [0; 0; 0; 0; 0] [game1_line; game2_line] (with_defaults empty_rounds)
  = feed [0; 0; 0; 0; 0] [game2_line; game1_line] (with_defaults empty_rounds) /\
  pentanomial
    (fst (feed [0; 0; 0; 0; 0] [game2_line; game1_line] (with_defaults empty_rounds)))
  = Some [0; 1; 0; 0; 0].
Proof.
  split; [|reflexivity].
  refine (pair_in_either_order [0; 0; 0; 0; 0] (with_defaults empty_rounds) 0 1
            game1_line game2_line
            "1" "(New-abc" "vs" "Base-xyz):" "1/2-1/2" ["{Draw"; "by"; "adjudication}"]
            "2" "(Base-xyz" "vs" "New-abc):" "1-0" ["{White"; "mates}"]
            consistent_empty eq_refl eq_refl eq_refl eq_refl eq_refl eq_refl
            eq_refl eq_refl).
Defined.

(** ** Calls to the host *)

Lemma call_trace h op tr : fst (call h op tr) = (tr ++ [op])%list.
Proof. unfold call. by destruct (raises h tr op). Qed.

Lemma call_ok h op tr :
  raises h tr op = None -> call h op tr = ((tr ++ [op])%list, Ret tt).
Proof. intros H. unfold call. by rewrite H. Qed.

Lemma call_raises h op tr e :
  raises h tr op = Some e -> call h op tr = ((tr ++ [op])%list, Raise e).
Proof. intros H. unfold call. by rewrite H. Qed.

Section Adds.
Context (Q : host_op -> Prop).

Lemma adds_call h op : Q op -> adds Q (call h op).
Proof.
  intros HQ tr. exists [op]. split; [apply call_trace | by constructor].
Qed.

Lemma adds_ret {A} (a : A) : adds Q (ret a).
Proof. intros tr. exists []. split; [by rewrite app_nil_r | constructor]. Qed.

Lemma adds_raise {A} e : adds Q (@raise _ A e).
Proof. intros tr. exists []. split; [by rewrite app_nil_r | constructor]. Qed.

Lemma adds_or_raise {A} e (o : option A) : adds Q (or_raise e o).
Proof. destruct o; [apply adds_ret | apply adds_raise]. Qed.

Lemma adds_bind {A B} (m : St (list host_op) A) (k : A -> St (list host_op) B) :
  adds Q m -> (forall a, adds Q (k a)) -> adds Q (bind m k).
Proof.
  intros Hm Hk tr. unfold bind. destruct (Hm tr) as (ops & E & F).
  destruct (m tr) as [tr1 [a|e]]; cbn [fst] in E; subst tr1.
  - destruct (Hk a (tr ++ ops)%list) as (ops' & E' & F'). exists (ops ++ ops')%list.
    split; [by rewrite E', app_assoc | by apply Forall_app].
  - by exists ops.
Qed.

Lemma adds_try_except_all {A} (m : St (list host_op) A) hd :
  adds Q m -> (forall e, adds Q (hd e)) -> adds Q (try_except_all m hd).
Proof.
  intros Hm Hh tr. unfold try_except_all. destruct (Hm tr) as (ops & E & F).
  destruct (m tr) as [tr1 [a|e]]; cbn [fst] in E; subst tr1.
  - by exists ops.
  - destruct (Hh e (tr ++ ops)%list) as (ops' & E' & F'). exists (ops ++ ops')%list.
    split; [by rewrite E', app_assoc | by apply Forall_app].
Qed.
End Adds.

Lemma ends_with_call h op : ends_with op (call h op).
Proof.
  intros tr tr' a H. exists []. pose proof (call_trace h op tr) as E.
  rewrite H in E. cbn [fst] in E. by rewrite E.
Qed.

Lemma ends_with_bind {A B} op (m : St (list host_op) A) (k : A -> St (list host_op) B) :
  adds (fun _ => True) m -> (forall a, ends_with op (k a)) -> ends_with op (bind m k).
Proof.
  intros Hm Hk tr tr' b H. unfold bind in H. destruct (Hm tr) as (ops & E & _).
  destruct (m tr) as [tr1 [a|e]]; cbn [fst] in E; subst tr1; [|discriminate H].
  destruct (Hk a _ _ _ H) as (ops' & ->). exists (ops ++ ops')%list.
  by rewrite <- !app_assoc.
Qed.

(** ** [kill_process] *)

(** X2.  [kill_process] never raises, whatever the calls to the host do (its
    bare [except] catches everything); it begins with [taskkill] on
    Windows and with [p.kill()] elsewhere, and it waits for the process
    and closes its output only while nothing has raised. *)
Theorem kill_process_never_raises pf h pid tr :
  let first_call := if IS_WINDOWS pf then Taskkill pid else Kill pid in
  kill_process_on pf h pid tr =
  ((tr ++ first_call ::
      match raises h tr first_call with
      | Some _ => []
      | None =>
          Wait pid ::
          match raises h (tr ++ [first_call]) (Wait pid) with
          | Some _ => []
          | None => [CloseStdout pid]
          end
      end)%list,
   Ret tt).
Proof.
  unfold kill_process_on, try_except_all, bind, call.
  destruct (IS_WINDOWS pf); cbv zeta;
    (destruct (raises h tr _); [reflexivity|]);
    (destruct (raises h _ (Wait pid)); [unfold ret; by rewrite <- app_assoc|]);
    destruct (raises h _ (CloseStdout pid)); unfold ret; by rewrite <- !app_assoc.
Qed.

(** ** [setup] *)

Lemma setup_loop_absent h item testing_dir blobs tr :
  Forall (fun blob => fst blob <> item) blobs ->
  setup_loop h item testing_dir blobs tr
  = (tr, Raise (Exception_ ("Item " ++ item ++ " not found"))).
Proof.
  induction 1 as [|blob blobs Hb _ IH]; cbn [setup_loop]; [reflexivity|].
  apply String.eqb_neq in Hb. by rewrite Hb.
Qed.

(** X3.  When no blob of the tree is named [item], [setup] raises
    ['Item ... not found'] after the request for the tree: nothing else
    is fetched and no file is opened. *)
Theorem setup_item_not_found h item testing_dir tr :
  let url := github_api REPO_URL ++ "/git/trees/master" in
  raises h tr (HttpGet url) = None ->
  raises h (tr ++ [HttpGet url]) (Json url) = None ->
  Forall (fun blob => fst blob <> item) (tree_blobs h url) ->
  setup h item testing_dir tr =
  ((tr ++ [HttpGet url; Json url])%list,
   Raise (Exception_ ("Item " ++ item ++ " not found"))).
Proof.
  intros url H1 H2 Hno. unfold setup. fold url.
  eapply bind_run_eq; [by apply call_ok|]. cbv beta.
  eapply bind_run_eq; [by apply call_ok|]. cbv beta.
  rewrite setup_loop_absent by exact Hno. by rewrite <- app_assoc.
Qed.

(** X4.  When the host obliges, [setup] fetches the first blob named [item]
    and no other, and writes it to [os.path.join(testing_dir, item)]. *)
Theorem setup_downloads_first_match h item testing_dir tr before blob_url after :
  let url := github_api REPO_URL ++ "/git/trees/master" in
  obliging h ->
  tree_blobs h url = (before ++ (item, blob_url) :: after)%list ->
  Forall (fun blob => fst blob <> item) before ->
  setup h item testing_dir tr =
  ((tr ++ [HttpGet url; Json url; HttpGet blob_url; Json blob_url;
           OpenWrite (path_join h testing_dir item); B64decode blob_url;
           FileWrite (path_join h testing_dir item)])%list,
   Ret tt).
Proof.
  intros url Hok Htree Hno. unfold setup. fold url.
  eapply bind_run_eq; [by apply call_ok|]. cbv beta.
  eapply bind_run_eq; [by apply call_ok|]. cbv beta.
  rewrite Htree. clear Htree.
  induction Hno as [|blob before Hb _ IH].
  - cbn [app setup_loop fst snd]. rewrite String.eqb_refl.
    do 4 (eapply bind_run_eq; [by apply call_ok|]; cbv beta).
    rewrite call_ok by apply Hok. by rewrite <- !app_assoc.
  - cbn [app setup_loop]. apply String.eqb_neq in Hb. rewrite Hb. exact IH.
Qed.

(** ** [setup_engine] *)

Lemma adds_build Q pf h worker_dir concurrency :
  (forall op, Q op) -> adds Q (build pf h worker_dir concurrency).
Proof.
  intros HQ. unfold build. destruct (path_exists h _).
  - apply adds_bind; [by apply adds_call|]. intros _. by apply adds_call.
  - apply adds_bind; [by apply adds_call|]. intros _.
    apply adds_try_except_all; [by apply adds_call | intros; apply adds_ret].
Qed.

Lemma adds_setup_engine_body pf h destination worker_dir sha repo_url concurrency tmp_dir :
  adds (fun _ => True)
    (setup_engine_body pf h destination worker_dir sha repo_url concurrency tmp_dir).
Proof.
  unfold setup_engine_body.
  repeat (apply adds_bind; [by apply adds_call|]; intros _).
  apply adds_bind; [apply adds_or_raise|]. intros src_dir.
  apply adds_bind; [by apply adds_call|]. intros _.
  apply adds_bind; [by apply adds_build|]. intros _.
  by apply adds_call.
Qed.

Lemma ends_with_setup_engine_body pf h destination worker_dir sha repo_url concurrency
    tmp_dir :
  ends_with (Move ("stockfish" ++ EXE_SUFFIX pf) destination)
    (setup_engine_body pf h destination worker_dir sha repo_url concurrency tmp_dir).
Proof.
  unfold setup_engine_body.
  repeat (apply ends_with_bind; [by apply adds_call|]; intros _).
  apply ends_with_bind; [apply adds_or_raise|]. intros src_dir.
  apply ends_with_bind; [by apply adds_call|]. intros _.
  apply ends_with_bind; [by apply adds_build|]. intros _.
  apply ends_with_call.
Qed.

Lemma setup_engine_run pf h destination worker_dir sha repo_url concurrency tr :
  let tmp_dir := mkdtemp h worker_dir in
  let removal := if path_exists h destination then [OsRemove destination] else [] in
  (path_exists h destination = true -> raises h tr (OsRemove destination) = None) ->
  raises h (tr ++ removal)%list (Mkdtemp worker_dir) = None ->
  (forall tr', raises h tr' (Chdir worker_dir) = None) ->
  (forall tr', raises h tr' (Rmtree tmp_dir) = None) ->
  setup_engine pf h destination worker_dir sha repo_url concurrency tr =
  match setup_engine_body pf h destination worker_dir sha repo_url concurrency tmp_dir
          (tr ++ removal ++ [Mkdtemp worker_dir])%list with
  | (tr', Ret _) => ((tr' ++ [Chdir worker_dir; Rmtree tmp_dir])%list, Ret tt)
  | (tr', Raise _) =>
      ((tr' ++ [Chdir worker_dir; Rmtree tmp_dir])%list,
       Raise (Exception_ ("Failed to setup engine for " ++ sha)))
  end.
Proof.
  intros tmp_dir removal Hrm Hmk Hcd Hrt. unfold setup_engine.
  eapply (bind_run_eq _ _ _ (tr ++ removal)%list).
  { subst removal. destruct (path_exists h destination).
    - apply call_ok. by apply Hrm.
    - unfold ret. by rewrite app_nil_r. }
  cbv beta.
  eapply bind_run_eq; [by apply call_ok|]. cbv beta zeta.
  rewrite <- app_assoc. fold tmp_dir.
  unfold try_finally, try_except_all.
  destruct (setup_engine_body _ _ _ _ _ _ _ _ _) as [tr' [[]|e]].
  - unfold bind. rewrite call_ok by apply Hcd. rewrite call_ok by apply Hrt.
    by rewrite <- app_assoc.
  - unfold raise. unfold bind. rewrite call_ok by apply Hcd.
    rewrite call_ok by apply Hrt. by rewrite <- app_assoc.
Qed.

(** X5.  When the old engine is removed and the temporary directory made,
    and the two calls of the [finally] block succeed, [setup_engine]
    ends with [os.chdir(worker_dir)] and [shutil.rmtree(tmp_dir)]
    whatever the other calls do; it returns only after the move of the
    built engine to [destination], and otherwise raises
    ['Failed to setup engine for <sha>'] in place of whatever was
    raised. *)
Theorem setup_engine_cleans_up pf h destination worker_dir sha repo_url concurrency tr :
  let tmp_dir := mkdtemp h worker_dir in
  let removal := if path_exists h destination then [OsRemove destination] else [] in
  (path_exists h destination = true -> raises h tr (OsRemove destination) = None) ->
  raises h (tr ++ removal)%list (Mkdtemp worker_dir) = None ->
  (forall tr', raises h tr' (Chdir worker_dir) = None) ->
  (forall tr', raises h tr' (Rmtree tmp_dir) = None) ->
  exists ops,
    fst (setup_engine pf h destination worker_dir sha repo_url concurrency tr) =
      (tr ++ removal ++ [Mkdtemp worker_dir] ++ ops
          ++ [Chdir worker_dir; Rmtree tmp_dir])%list /\
    ((snd (setup_engine pf h destination worker_dir sha repo_url concurrency tr) = Ret tt /\
      exists ops', ops = (ops' ++ [Move ("stockfish" ++ EXE_SUFFIX pf) destination])%list)
     \/
     snd (setup_engine pf h destination worker_dir sha repo_url concurrency tr)
       = Raise (Exception_ ("Failed to setup engine for " ++ sha))).
Proof.
  intros tmp_dir removal Hrm Hmk Hcd Hrt.
  rewrite (setup_engine_run pf h destination worker_dir sha repo_url concurrency tr
             Hrm Hmk Hcd Hrt).
  fold tmp_dir removal.
  destruct (adds_setup_engine_body pf h destination worker_dir sha repo_url concurrency
              tmp_dir (tr ++ removal ++ [Mkdtemp worker_dir])%list) as (ops & E & _).
  pose proof (ends_with_setup_engine_body pf h destination worker_dir sha repo_url
                concurrency tmp_dir (tr ++ removal ++ [Mkdtemp worker_dir])%list) as Hend.
  destruct (setup_engine_body _ _ _ _ _ _ _ _ _) as [tr' [[]|e]]; cbn [fst snd] in *.
  - exists ops. split; [rewrite E; by rewrite <- !app_assoc|]. left.
    split; [reflexivity|].
    destruct (Hend tr' tt eq_refl) as (ops' & E'). exists ops'.
    rewrite E' in E. by apply app_inv_head in E.
  - exists ops. split; [rewrite E; by rewrite <- !app_assoc|]. by right.
Qed.

Lemma setup_engine_cleans_up_witness :
  exists ops,
    fst (setup_engine linux64 srcless_host "/w/testing/stockfish_abc" "/w" "abc"
           "https://github.com/official-stockfish/Stockfish" "3" []) =
      ([] ++ [] ++ [Mkdtemp "/w"] ++ ops ++ [Chdir "/w"; Rmtree "/w/tmpab12"])%list /\
    ((snd (setup_engine linux64 srcless_host "/w/testing/stockfish_abc" "/w" "abc"
             "https://github.com/official-stockfish/Stockfish" "3" []) = Ret tt /\
      exists ops', ops = (ops' ++ [Move "stockfish" "/w/testing/stockfish_abc"])%list)
     \/
     snd (setup_engine linux64 srcless_host "/w/testing/stockfish_abc" "/w" "abc"
            "https://github.com/official-stockfish/Stockfish" "3" [])
       = Raise (Exception_ "Failed to setup engine for abc")).
Proof.
  apply (setup_engine_cleans_up linux64 srcless_host "/w/testing/stockfish_abc" "/w"
           "abc" "https://github.com/official-stockfish/Stockfish" "3" []).
  - discriminate.
  - reflexivity.
  - reflexivity.
  - reflexivity.
Defined.

Lemma append_inv_head (a b c : string) : a ++ b = a ++ c -> b = c.
Proof.
  induction a as [|x a IH]; [by rewrite !append_empty_l|].
  rewrite !append_cons. intros [= H]. by apply IH.
Qed.

Lemma profile_build_is_not_strip pf concurrency :
  CheckCall (MAKE_CMD pf ++ " -j " ++ concurrency ++ " profile-build")
  <> CheckCall (strip_cmd pf concurrency).
Proof.
  unfold strip_cmd. intros [= H].
  do 3 apply append_inv_head in H. discriminate H.
Qed.

(** X6.  When [make strip] fails and every other call succeeds, the engine
    is installed all the same: the failure is swallowed and the build
    goes on to the move. *)
Theorem strip_failure_is_tolerated pf h destination worker_dir sha repo_url concurrency
    tr src_dir :
  let tmp_dir := mkdtemp h worker_dir in
  let removal := if path_exists h destination then [OsRemove destination] else [] in
  path_exists h (path_join h worker_dir "custom_make.txt") = false ->
  find_src_dir (namelist h "sf.gz") None = Some src_dir ->
  (forall tr' op, op <> CheckCall (strip_cmd pf concurrency) -> raises h tr' op = None) ->
  setup_engine pf h destination worker_dir sha repo_url concurrency tr =
  ((tr ++ removal ++
    [Mkdtemp worker_dir; Chdir tmp_dir; OpenWrite "sf.gz";
     HttpGet (github_api repo_url ++ "/zipball/" ++ sha); FileWrite "sf.gz";
     ZipOpen "sf.gz"; ZipExtractall "sf.gz"; ZipClose "sf.gz"; Chdir src_dir;
     CheckCall (MAKE_CMD pf ++ " -j " ++ concurrency ++ " profile-build");
     CheckCall (strip_cmd pf concurrency);
     Move ("stockfish" ++ EXE_SUFFIX pf) destination;
     Chdir worker_dir; Rmtree tmp_dir])%list,
   Ret tt).
Proof.
  intros tmp_dir removal Hcustom Hsrc Hok.
  rewrite setup_engine_run; try (intros; apply Hok; discriminate).
  fold tmp_dir removal.
  assert (Hstrip : forall tr0,
    try_except_all (call h (CheckCall (MAKE_CMD pf ++ " -j " ++ concurrency ++ " strip")))
      (fun _ => ret tt) tr0
    = ((tr0 ++ [CheckCall (strip_cmd pf concurrency)])%list, Ret tt)).
  { intros tr0. unfold try_except_all, call, strip_cmd.
    destruct (raises h tr0 _); reflexivity. }
  assert (Hbody : forall tr0,
    setup_engine_body pf h destination worker_dir sha repo_url concurrency tmp_dir tr0 =
    ((tr0 ++
      [Chdir tmp_dir; OpenWrite "sf.gz";
       HttpGet (github_api repo_url ++ "/zipball/" ++ sha); FileWrite "sf.gz";
       ZipOpen "sf.gz"; ZipExtractall "sf.gz"; ZipClose "sf.gz"; Chdir src_dir;
       CheckCall (MAKE_CMD pf ++ " -j " ++ concurrency ++ " profile-build");
       CheckCall (strip_cmd pf concurrency);
       Move ("stockfish" ++ EXE_SUFFIX pf) destination])%list, Ret tt)).
  { intros tr0. unfold setup_engine_body.
    do 7 (eapply bind_run_eq; [apply call_ok, Hok; discriminate|]; cbv beta).
    rewrite Hsrc.
    eapply bind_run_eq; [reflexivity|]. cbv beta.
    eapply bind_run_eq; [apply call_ok, Hok; discriminate|]. cbv beta.
    unfold build. rewrite Hcustom.
    eapply bind_run_eq.
    { eapply bind_run_eq;
        [apply call_ok, Hok, profile_build_is_not_strip | cbv beta; apply Hstrip]. }
    cbv beta.
    rewrite call_ok by (apply Hok; discriminate).
    rewrite <- !app_assoc. reflexivity. }
  rewrite Hbody. rewrite <- !app_assoc. reflexivity.
Qed.

Lemma strip_failure_is_tolerated_witness :
  snd (setup_engine linux64 (stripless_host linux64 "3") "/w/testing/stockfish_abc" "/w"
         "abc" "https://github.com/official-stockfish/Stockfish" "3" []) = Ret tt.
Proof.
  rewrite (strip_failure_is_tolerated linux64 (stripless_host linux64 "3")
             "/w/testing/stockfish_abc" "/w" "abc"
             "https://github.com/official-stockfish/Stockfish" "3" [] "sf-abc/src/").
  - reflexivity.
  - reflexivity.
  - reflexivity.
  - intros tr' op Hop. destruct op; try reflexivity.
    cbn [raises stripless_host].
    destruct (String.eqb_spec cmd (strip_cmd linux64 "3")) as [->|]; [congruence|reflexivity].
Defined.

Lemma adds_after_raise Q {A B} e (k : A -> St (list host_op) B) :
  adds Q (bind (raise e) k).
Proof. intros tr. exists []. split; [by rewrite app_nil_r | constructor]. Qed.

(** X7.  When no name of the archive ends with [/src/], nothing is built and
    nothing is installed: [src_dir] was never assigned, and
    [setup_engine] raises ['Failed to setup engine for <sha>'] after its
    clean-up. *)
Theorem archive_without_src_is_not_built pf h destination worker_dir sha repo_url
    concurrency tr :
  let tmp_dir := mkdtemp h worker_dir in
  let removal := if path_exists h destination then [OsRemove destination] else [] in
  (path_exists h destination = true -> raises h tr (OsRemove destination) = None) ->
  raises h (tr ++ removal)%list (Mkdtemp worker_dir) = None ->
  (forall tr', raises h tr' (Chdir worker_dir) = None) ->
  (forall tr', raises h tr' (Rmtree tmp_dir) = None) ->
  find_src_dir (namelist h "sf.gz") None = None ->
  exists ops,
    setup_engine pf h destination worker_dir sha repo_url concurrency tr =
      ((tr ++ removal ++ [Mkdtemp worker_dir] ++ ops
           ++ [Chdir worker_dir; Rmtree tmp_dir])%list,
       Raise (Exception_ ("Failed to setup engine for " ++ sha))) /\
    Forall (fun op => ~ builds op) ops.
Proof.
  intros tmp_dir removal Hrm Hmk Hcd Hrt Hsrc.
  rewrite (setup_engine_run pf h destination worker_dir sha repo_url concurrency tr
             Hrm Hmk Hcd Hrt).
  fold tmp_dir removal.
  assert (Hadds : adds (fun op => ~ builds op)
            (setup_engine_body pf h destination worker_dir sha repo_url concurrency
               tmp_dir)).
  { unfold setup_engine_body. rewrite Hsrc.
    do 7 (apply adds_bind; [apply adds_call; cbn [builds]; tauto|]; intros _).
    apply adds_after_raise. }
  assert (Hret : forall tr0 tr',
            setup_engine_body pf h destination worker_dir sha repo_url concurrency
              tmp_dir tr0 <> (tr', Ret tt)).
  { intros tr0 tr'. unfold setup_engine_body. rewrite Hsrc. unfold bind, or_raise, raise.
    repeat match goal with
           | |- context [call h ?op ?t] => destruct (call h op t) as [? [[]|?]]
           end; discriminate. }
  destruct (Hadds (tr ++ removal ++ [Mkdtemp worker_dir])%list) as (ops & E & F).
  specialize (Hret (tr ++ removal ++ [Mkdtemp worker_dir])%list).
  destruct (setup_engine_body _ _ _ _ _ _ _ _ _) as [tr' [[]|e]]; cbn [fst] in E.
  - by destruct (Hret tr').
  - exists ops. split; [|exact F]. rewrite E. by rewrite <- !app_assoc.
Qed.

Lemma archive_without_src_is_not_built_witness :
  setup_engine linux64 srcless_host "/w/testing/stockfish_abc" "/w" "abc"
    "https://github.com/official-stockfish/Stockfish" "3" [] =
  ([Mkdtemp "/w"; Chdir "/w/tmpab12"; OpenWrite "sf.gz";
    HttpGet "https://api.github.com/repos/official-stockfish/Stockfish/zipball/abc";
    FileWrite "sf.gz"; ZipOpen "sf.gz"; ZipExtractall "sf.gz"; ZipClose "sf.gz";
    Chdir "/w"; Rmtree "/w/tmpab12"],
   Raise (Exception_ "Failed to setup engine for abc")).
Proof.
  destruct (archive_without_src_is_not_built linux64 srcless_host
              "/w/testing/stockfish_abc" "/w" "abc"
              "https://github.com/official-stockfish/Stockfish" "3" [])
    as (ops & E & _).
  - discriminate.
  - reflexivity.
  - reflexivity.
  - reflexivity.
  - reflexivity.
  - reflexivity.
Defined.

(** ** [setup], on the sample host *)

Lemma setup_item_not_found_witness :
  setup sample_host "nobook.zip" "/w/testing" [] =
  ([HttpGet "https://api.github.com/repos/official-stockfish/books/git/trees/master";
    Json "https://api.github.com/repos/official-stockfish/books/git/trees/master"],
   Raise (Exception_ "Item nobook.zip not found")).
Proof.
  refine (setup_item_not_found sample_host "nobook.zip" "/w/testing" [] eq_refl eq_refl _).
  repeat constructor; discriminate.
Defined.

Lemma setup_downloads_first_match_witness :
  setup sample_host "2moves_v1.pgn.zip" "/w/testing" [] =
  ([HttpGet "https://api.github.com/repos/official-stockfish/books/git/trees/master";
    Json "https://api.github.com/repos/official-stockfish/books/git/trees/master";
    HttpGet "https://api.github.com/blobs/2"; Json "https://api.github.com/blobs/2";
    OpenWrite "/w/testing/2moves_v1.pgn.zip"; B64decode "https://api.github.com/blobs/2";
    FileWrite "/w/testing/2moves_v1.pgn.zip"],
   Ret tt).
Proof.
  refine (setup_downloads_first_match sample_host "2moves_v1.pgn.zip" "/w/testing" []
            [("README.md", "https://api.github.com/blobs/1")]
            "https://api.github.com/blobs/2"
            [("2moves_v1.pgn.zip", "https://api.github.com/blobs/3")] _ eq_refl _).
  - intros tr op. reflexivity.
  - repeat constructor. discriminate.
Defined.

(** ** The old engines *)

Lemma insert_by_perm key x l : insert_by key x l ≡ₚ x :: l.
Proof.
  induction l as [|y l IH]; cbn [insert_by]; [reflexivity|].
  destruct (Qle_bool (key x) (key y)); [reflexivity|].
  rewrite IH. apply Permutation_swap.
Qed.

Lemma sort_by_perm key l : sort_by key l ≡ₚ l.
Proof.
  induction l as [|x l IH]; [reflexivity|].
  cbn [sort_by foldr]. fold (sort_by key l). by rewrite insert_by_perm, IH.
Qed.

Lemma insert_by_ascending key x l :
  ascending key l -> ascending key (insert_by key x l).
Proof.
  induction l as [|y l IH]; cbn [insert_by ascending].
  - intros _. split; [constructor | exact I].
  - intros [Hy Hl]. destruct (Qle_bool (key x) (key y)) eqn:E.
    + apply Qle_bool_iff in E. cbn [ascending]. split; [|split; assumption].
      constructor; [exact E|]. eapply Forall_impl; [exact Hy|].
      intros z Hz. cbn beta in Hz. by apply Qle_trans with (key y).
    + assert (Hyx : (key y <= key x)%Q).
      { apply Qlt_le_weak, Qnot_le_lt. intros H. apply Qle_bool_iff in H. congruence. }
      cbn [ascending]. split; [|by apply IH].
      rewrite insert_by_perm. by constructor.
Qed.

Lemma sort_by_ascending key l : ascending key (sort_by key l).
Proof.
  induction l as [|x l IH]; [exact I|].
  cbn [sort_by foldr]. by apply insert_by_ascending.
Qed.

Lemma ascending_app key l1 l2 a b :
  ascending key (l1 ++ l2) -> In a l1 -> In b l2 -> (key a <= key b)%Q.
Proof.
  induction l1 as [|x l1 IH]; [intros _ []|].
  rewrite <- app_comm_cons. cbn [ascending]. intros [Hx Hl] [->|Ha] Hb.
  - rewrite List.Forall_forall in Hx. apply Hx. apply in_or_app. by right.
  - by apply IH.
Qed.

Lemma sort_by_sorted_input key l : ascending key l -> sort_by key l = l.
Proof.
  induction l as [|x l IH]; [reflexivity|].
  cbn [ascending]. intros [Hx Hl]. cbn [sort_by foldr]. fold (sort_by key l).
  rewrite IH by exact Hl. destruct l as [|y l]; [reflexivity|].
  cbn [insert_by]. apply Forall_inv in Hx. apply Qle_bool_iff in Hx. by rewrite Hx.
Qed.

(** X25.  The clean-up leaves every engine alone when there are at most 25,
    and otherwise leaves exactly 25: those it tries to remove are the
    oldest ones, none of them being newer than an engine that is kept,
    and between them the two groups hold every engine once. Engines that
    are already listed from old to new keep their order, as in the
    stable sort of Python. *)
Theorem old_engines_are_the_oldest (getmtime : string -> Q) (engines : list string) :
  (old_engines getmtime engines ++ kept_engines getmtime engines)%list ≡ₚ engines /\
  length (kept_engines getmtime engines) = Nat.min 25 (length engines) /\
  (forall a b, In a (old_engines getmtime engines) ->
               In b (kept_engines getmtime engines) ->
               (getmtime a <= getmtime b)%Q) /\
  (ascending getmtime engines -> sort_by getmtime engines = engines).
Proof.
  unfold old_engines, kept_engines.
  split; [|split; [|split]].
  - destruct (25 <? length engines)%nat; [|reflexivity].
    rewrite take_drop. apply sort_by_perm.
  - destruct (25 <? length engines)%nat eqn:E.
    + apply Nat.ltb_lt in E. rewrite length_drop.
      rewrite (Permutation_length (sort_by_perm getmtime engines)). lia.
    + apply Nat.ltb_ge in E. lia.
  - destruct (25 <? length engines)%nat; [|intros a b []].
    intros a b Ha Hb.
    apply (ascending_app getmtime _ _ a b) with (2 := Ha) (3 := Hb).
    rewrite take_drop. apply sort_by_ascending.
  - apply sort_by_sorted_input.
Qed.





(** Twenty-seven engines, those with the longer names being the older:
    the two oldest are removed, and nothing is when a file has vanished
    before the sort. *)
Example remove_old_engines_ex :
  let engines := map (fun n => "stockfish_" ++ Py.fmt_d (Z.of_nat n)) (seq 1 27) in
  let getmtime := fun name => inject_Z (- Z.of_nat (String.length name)) in
  let gone := {| raises := fun _ op =>
                   match op with
                   | Getmtime "stockfish_3" => Some (Exception_ "FileNotFoundError")
                   | _ => None
                   end;
                 path_exists := path_exists sample_host;
                 path_join := path_join sample_host;
                 mkdtemp := mkdtemp sample_host;
                 namelist := namelist sample_host;
                 read_text := read_text sample_host;
                 tree_blobs := tree_blobs sample_host |} in
  remove_old_engines sample_host getmtime engines []
    = ((map Getmtime engines ++ [OsRemove "stockfish_10"; OsRemove "stockfish_11"])%list,
       Ret tt) /\
  remove_old_engines gone getmtime engines []
    = ([Getmtime "stockfish_1"; Getmtime "stockfish_2"; Getmtime "stockfish_3"],
       Raise (Exception_ "FileNotFoundError")).
Proof. split; vm_compute; reflexivity. Qed.

(** ** A batch without a [Score] line *)

Lemma keeps_wld_tick_step st replies t :
  scoreless t = true -> keeps reported_wld (tick_step st replies t).
Proof.
  intros Hs. destruct t as [line|poll]; cbn [tick_step].
  - cbn [scoreless] in Hs. apply negb_true_iff in Hs.
    unfold handle_line. rewrite Hs.
    destruct (Py.contains "Finished match" line).
    + unfold kill_process.
      apply keeps_bind; [apply keeps_perform; intros; reflexivity | intros; apply keeps_ret].
    + apply keeps_bind; [unfold count_faults; keeps|]. intros _.
      apply keeps_bind; [apply keeps_ret|]. intros [| |s]; keeps.
  - destruct (truthy poll); [apply keeps_ret|].
    apply keeps_bind; [apply keeps_perform; intros; reflexivity | intros; apply keeps_ret].
Qed.

Lemma advance_scoreless st replies ts w w1 :
  forallb scoreless ts = true ->
  advance st replies ts w = Some w1 -> reported_wld w1 = reported_wld w.
Proof.
  revert w. induction ts as [|t ts IH]; intros w Hs Ha; cbn [advance] in Ha.
  - by injection Ha as <-.
  - cbn [forallb] in Hs. apply andb_prop in Hs as [Ht Hs].
    pose proof (keeps_wld_tick_step st replies t Ht w) as K.
    destruct (tick_step st replies t w) as [w' [[| |]|e]]; try discriminate Ha.
    rewrite (IH _ Hs Ha). exact K.
Qed.

(** X28.  [old_stats] after a batch is a copy of [result['stats']], whose
    [wins], [losses] and [draws] only a [Score] line assigns: a batch
    that is left at the deadline, or at the exit of the match runner,
    before any [Score] line sets them in [old_stats] to what
    [result['stats']] held before the batch -- zero at the first batch
    of [run_games], whatever the task had played. *)
Theorem scoreless_batch_resets_old_stats st gtp env envs pre w wp w1 :
  0 < games_remaining w ->
  launch_preamble (command env) st gtp env w = (wp, Ret tt) ->
  advance st (replies env) pre (start_batch wp) = Some w1 ->
  (ticks env = pre \/
   exists rc post, rc <> 0 /\ ticks env = (pre ++ Empty (Some rc) :: post)%list) ->
  forallb scoreless pre = true ->
  exists w',
    run_batches st gtp (env :: envs) w = run_batches st gtp envs w' /\
    wins (old_stats w') = wins (result_stats w) /\
    losses (old_stats w') = losses (result_stats w) /\
    draws (old_stats w') = draws (result_stats w) /\
    games_remaining w' = games_remaining w - gtp.
Proof.
  intros Hgr Hpre Hadv Hend Hs.
  pose proof (launch_after_turns st gtp env pre w wp w1 Hpre Hadv Hend) as Hl.
  eexists. split; [exact (run_batches_credited st gtp env envs w _ Hgr Hl)|].
  world_fields.
  pose proof (advance_scoreless _ _ _ _ _ Hs Hadv) as K.
  assert (Kp : reported_wld wp = reported_wld w).
  { assert (Kl : keeps reported_wld (launch_preamble (command env) st gtp env)).
    { unfold launch_preamble.
      apply keeps_bind; [keeps|]. intros _.
      apply keeps_bind.
      - destruct st; [|apply keeps_ret].
        apply keeps_bind; [apply keeps_perform; intros; reflexivity | intros; apply keeps_pure].
      - intros params. apply keeps_bind; [apply keeps_or_raise|]. intros c1.
        apply keeps_bind; [apply keeps_or_raise|]. intros c2.
        apply keeps_perform; intros; reflexivity. }
    specialize (Kl w). by rewrite Hpre in Kl. }
  assert (E : reported_wld w1 = reported_wld w) by (rewrite K, <- Kp; reflexivity).
  unfold reported_wld in E. injection E as -> -> ->.
  destruct (batch_baseline _ _ _ _ _ _ _ _ _ Hpre Hadv) as [_ ->]. auto.
Qed.

Lemma scoreless_batch_resets_old_stats_witness :
  games_of (old_stats resumed_start) = 4 /\
  exists w',
    run_batches true 2 [spsa_crashing_env; failing_env] resumed_start
      = run_batches true 2 [failing_env] w' /\
    games_of (old_stats w') = 0 /\ games_remaining w' = 4.
Proof.
  split; [reflexivity|].
  pose (wp := fst (launch_preamble (command spsa_crashing_env) true 2 spsa_crashing_env
                     resumed_start)).
  pose (w1 := default resumed_start
                (advance true (replies spsa_crashing_env) [Line game1_line]
                   (start_batch wp))).
  destruct (scoreless_batch_resets_old_stats true 2 spsa_crashing_env [failing_env]
              [Line game1_line] resumed_start wp w1)
    as (w' & Hloop & Hw & Hl & Hd & Hgr).
  - reflexivity.
  - reflexivity.
  - vm_compute. reflexivity.
  - right. exists 1, [Line game2_line]. split; [lia | reflexivity].
  - reflexivity.
  - exists w'. split; [exact Hloop|]. split.
    + unfold games_of. rewrite Hw, Hl, Hd. reflexivity.
    + rewrite Hgr. reflexivity.
Defined.

(** ** The command of a batch and its placeholders *)

Lemma fmt_d_not_placeholder n : Py.fmt_d n <> "_spsa_".
Proof.
  unfold Py.fmt_d, NilZero.string_of_int, NilZero.string_of_uint.
  destruct (Z.to_int n) as [d|d]; destruct d; discriminate.
Qed.

Lemma prefixed_not_placeholder c p s : c <> "_"%char -> String c p ++ s <> "_spsa_".
Proof. intros Hc. rewrite append_cons. intros [= H _]. contradiction. Qed.

Lemma options_not_placeholder s l :
  parse_options s = Ret l -> ~ In "_spsa_" l.
Proof.
  intros H Hin. apply parse_options_prefixed in H.
  rewrite List.Forall_forall in H. specialize (H _ Hin). discriminate H.
Qed.

Lemma pgn_cmd_not_placeholder a pgn_cmd book_cmd :
  book_commands a = Ret (pgn_cmd, book_cmd) -> ~ In "_spsa_" pgn_cmd.
Proof.
  unfold book_commands. destruct (Py.int (book_depth a)) as [depth|]; [|discriminate].
  destruct (depth <=? 0); [intros [= <- _] []|].
  destruct (_ || _); intros [= <- _]; [|intros []].
  cbn [In]. intros H.
  repeat (destruct H as [H|H];
          [first [discriminate H | by apply prefixed_not_placeholder in H]|]).
  exact H.
Qed.

Lemma cmd_head_free cutechess a task_id srand gtp gc st unique_key pgn_cmd book_cmd no :
  cutechess <> "_spsa_" ->
  parse_options (new_options a) = Ret no ->
  book_commands a = Ret (pgn_cmd, book_cmd) ->
  ~ In "_spsa_" (cmd_head cutechess a task_id srand gtp gc (pgnout_of st unique_key)
                   pgn_cmd no).
Proof.
  intros Hc Hno Hbook. unfold cmd_head. rewrite !in_app_iff.
  intros [H|[H|[H|[H|[H|[H|[H|[H|H]]]]]]]].
  - unfold opening_args in H. cbn [In] in H.
    destruct H as [H|[H|[H|[H|H]]]]; try discriminate H; [congruence| |].
    + by apply fmt_d_not_placeholder in H.
    + repeat (destruct H as [H|H]; [discriminate H|]). exact H.
  - unfold pgnout_of in H. destruct st; [exact H|]. cbn [In] in H.
    destruct H as [H|[H|H]]; [discriminate H | | exact H].
    by apply prefixed_not_placeholder in H.
  - unfold site_args in H. cbn [In] in H.
    destruct H as [H|[H|H]]; [discriminate H | | exact H].
    by apply prefixed_not_placeholder in H.
  - unfold event_args in H. cbn [In] in H.
    destruct H as [H|[H|H]]; [discriminate H | | exact H].
    by apply prefixed_not_placeholder in H.
  - unfold srand_args in H. cbn [In] in H.
    destruct H as [H|[H|H]]; [discriminate H | | exact H].
    by apply fmt_d_not_placeholder in H.
  - unfold adjudication_args in H. cbn [In] in H.
    repeat (destruct H as [H|H];
            [first [discriminate H | by apply fmt_d_not_placeholder in H]|]).
    exact H.
  - by apply (pgn_cmd_not_placeholder a pgn_cmd book_cmd).
  - unfold new_engine_args in H. cbn [In] in H.
    repeat (destruct H as [H|H];
            [first [discriminate H | by apply prefixed_not_placeholder in H]|]).
    exact H.
  - by apply (options_not_placeholder (new_options a) no).
Qed.

Lemma cmd_middle_free a bo :
  parse_options (base_options a) = Ret bo -> ~ In "_spsa_" (cmd_middle a bo).
Proof.
  intros Hbo. unfold cmd_middle. rewrite in_app_iff. intros [H|H].
  - unfold base_engine_args in H. cbn [In] in H.
    repeat (destruct H as [H|H];
            [first [discriminate H | by apply prefixed_not_placeholder in H]|]).
    exact H.
  - by apply (options_not_placeholder (base_options a) bo).
Qed.

Lemma cutechess_cmd_parts cutechess a task_id srand gtp gc pgnout pgn_cmd book_cmd no bo
    scaled_tc :
  cutechess_cmd cutechess a task_id srand gtp gc pgnout pgn_cmd book_cmd no bo scaled_tc
  = (cmd_head cutechess a task_id srand gtp gc pgnout pgn_cmd no ++
     "_spsa_" :: cmd_middle a bo ++ "_spsa_" :: cmd_tail a book_cmd no bo scaled_tc)%list.
Proof.
  unfold cutechess_cmd, cmd_head, cmd_middle, cmd_tail.
  rewrite <- !app_assoc. reflexivity.
Qed.

(** X27.  In the command that [run_games] builds, no argument before the
    second placeholder can be taken for a placeholder, whatever the
    options, tags, book and identifiers of the run are: the two lookups
    of [launch_cutechess] find the placeholders that [run_games] wrote,
    the parameters of the new engine are put after the options of the
    new engine and those of the base engine after the options of the
    base engine, and the match runner is started. *)
Theorem command_keeps_its_placeholders cutechess a task_id srand gtp gc (st : bool)
    unique_key pgn_cmd book_cmd no bo scaled_tc games_to_play env w
    (wparams bparams : list (string * Q)) :
  cutechess <> "_spsa_" ->
  parse_options (new_options a) = Ret no ->
  parse_options (base_options a) = Ret bo ->
  book_commands a = Ret (pgn_cmd, book_cmd) ->
  (if st then request_spsa env = Ret (wparams, bparams)
   else wparams = [] /\ bparams = []) ->
  launch_preamble
    (cutechess_cmd cutechess a task_id srand gtp gc (pgnout_of st unique_key)
       pgn_cmd book_cmd no bo scaled_tc) st games_to_play env w =
  (set_trace
     (trace w ++ (if st then [PostRequestSpsa] else @nil action) ++
      [Spawn (cmd_head cutechess a task_id srand gtp gc (pgnout_of st unique_key)
                pgn_cmd no
              ++ map spsa_option wparams ++ cmd_middle a bo
              ++ map spsa_option bparams ++ cmd_tail a book_cmd no bo scaled_tc)])%list
     (set_spsa {| num_games := games_to_play; spsa_wld := None |} w),
   Ret tt).
Proof.
  intros Hc Hno Hbo Hbook Hp.
  rewrite cutechess_cmd_parts.
  apply launch_preamble_substitutes; [|by apply cmd_middle_free|exact Hp].
  by apply (cmd_head_free _ _ _ _ _ _ _ _ pgn_cmd book_cmd).
Qed.

Lemma command_keeps_its_placeholders_witness :
  exists tr,
    launch_preamble
      (cutechess_cmd "/w/testing/cutechess-cli" sample_args 3 12345 10 3
         (pgnout_of false "key")
         ["-openings"; "file=2moves_v1.pgn"; "format=pgn"; "order=random"; "plies=16"] []
         ["option.Hash=16"; "option.Skill Level=20"] ["option.Hash=16"] "10.000+0.100")
      false 10 failing_env sample_start
    = (set_trace tr (set_spsa {| num_games := 10; spsa_wld := None |} sample_start),
       Ret tt).
Proof.
  eexists.
  apply (command_keeps_its_placeholders "/w/testing/cutechess-cli" sample_args 3 12345
           10 3 false "key"
           ["-openings"; "file=2moves_v1.pgn"; "format=pgn"; "order=random"; "plies=16"] []
           ["option.Hash=16"; "option.Skill Level=20"] ["option.Hash=16"] "10.000+0.100"
           10 failing_env sample_start [] []).
  - discriminate.
  - reflexivity.
  - reflexivity.
  - reflexivity.
  - split; reflexivity.
Defined.

(** ** Pairing keeps the points *)

Lemma results_to_score_from_insert i (j : nat) (d : Z) (l : list Z) :
  (j < length l)%nat ->
  (results_to_score_from i (<[j := (l !!! j + d)%Z]> l)
   == results_to_score_from i l + inject_Z d * half (i + j))%Q.
Proof.
  revert i j. induction l as [|x l IH]; intros i j Hj; [cbn [length] in Hj; lia|].
  destruct j as [|j].
  - cbn [insert list_insert lookup_total list_lookup_total results_to_score_from].
    rewrite Nat.add_0_r. rewrite inject_Z_plus. ring.
  - cbn [insert list_insert lookup_total list_lookup_total results_to_score_from].
    cbn [length] in Hj.
    change (list_insert j (list_lookup_total j l + d) l)
      with (<[j := l !!! j + d]> l).
    rewrite (IH (S i) j) by lia.
    replace (half (i + S j)) with (half (S i + j)) by (f_equal; lia). ring.
Qed.

Lemma results_to_score_entry_add (k d : Z) (l : list Z) :
  0 <= k < Z.of_nat (length l) ->
  (results_to_score (entry_add k d l)
   == results_to_score l + inject_Z d * (k # 2))%Q.
Proof.
  intros Hk. unfold results_to_score, entry_add.
  rewrite results_to_score_from_insert by lia.
  unfold half. cbn [Nat.add]. rewrite Z2Nat.id by lia. reflexivity.
Qed.

Lemma points_stored r cur rs n :
  consistent rs n -> -1 <= result cur <= 2 ->
  (points (stored r cur rs) == points rs + (default 0%Z (bucket r cur) # 2))%Q.
Proof.
  intros (p & t & Hp & Ht & Lp & Lt & _) Hr.
  unfold points, stored. cbn [pentanomial trinomial]. rewrite Hp, Ht.
  unfold bucket. destruct (result cur =? -1) eqn:E.
  - cbn [default]. assert (Hz : (0 # 2 == 0)%Q) by reflexivity. rewrite Hz. ring.
  - apply Z.eqb_neq in E. cbn [fmap option_fmap option_map default].
    set (k := if r mod 2 =? 0 then 2 - result cur else result cur).
    assert (Hk : 0 <= k < Z.of_nat (length t))
      by (subst k; rewrite Lt; destruct (r mod 2 =? 0); lia).
    rewrite results_to_score_entry_add by exact Hk.
    change (inject_Z 1) with 1%Q. unfold id. ring.
Qed.

Lemma points_paired odd o e rs n :
  consistent rs n ->
  0 <= result o <= 2 -> 0 <= result e <= 2 ->
  (points (paired odd (odd + 1) o e rs) == points rs)%Q.
Proof.
  intros (p & t & Hp & Ht & Lp & Lt & _) Ho He.
  unfold points, paired. cbn [pentanomial trinomial]. rewrite Hp, Ht.
  cbn [fmap option_fmap option_map].
  rewrite !results_to_score_entry_add
    by (rewrite ?entry_add_length, ?Lp, ?Lt; lia).
  unfold Qeq, Qplus, Qmult, inject_Z. cbn [Qnum Qden]. lia.
Qed.

Lemma points_pair_games rs n odd :
  consistent rs n -> odd mod 2 = 1 ->
  (points (fst (pair_games odd (odd + 1) rs)) == points rs)%Q.
Proof.
  intros Hc Hodd.
  destruct (games rs !! odd) as [o|] eqn:Ho;
    [|rewrite pair_games_absent by (left; exact Ho); reflexivity].
  destruct (games rs !! (odd + 1)) as [e|] eqn:He;
    [|rewrite pair_games_absent by (right; exact He); reflexivity].
  destruct (pairing_identity o e) eqn:Hid;
    [|rewrite (pair_games_identity_fails _ _ _ o e) by assumption; reflexivity].
  destruct (decide (result o = -1)) as [Uo|Ko];
    [rewrite (pair_games_unknown _ _ _ o e) by (first [assumption | left; assumption]);
     reflexivity|].
  destruct (decide (result e = -1)) as [Ue|Ke];
    [rewrite (pair_games_unknown _ _ _ o e) by (first [assumption | right; assumption]);
     reflexivity|].
  rewrite (pair_games_paired rs n odd o e) by assumption. cbn [fst].
  pose proof Hc as (_ & _ & _ & _ & _ & _ & Hk & _).
  apply (points_paired odd o e rs n Hc); eapply known_range; eauto.
Qed.

Lemma credit_game line t2 t3 t4 t5 t6 rest r :
  Py.split_ws line = "Finished" :: "game" :: t2 :: t3 :: t4 :: t5 :: t6 :: rest ->
  Py.int t2 = Some r ->
  credit line = default 0 (bucket r (record_of t3 t5 t6)).
Proof. intros E Hint. unfold credit. rewrite E. cbn [String.eqb Ascii.eqb Bool.eqb andb]. by rewrite Hint. Qed.

Lemma credit_other line :
  (forall t2 t3 t4 t5 t6 rest r,
     Py.split_ws line = "Finished" :: "game" :: t2 :: t3 :: t4 :: t5 :: t6 :: rest ->
     Py.int t2 <> Some r) ->
  credit line = 0.
Proof.
  intros Hno. unfold credit.
  destruct (Py.split_ws line) as [|t0 [|t1 [|t2 [|t3 [|t4 [|t5 [|t6 rest]]]]]]];
    try reflexivity.
  destruct (String.eqb_spec t0 "Finished") as [->|]; [|reflexivity].
  destruct (String.eqb_spec t1 "game") as [->|]; [|reflexivity].
  cbn [andb]. destruct (Py.int t2) as [r|] eqn:Hint; [|reflexivity].
  by destruct (Hno t2 t3 t4 t5 t6 rest r eq_refl).
Qed.

(** X13.  Every call of [update_pentanomial] adds to the score [s5] of the
    validator exactly what the game of its line is worth (half the index
    of the entry of [trinomial] that counts it, nothing for an unknown
    result or another line): pairing moves two games from [trinomial]
    to [pentanomial] without changing [s5], which is why both lists are
    weighted by half their indices. *)
Theorem pairing_keeps_the_points old line rs n :
  consistent rs n ->
  (points (fst (update_pentanomial old line rs)) == points rs + (credit line # 2))%Q.
Proof.
  intros Hc.
  assert (Hother :
    (forall t2 t3 t4 t5 t6 rest r,
       Py.split_ws line = "Finished" :: "game" :: t2 :: t3 :: t4 :: t5 :: t6 :: rest ->
       Py.int t2 <> Some r) ->
    (points (fst (update_pentanomial old line rs)) == points rs + (credit line # 2))%Q).
  { intros Hno. rewrite (update_pentanomial_other_state old line rs n Hc Hno).
    rewrite (credit_other line Hno).
    assert (Hz : (0 # 2 == 0)%Q) by reflexivity. rewrite Hz. ring. }
  destruct (Py.split_ws line) as [|t0 [|t1 [|t2 [|t3 [|t4 [|t5 [|t6 rest]]]]]]] eqn:E;
    try (apply Hother; intros * E'; discriminate E').
  destruct (String.eqb_spec t0 "Finished") as [->|N0];
    [|apply Hother; intros * E'; injection E' as -> _; congruence].
  destruct (String.eqb_spec t1 "game") as [->|N1];
    [|apply Hother; intros * E'; injection E' as -> _; congruence].
  destruct (Py.int t2) as [r|] eqn:Hint;
    [|apply Hother; intros * E'; injection E' as <- _; congruence].
  rewrite (update_pentanomial_game old line rs n _ _ _ _ _ _ r Hc E Hint).
  rewrite (credit_game line _ _ _ _ _ _ r E Hint).
  destruct (pair_of_shape r) as (odd & Epair & Hodd & _). rewrite Epair. cbn [fst snd].
  pose proof (stored_consistent rs n r (record_of t3 t5 t6) Hc
                (result_to_score_range t6)) as Hc1.
  pose proof (points_pair_games _ _ odd Hc1 Hodd) as Hp.
  assert (Hst : fst ((pair_games odd (odd + 1);; cumulative_pentanomial old)
                       (stored r (record_of t3 t5 t6) rs))
                = fst (pair_games odd (odd + 1) (stored r (record_of t3 t5 t6) rs))).
  { unfold bind.
    destruct (pair_games odd (odd + 1) (stored r (record_of t3 t5 t6) rs))
      as [s2 [[]|e]]; [|reflexivity].
    apply cumulative_pentanomial_state. }
  rewrite Hst, Hp.
  apply (points_stored r (record_of t3 t5 t6) rs n Hc (result_to_score_range t6)).
Qed.

Lemma pairing_keeps_the_points_witness :
  Qeq (points (fst (update_pentanomial [0; 0; 0; 0; 0] game2_line after_game1)))
      (Qplus (points after_game1) (Qmake (credit game2_line) 2)) /\
  credit game2_line = 0 /\ Qeq (points after_game1) (Qmake 1 2).
Proof.
  split; [|split; reflexivity].
  apply (pairing_keeps_the_points [0; 0; 0; 0; 0] game2_line after_game1 1).
  exact (feed_consistent [0; 0; 0; 0; 0] [game1_line]
           (with_defaults empty_rounds) 0 consistent_empty).
Defined.
